(** * LLMCore: the generation pipeline of [src/LLMCore.py]

    A shallow embedding of [LlamaModel] (context tracking in [evaluate],
    the sampling dispatch of [sampleTokenWithModel], the byte-safe decoding
    loop of [generate]) together with the properties its specification
    states about it.

    The inference engine ([llama_cpp]) is an external collaborator: it is an
    interface here ([Engine]), and every call the Python code makes into it
    that matters for a property is also recorded in a ghost [trace]. *)

From Stdlib Require Import String Strings.Byte ZArith List Bool Lia SpecFloat.
Import ListNotations.

Local Open Scope Z_scope.

Set Implicit Arguments.

(** ** Python and NumPy primitives *)

Module Py.

(** [len(l)] *)
Definition len {A} (l : list A) : Z := Z.of_nat (length l).

(** A slice bound as Python normalises it against a sequence of length
    [n]: a negative bound counts from the end, and the result is clipped
    to [0 .. n]. *)
Definition bound (n i : Z) : Z :=
  if i <? 0 then Z.max 0 (i + n) else Z.min i n.

(** [l[lo:hi]] *)
Definition slice {A} (l : list A) (lo hi : Z) : list A :=
  let lo' := bound (len l) lo in
  let hi' := bound (len l) hi in
  firstn (Z.to_nat (hi' - lo')) (skipn (Z.to_nat lo') l).

(** [l[:hi]] *)
Definition slice_to {A} (l : list A) (hi : Z) : list A := slice l 0 hi.

(** [l[lo:]] *)
Definition slice_from {A} (l : list A) (lo : Z) : list A := slice l lo (len l).

(** [range(start, stop, step)] for a positive [step]; the loop below needs
    at most [stop - start] iterations. *)
Fixpoint range_fuel (fuel : nat) (i stop step : Z) : list Z :=
  match fuel with
  | O => []
  | S fuel' =>
      if i <? stop then i :: range_fuel fuel' (i + step) stop step else []
  end.

Definition range (start stop step : Z) : list Z :=
  range_fuel (Z.to_nat (stop - start)) start stop step.

(** [enumerate(l)] *)
Fixpoint enumerate_from {A} (k : Z) (l : list A) : list (Z * A) :=
  match l with
  | [] => []
  | x :: l' => (k, x) :: enumerate_from (k + 1) l'
  end.

Definition enumerate {A} (l : list A) : list (Z * A) := enumerate_from 0 l.

(** NumPy's [dst[...] = src] for a one-dimensional destination of [n]
    cells and a source sequence: the source is copied when the shapes
    agree, stretched when it has exactly one element, and the assignment
    raises [ValueError] (here [None]) otherwise. *)
Definition broadcast {A} (n : nat) (src : list A) : option (list A) :=
  if Nat.eqb (length src) n then Some src
  else match src with
       | [x] => Some (repeat x n)
       | _ => None
       end.

(** [a[lo:hi] = src] on a one-dimensional array. *)
Definition set_slice {A} (a : list A) (lo hi : Z) (src : list A)
  : option (list A) :=
  let lo' := Z.to_nat (bound (len a) lo) in
  let n := length (slice a lo hi) in
  match broadcast n src with
  | Some vals => Some (firstn lo' a ++ vals ++ skipn (lo' + n) a)
  | None => None
  end.

(** Cut a flat sequence back into rows shaped like [rows]. *)
Fixpoint reshape_like {A} (rows : list (list A)) (flat : list A)
  : list (list A) :=
  match rows with
  | [] => []
  | r :: rows' =>
      firstn (length r) flat :: reshape_like rows' (skipn (length r) flat)
  end.

(** [m[lo:hi, :].reshape(-1)[:] = src] on a two-dimensional array kept as
    its list of rows: the selected rows are a contiguous block, so the
    reshape is a view and the assignment writes through. *)
Definition set_rows {A} (m : list (list A)) (lo hi : Z) (src : list A)
  : option (list (list A)) :=
  let lo' := Z.to_nat (bound (len m) lo) in
  let block := slice m lo hi in
  match broadcast (length (concat block)) src with
  | Some vals =>
      Some (firstn lo' m ++ reshape_like block vals
              ++ skipn (lo' + length block) m)
  | None => None
  end.

(** [l[-1]], which raises [IndexError] on an empty sequence. *)
Definition last_item {A} (l : list A) : option A :=
  match rev l with
  | [] => None
  | x :: _ => Some x
  end.

(** The position a scalar index [i] denotes in a sequence of length [n];
    negative indices count from the end, anything else is an
    [IndexError]. *)
Definition index (n i : Z) : option nat :=
  if (0 <=? i) && (i <? n) then Some (Z.to_nat i)
  else if (- n <=? i) && (i <? 0) then Some (Z.to_nat (i + n))
  else None.

(** Overwrite position [k] of a list (in range by construction where it
    is used). *)
Fixpoint update {A} (l : list A) (k : nat) (v : A) : list A :=
  match l, k with
  | [], _ => []
  | _ :: l', O => v :: l'
  | x :: l', S k' => x :: update l' k' v
  end.

End Py.

(** ** Exceptions and the state-and-exception monad

    A Python exception leaves the mutations done so far in place, so a
    computation returns the state in both cases. *)

Inductive exn : Type :=
| RuntimeError (function : string)   (* raised by [warnAndExit] *)
| ValueError                         (* NumPy shape mismatch, bad ctypes length *)
| IndexError.                        (* index out of range, too many initialisers *)

Inductive result (A : Type) : Type :=
| Ok (a : A)
| Raise (e : exn).

Arguments Ok {A} a.
Arguments Raise {A} e.

Definition M (S A : Type) : Type := S -> result A * S.

Definition ret {S A} (a : A) : M S A := fun s => (Ok a, s).

Definition raise {S A} (e : exn) : M S A := fun s => (Raise e, s).

Definition bind {S A B} (c : M S A) (k : A -> M S B) : M S B :=
  fun s =>
    match c s with
    | (Ok a, s') => k a s'
    | (Raise e, s') => (Raise e, s')
    end.

Definition get {S} : M S S := fun s => (Ok s, s).

Definition put {S} (s : S) : M S unit := fun _ => (Ok tt, s).

Declare Scope py_scope.
Delimit Scope py_scope with py.
Notation "x <- c ;; k" := (bind c (fun x => k))
  (at level 61, c at next level, right associativity) : py_scope.
Notation "c ;; k" := (bind c (fun _ => k))
  (at level 61, right associativity) : py_scope.

(** [for x in l: body x] *)
Fixpoint for_each {S A} (l : list A) (body : A -> M S unit) : M S unit :=
  match l with
  | [] => ret tt
  | x :: l' => bind (body x) (fun _ => for_each l' body)
  end.

(** ** Scalars, text and the inference engine

    The code mixes Python floats (the hyper-parameters), C floats
    ([np.single] logits, [c_float] mu) and Python strings. Only a handful of
    operations on them occur in [LLMCore.py]; they form the interfaces
    below. [IEEE] further down instantiates the floats with IEEE 754
    binary64 and binary32. *)

Class Floats : Type := {
  pyfloat : Type;                          (* a Python [float] *)
  single : Type;                           (* [np.single], [c_float] *)
  float_is_zero : pyfloat -> bool;         (* [x == 0.0] *)
  c_float_twice : pyfloat -> single;       (* [c_float(2.0 * x)] *)
  times_bias : single -> pyfloat -> single;(* [row[t] * bias], stored back in the [np.single] row *)
  single_lt : single -> single -> bool;    (* [a < b] on C floats *)
  single_zero : single                     (* [np.zeros] *)
}.

Class Text : Type := {
  str : Type;                              (* a Python [str] *)
  str_empty : str;                         (* [""] *)
  str_is_empty : str -> bool;              (* [s == ""] *)
  str_len : str -> Z;                      (* [len(s)] *)
  encode_utf8 : str -> list byte;          (* [s.encode("utf8")] *)
  decode_utf8_ignore : list byte -> str    (* [b.decode("utf8", errors="ignore")] *)
}.

(** One entry of [llama_token_data_array]. *)
Record llama_token_data `{Floats} : Type := {
  id : Z;
  logit : single;
  p : single
}.

(** The [llama_cpp] entry points [LlamaModel] calls. The context handle is
    the engine's own mutable state (key-value cache, logits buffer, random
    generator): the entry points that change it return the new one. *)
Class Engine `{Floats} : Type := {
  llama_context : Type;
  (* the ids written into the caller's buffer, and the returned count *)
  llama_tokenize : list byte -> Z -> bool -> bool -> list Z * Z;
  llama_token_bos : llama_context -> Z;
  (* the piece of a token in the vocabulary *)
  llama_token_to_piece : Z -> list byte;
  (* [llama_eval(ctx, tokens, n_tokens, n_past)]: status code, new context *)
  llama_eval : llama_context -> list Z -> Z -> Z -> Z * llama_context;
  (* [llama_get_logits(ctx)[k]] *)
  llama_get_logits : llama_context -> nat -> single;
  (* [llama_sample_repetition_penalties] rewrites the logit of every
     candidate in place from the occurrences of its id in the window *)
  repetition_penalty :
    list Z -> Z -> pyfloat -> pyfloat -> pyfloat -> Z -> single -> single;
  llama_sample_temperature :
    list llama_token_data -> pyfloat -> list llama_token_data;
  llama_sample_top_k : list llama_token_data -> Z -> list llama_token_data;
  llama_sample_tail_free :
    list llama_token_data -> pyfloat -> list llama_token_data;
  llama_sample_typical : list llama_token_data -> list llama_token_data;
  llama_sample_top_p :
    list llama_token_data -> pyfloat -> list llama_token_data;
  llama_sample_token :
    llama_context -> list llama_token_data -> Z * llama_context;
  (* the mirostat samplers read and write [mu] through a pointer: they
     return the token, the updated mu and the new context *)
  llama_sample_token_mirostat :
    llama_context -> list llama_token_data -> pyfloat -> pyfloat -> single
    -> Z -> Z * single * llama_context;
  llama_sample_token_mirostat_v2 :
    llama_context -> list llama_token_data -> pyfloat -> pyfloat -> single
    -> Z * single * llama_context
}.

(** ** Configuration ([LLMUtils.LLMConfig], the attributes the core reads) *)

Module LLMUtils.

Record LLMConfig `{Floats} `{Text} : Type := {
  nCtx : Z;
  logitsAll : bool;
  n_keep : Z;
  n_predict : Z;
  logit_bias : list (Z * pyfloat);   (* a dict, in insertion order *)
  frequency_penalty : pyfloat;
  repeat_penalty : pyfloat;
  presence_penalty : pyfloat;
  temperature : pyfloat;
  mirostat : Z;
  mirostat_tau : pyfloat;
  mirostat_eta : pyfloat;
  top_k : Z;
  tfs_z : pyfloat;
  top_p : pyfloat;
  antiPrompt : list str;
  prompt : str
}.

End LLMUtils.

Section LlamaModel.

Context `{FL : Floats} `{TX : Text} `{EN : @Engine FL}.

(** A call into the engine, as recorded in the ghost trace. *)
Inductive call : Type :=
| Eval (tokens : list Z) (n_past : Z)
| SampleGreedy
| SampleMirostat (version : Z) (mu_in mu_out : single)
| SampleToken.

(** The attributes of a [LlamaModel] instance that the generation pipeline
    reads or writes, and the ghost [trace]. *)
Record LlamaModel : Type := {
  parameters : LLMUtils.LLMConfig;
  context : llama_context;
  nVocab : Z;
  nCtx : Z;
  EOSToken : Z;
  pastTokens : Z;
  inputIds : list Z;               (* [np.ndarray((nCtx,), intc)]: an
                                      id is a [llama_token], a C int *)
  scores : list (list single);     (* [np.ndarray((nCtx, nVocab), single)] *)
  trace : list call
}.

Definition set_context (self : LlamaModel) (c : llama_context) :=
  {| parameters := parameters self; context := c; nVocab := nVocab self;
     nCtx := nCtx self; EOSToken := EOSToken self;
     pastTokens := pastTokens self; inputIds := inputIds self;
     scores := scores self; trace := trace self |}.

Definition set_pastTokens (self : LlamaModel) (n : Z) :=
  {| parameters := parameters self; context := context self;
     nVocab := nVocab self; nCtx := nCtx self; EOSToken := EOSToken self;
     pastTokens := n; inputIds := inputIds self;
     scores := scores self; trace := trace self |}.

Definition set_inputIds (self : LlamaModel) (a : list Z) :=
  {| parameters := parameters self; context := context self;
     nVocab := nVocab self; nCtx := nCtx self; EOSToken := EOSToken self;
     pastTokens := pastTokens self; inputIds := a;
     scores := scores self; trace := trace self |}.

Definition set_scores (self : LlamaModel) (m : list (list single)) :=
  {| parameters := parameters self; context := context self;
     nVocab := nVocab self; nCtx := nCtx self; EOSToken := EOSToken self;
     pastTokens := pastTokens self; inputIds := inputIds self;
     scores := m; trace := trace self |}.

Definition set_parameters (self : LlamaModel) (ps : LLMUtils.LLMConfig) :=
  {| parameters := ps; context := context self;
     nVocab := nVocab self; nCtx := nCtx self; EOSToken := EOSToken self;
     pastTokens := pastTokens self; inputIds := inputIds self;
     scores := scores self; trace := trace self |}.

Definition record (self : LlamaModel) (c : call) :=
  {| parameters := parameters self; context := context self;
     nVocab := nVocab self; nCtx := nCtx self; EOSToken := EOSToken self;
     pastTokens := pastTokens self; inputIds := inputIds self;
     scores := scores self; trace := trace self ++ [c] |}.

(** [_init]: [np.ndarray] allocates without initialising, so the contents
    of the two arrays are whatever the heap holds ([heap_ids],
    [heap_scores]). *)
Definition _init (heap_ids : nat -> Z) (heap_scores : nat -> nat -> single)
  (self : LlamaModel) : LlamaModel :=
  {| parameters := parameters self; context := context self;
     nVocab := nVocab self; nCtx := nCtx self;
     EOSToken := 32000;
     pastTokens := 0;
     inputIds := map heap_ids (seq 0 (Z.to_nat (nCtx self)));
     scores := map (fun r => map (heap_scores r)
                                 (seq 0 (Z.to_nat (nVocab self))))
                   (seq 0 (Z.to_nat (nCtx self)));
     trace := trace self |}.

(** [update] *)
Definition update (newParameters : LLMUtils.LLMConfig) (self : LlamaModel) :=
  {| parameters := newParameters; context := context self;
     nVocab := nVocab self; nCtx := LLMUtils.nCtx newParameters;
     EOSToken := EOSToken self;
     pastTokens := pastTokens self; inputIds := inputIds self;
     scores := scores self; trace := trace self |}.

(** [tokenizeFull]: the engine fills a zeroed buffer of [nCtx] ids and
    returns a count, and the method returns [tokens[:count]]. The buffer
    is the ctypes array [(llama_token * self.nCtx)()], which cannot be
    built for a negative [nCtx]: ctypes raises [ValueError]. *)
Definition tokenizeFull (self : LlamaModel) (input : str) (bos special : bool)
  : result (list Z) :=
  if nCtx self <? 0 then Raise ValueError
  else
    let '(written, newTokens) :=
      llama_tokenize (encode_utf8 input) (nCtx self) bos special in
    let tokens :=
      firstn (Z.to_nat (nCtx self))
             (written ++ repeat 0 (Z.to_nat (nCtx self))) in
    Ok (Py.slice_to tokens newTokens).

(** The values of a [llama_token]: the ids of [tokens] go through a
    ctypes array of [llama_token] and into the [np.intc] array [inputIds].
    Ids are kept as integers here. The ids the engine hands out (the
    tokenizer, the samplers) are [llama_token] values by their C types; for
    an id outside this range that a caller passes to [evaluate], what is
    stored depends on how ctypes and the NumPy at hand narrow it, and is
    not modelled: a statement about the stored ids of such a call carries
    the range. *)
Definition llama_token (t : Z) : Prop := - 2 ^ 31 <= t < 2 ^ 31.

(** One iteration of the loop of [evaluate], for the chunk starting at [i]. *)
Definition evaluate_chunk (tokens : list Z) (batch i : Z)
  : M LlamaModel unit :=
  fun self =>
    let nBatch := Py.slice tokens i (Z.min (Py.len tokens) (i + batch)) in
    let nPast :=
      Z.min (nCtx self - Py.len nBatch)
            (Py.len (Py.slice_to (inputIds self) (pastTokens self))) in
    let nTokens := Py.len nBatch in
    let '(evalCode, ctx) := llama_eval (context self) nBatch nTokens nPast in
    let self := record (set_context self ctx) (Eval nBatch nPast) in
    if negb (evalCode =? 0) then (Raise (RuntimeError "evaluate"), self)
    else
      match Py.set_slice (inputIds self) (pastTokens self)
                         (pastTokens self + nTokens) nBatch with
      | None => (Raise ValueError, self)
      | Some ids =>
          let self := set_inputIds self ids in
          let rows := if LLMUtils.logitsAll (parameters self)
                      then nTokens else 1 in
          let cols := nVocab self in
          let offset := if LLMUtils.logitsAll (parameters self)
                        then 0 else nTokens - 1 in
          let logits := map (llama_get_logits (context self))
                            (seq 0 (Z.to_nat (rows * cols))) in
          match Py.set_rows (scores self) (pastTokens self + offset)
                            (pastTokens self + nTokens) logits with
          | None => (Raise ValueError, self)
          | Some sc =>
              (Ok tt,
               set_pastTokens (set_scores self sc)
                              (pastTokens self + nTokens))
          end
      end.

(** [evaluate] *)
Definition evaluate (tokens : list Z) (batch : Z) : M LlamaModel unit :=
  if 0 <? batch
  then for_each (Py.range 0 (Py.len tokens) batch) (evaluate_chunk tokens batch)
  else ret tt.

(** *** Sampling *)

(** The ctypes array [llama_token * size] built from [data]: a negative length is a [ValueError], too
    many initialisers an [IndexError], missing ones are zero. *)
Definition ctypes_array (size : Z) (data : list Z) : result (list Z) :=
  if size <? 0 then Raise ValueError
  else if size <? Py.len data then Raise IndexError
  else Ok (data ++ repeat 0 (Z.to_nat (size - Py.len data))).

(** The row [self.scores[: self.pastTokens, :][-1, :]] is a view: [logits]
    below is its position in [scores], and writing to it writes to
    [scores]. *)
Definition logits_view (self : LlamaModel) : option nat :=
  match Py.slice_to (scores self) (pastTokens self) with
  | [] => None
  | rows => Some (length rows - 1)%nat
  end.

(** [logits[token] = logits[token] * bias] *)
Definition bias_row (row : list single) (token : Z) (bias : pyfloat)
  : option (list single) :=
  match Py.index (Py.len row) token with
  | None => None
  | Some k =>
      Some (Py.update row k (times_bias (nth k row single_zero) bias))
  end.

(** [for token, bias in self.parameters.logit_bias.items(): ...] on a row. *)
Fixpoint apply_logit_bias (row : list single) (items : list (Z * pyfloat))
  : list single * bool :=
  match items with
  | [] => (row, true)
  | (token, bias) :: items' =>
      match bias_row row token bias with
      | None => (row, false)       (* [IndexError], earlier writes stay *)
      | Some row' => apply_logit_bias row' items'
      end
  end.

(** [candidatesData["id"][:] = ...; ["logit"][:] = logits; ["p"][:] = ...]
    as the engine sees it through [candidates.data] with
    [candidates.size = nVocab]. *)
Definition fill_candidates (nVocab : Z) (logits : list single)
  : option (list llama_token_data) :=
  match Py.broadcast (Z.to_nat nVocab) logits with
  | None => None
  | Some ls =>
      Some (map (fun '(i, l) => {| id := i; logit := l; p := single_zero |})
                (Py.enumerate ls))
  end.

(** Modelled from the spec: [llama_sample_token_greedy], an entry point of
    the engine that is not part of this repository. The specification of
    the sampler reads "greedy: pick the argmax logit, ties broken by lowest
    token id": a scan that keeps the first best candidate and replaces it
    only by a strictly larger one. *)
Definition llama_sample_token_greedy (candidates : list llama_token_data)
  : Z :=
  match candidates with
  | [] => 0
  | c :: cs =>
      id (fold_left
            (fun best c' => if single_lt (logit best) (logit c') then c' else best)
            cs c)
  end.

(** The first half of [sampleTokenWithModel], down to the call of
    [llama_sample_repetition_penalties]: the window of recent tokens, the
    bias pass on the latest row of [scores], and the penalised candidates. *)
Definition prepare_candidates : M LlamaModel (list llama_token_data) :=
  fun self =>
    let params := parameters self in
    let lastNTokensSize :=
      if negb (LLMUtils.n_keep params =? -1)
      then LLMUtils.n_keep params else nCtx self in
    let history := Py.slice_to (inputIds self) (pastTokens self) in
    let lastNTokensData :=
      repeat 0 (Z.to_nat (Z.max 0 (LLMUtils.n_keep params - Py.len history)))
      ++ Py.slice_from history (- lastNTokensSize) in
    match ctypes_array lastNTokensSize lastNTokensData with
    | Raise e => (Raise e, self)
    | Ok lastNTokensData =>
    match logits_view self with
    | None => (Raise IndexError, self)
    | Some r =>
    let '(logits, ok) :=
      apply_logit_bias (nth r (scores self) []) (LLMUtils.logit_bias params) in
    let self := set_scores self (Py.update (scores self) r logits) in
    if negb ok then (Raise IndexError, self)
    else
    match fill_candidates (nVocab self) logits with
    | None => (Raise ValueError, self)
    | Some candidates =>
        (Ok (map (fun c =>
                    {| id := id c;
                       logit :=
                         repetition_penalty lastNTokensData lastNTokensSize
                           (LLMUtils.frequency_penalty params)
                           (LLMUtils.repeat_penalty params)
                           (LLMUtils.presence_penalty params)
                           (id c) (logit c);
                       p := p c |})
                 candidates),
         self)
    end end end.

(** The second half of [sampleTokenWithModel] ("actually sample the
    token"): the choice of the strategy and the draw. *)
Definition select_token (candidates : list llama_token_data)
  : M LlamaModel Z :=
  fun self =>
    let params := parameters self in
    if float_is_zero (LLMUtils.temperature params) then
      (Ok (llama_sample_token_greedy candidates), record self SampleGreedy)
    else if LLMUtils.mirostat params =? 1 then
      let mirostatMU := c_float_twice (LLMUtils.mirostat_tau params) in
      let mirostatM := 100 in
      let candidates :=
        llama_sample_temperature candidates (LLMUtils.temperature params) in
      let '(id, mu, ctx) :=
        llama_sample_token_mirostat (context self) candidates
          (LLMUtils.mirostat_tau params) (LLMUtils.mirostat_eta params)
          mirostatMU mirostatM in
      (Ok id, record (set_context self ctx) (SampleMirostat 1 mirostatMU mu))
    else if LLMUtils.mirostat params =? 2 then
      let mirostatMU := c_float_twice (LLMUtils.mirostat_tau params) in
      let candidates :=
        llama_sample_temperature candidates (LLMUtils.temperature params) in
      let '(id, mu, ctx) :=
        llama_sample_token_mirostat_v2 (context self) candidates
          (LLMUtils.mirostat_tau params) (LLMUtils.mirostat_eta params)
          mirostatMU in
      (Ok id, record (set_context self ctx) (SampleMirostat 2 mirostatMU mu))
    else
      let candidates := llama_sample_top_k candidates (LLMUtils.top_k params) in
      let candidates :=
        llama_sample_tail_free candidates (LLMUtils.tfs_z params) in
      let candidates := llama_sample_typical candidates in
      let candidates := llama_sample_top_p candidates (LLMUtils.top_p params) in
      let candidates :=
        llama_sample_temperature candidates (LLMUtils.temperature params) in
      let '(id, ctx) := llama_sample_token (context self) candidates in
      (Ok id, record (set_context self ctx) SampleToken).

(** [sampleTokenWithModel] *)
Definition sampleTokenWithModel : M LlamaModel Z :=
  bind prepare_candidates select_token.

(** *** Decoding *)

(** [tokenToByte]: the piece is written into a 32-byte buffer; a longer
    piece is not written at all (the engine returns a negative count and
    [buffer[:n]] is then empty). *)
Definition tokenToByte (token : Z) : list byte :=
  let piece := llama_token_to_piece token in
  if Py.len piece <=? 32 then piece else [].

(** [tokensToString] *)
Definition tokensToString (tokens : list Z) : str :=
  decode_utf8_ignore (concat (map tokenToByte tokens)).

(** [a == b[:len(a)]] on bytes. *)
Fixpoint starts_with (a l : list byte) : bool :=
  match a, l with
  | [], _ => true
  | _ :: _, [] => false
  | x :: a', y :: l' => Byte.eqb x y && starts_with a' l'
  end.

(** [l.find(a)] on bytes: the lowest position where [a] occurs. *)
Fixpoint bytes_find (a l : list byte) : option nat :=
  if starts_with a l then Some 0%nat
  else match l with
       | [] => None
       | _ :: l' => option_map S (bytes_find a l')
       end.

(** [a in l] *)
Definition bytes_in (a l : list byte) : bool :=
  match bytes_find a l with Some _ => true | None => false end.

(** [l.index(a)], for an [a] known to occur. *)
Definition bytes_index (a l : list byte) : nat :=
  match bytes_find a l with Some k => k | None => 0%nat end.

(** The state of the loop of [generate]. *)
Record loop_state : Type := {
  tokens : list Z;
  tempBytes : list byte;
  finalString : str;
  incompleteFix : Z
}.

Definition exitTokens : list Z := [32002; 32001].

Definition byte_patterns : list (Z * Z) := [(2, 192); (3, 224); (4, 240)].

(** The recomputation of [incompleteFix] from [tempBytes[-3:]]. *)
Definition scan_incomplete (tempBytes : list byte) (incompleteFix : Z) : Z :=
  fold_left
    (fun cur '(k, char) =>
       let k := 3 - k in
       fold_left
         (fun cur '(number, pattern) =>
            if (k <? number)
               && (Z.land pattern (Z.of_N (Byte.to_N char)) =? pattern)
            then number - k else cur)
         byte_patterns cur)
    (Py.enumerate (Py.slice_from tempBytes (-3)))
    incompleteFix.

(** Which way one iteration of the loop of [generate] leaves. *)
Inductive branch : Type :=
| StopToken       (* [break]: end-of-sequence or exit token *)
| Suppressed      (* [continue]: incomplete multi-byte character *)
| AntiPromptHit   (* [break]: an anti-prompt occurs in the buffer *)
| LengthCap       (* [break]: more than [n_predict] tokens *)
| NextToken.      (* end of the body, next iteration *)

Definition is_break (b : branch) : bool :=
  match b with
  | StopToken | AntiPromptHit | LengthCap => true
  | Suppressed | NextToken => false
  end.

(** [t == self.EOSToken or t in exitTokens] *)
Definition stop_token (EOSToken t : Z) : bool :=
  (t =? EOSToken) || existsb (Z.eqb t) exitTokens.

(** The body of [for t in self.generateTokens(...)], for the token [t]. *)
Definition loop_body (EOSToken n_predict : Z)
  (encodedAntiPrompts : list (list byte)) (t : Z) (ls : loop_state)
  : branch * loop_state :=
  if stop_token EOSToken t then
    (StopToken,
     {| tokens := tokens ls; tempBytes := tempBytes ls;
        finalString :=
          if negb (str_len (finalString ls) + 1 =? Py.len (tokens ls))
          then tokensToString (tokens ls) else finalString ls;
        incompleteFix := incompleteFix ls |})
  else
    let tokens := tokens ls ++ [t] in
    let tempBytes := tempBytes ls ++ tokenToByte t in
    let incompleteFix := scan_incomplete tempBytes (incompleteFix ls) in
    if 0 <? incompleteFix then
      (Suppressed,
       {| tokens := tokens; tempBytes := tempBytes;
          finalString := finalString ls;
          incompleteFix := incompleteFix - 1 |})
    else
      match filter (fun a => bytes_in a tempBytes) encodedAntiPrompts with
      | firstAntiPrompt :: _ =>
          (AntiPromptHit,
           {| tokens := tokens;
              tempBytes :=
                Py.slice_to tempBytes
                  (Z.of_nat (bytes_index firstAntiPrompt tempBytes));
              finalString := finalString ls;
              incompleteFix := incompleteFix |})
      | [] =>
          if n_predict <? Py.len tokens then
            (LengthCap,
             {| tokens := tokens; tempBytes := tempBytes;
                finalString := tokensToString tokens;
                incompleteFix := incompleteFix |})
          else
            (NextToken,
             {| tokens := tokens; tempBytes := tempBytes;
                finalString := finalString ls;
                incompleteFix := incompleteFix |})
      end.

(** The loop of [generate] run on a given sequence of sampled tokens: the
    state when the loop leaves or the sequence is exhausted, and the
    [break] taken, if any. *)
Fixpoint consume (EOSToken n_predict : Z) (enc : list (list byte))
  (ts : list Z) (ls : loop_state) : option branch * loop_state :=
  match ts with
  | [] => (None, ls)
  | t :: ts' =>
      let '(b, ls') := loop_body EOSToken n_predict enc t ls in
      if is_break b then (Some b, ls')
      else consume EOSToken n_predict enc ts' ls'
  end.

(** *** The generation loop *)

(** [generateTokens] driven by the [for] loop of [generate]. The generator
    evaluates the pending tokens, samples, and yields; the loop body runs
    on the yielded token; resuming the generator ([tokensON] is always
    [None] here) makes the sampled token the pending one. [fuel] bounds the
    number of iterations: [None] means the loop is still running. *)
Fixpoint generate_loop (fuel : nat) (enc : list (list byte))
  (pending : list Z) (ls : loop_state) : M LlamaModel (option loop_state) :=
  match fuel with
  | O => ret None
  | S fuel' =>
      (_ <- evaluate pending 64 ;;
       newToken <- sampleTokenWithModel ;;
       self <- get ;;
       let '(b, ls') :=
         loop_body (EOSToken self) (LLMUtils.n_predict (parameters self))
                   enc newToken ls in
       if is_break b then ret (Some ls')
       else generate_loop fuel' enc [newToken] ls')%py
  end.

(** The state in which [generate] enters its loop. *)
Definition loop_start : loop_state :=
  {| tokens := []; tempBytes := []; finalString := str_empty;
     incompleteFix := 0 |}.

(** [generateTokens] on its own: the first [n] tokens the generator
    yields when it is started on [tokens] and resumed without a value, as
    a [for] loop does. Before each token the pending ids are evaluated;
    the token yielded last has not been evaluated. *)
Fixpoint generateTokens (n : nat) (tokens : list Z)
  : M LlamaModel (list Z) :=
  match n with
  | O => ret []
  | S n' =>
      (_ <- evaluate tokens 64 ;;
       newToken <- sampleTokenWithModel ;;
       rest <- generateTokens n' [newToken] ;;
       ret (newToken :: rest))%py
  end.

(** [tokenizedPromptTokens] in [generate]. *)
Definition tokenizedPromptTokens (self : LlamaModel) : result (list Z) :=
  if negb (str_is_empty (LLMUtils.prompt (parameters self)))
  then tokenizeFull self (LLMUtils.prompt (parameters self)) false true
  else Ok [llama_token_bos (context self)].

(** [generate]. The printed diagnostics and the timing calls are not
    modelled. *)
Definition generate (fuel : nat) : M LlamaModel (option str) :=
  fun self =>
    let antiPrompts := LLMUtils.antiPrompt (parameters self) in
    match tokenizedPromptTokens self with
    | Raise e => (Raise e, self)
    | Ok tokenizedPromptTokens =>
    if LLMUtils.nCtx (parameters self)
       <=? Py.len tokenizedPromptTokens then
      (Ok (Some str_empty), self)
    else
      let encodedAntiPrompts := map encode_utf8 antiPrompts in
      match generate_loop fuel encodedAntiPrompts
                          tokenizedPromptTokens loop_start self with
      | (Ok (Some ls), self') =>
          (Ok (Some (if negb (str_is_empty (finalString ls))
                     then finalString ls
                     else decode_utf8_ignore (tempBytes ls))),
           self')
      | (Ok None, self') => (Ok None, self')
      | (Raise e, self') => (Raise e, self')
      end
    end.

(** ** Notions used in the statements *)

(** The chunk of [tokens] that starts at [i]: [nBatch] in [evaluate]. *)
Definition chunk_at (tokens : list Z) (batch i : Z) : list Z :=
  Py.slice tokens i (Z.min (Py.len tokens) (i + batch)).

(** The chunks [evaluate] cuts [tokens] into, in order. *)
Definition chunks (tokens : list Z) (batch : Z) : list (list Z) :=
  map (chunk_at tokens batch) (Py.range 0 (Py.len tokens) batch).

(** The engine evaluations of a run of [evaluate] that meets no error:
    chunk after chunk, each with
    [min(capacity - len(chunk), tokens evaluated so far)]. *)
Fixpoint eval_calls (capacity past : Z) (cs : list (list Z)) : list call :=
  match cs with
  | [] => []
  | c :: cs' =>
      Eval c (Z.min (capacity - Py.len c) past)
        :: eval_calls capacity (past + Py.len c) cs'
  end.

(** The claim that [mu] is threaded through the sampling steps of a call:
    the first mirostat call of the trace receives [mu], and every later one
    receives what the call before it stored. *)
Fixpoint mu_threaded (mu : single) (calls : list call) : Prop :=
  match calls with
  | [] => True
  | SampleMirostat _ mu_in mu_out :: calls' =>
      mu_in = mu /\ mu_threaded mu_out calls'
  | _ :: calls' => mu_threaded mu calls'
  end.

(** What the code does instead: a mirostat call receives
    [c_float(2.0 * mirostat_tau)]. *)
Definition mu_fresh (params : LLMUtils.LLMConfig) (c : call) : Prop :=
  match c with
  | SampleMirostat _ mu_in _ =>
      mu_in = c_float_twice (LLMUtils.mirostat_tau params)
  | _ => True
  end.

(** The claim that a call of [evaluate] is refused before the engine is
    asked to evaluate anything. *)
Definition rejected_before_evaluation (tokens : list Z) (batch : Z)
  (self : LlamaModel) : Prop :=
  exists e self',
    evaluate tokens batch self = (Raise e, self') /\ trace self' = trace self.


(** The claim that [result] is [buffer] cut where the anti-prompt [a]
    first occurs in it. *)
Definition truncated_at (a buffer result : list byte) : Prop :=
  exists k, bytes_find a buffer = Some k /\ result = firstn k buffer.

(** The array [lastNTokensData] of a sampling step whose window is the
    whole context ([n_keep == -1]) or positive: the ids evaluated last,
    after zeros when there are fewer of them than [n_keep], and filled up
    with zeros by ctypes to the length of the window. *)
Definition penalty_window (self : LlamaModel) : list Z :=
  let n_keep := LLMUtils.n_keep (parameters self) in
  let size := if n_keep =? -1 then nCtx self else n_keep in
  let history := Py.slice_to (inputIds self) (pastTokens self) in
  let data :=
    repeat 0 (Z.to_nat (Z.max 0 (n_keep - Py.len history)))
    ++ Py.slice_from history (- size) in
  data ++ repeat 0 (Z.to_nat (size - Py.len data)).

(** The penalised logits a sampling step chooses from: the latest row of
    [scores], row [pastTokens - 1], after the bias pass, each entry then
    rewritten by the repetition penalty of the engine, for the window above
    and the penalties of the configuration. *)
Definition penalised_logits (self : LlamaModel) : list single :=
  let params := parameters self in
  let n_keep := LLMUtils.n_keep params in
  let biased :=
    fst (apply_logit_bias
           (nth (Z.to_nat (pastTokens self - 1)) (scores self) [])
           (LLMUtils.logit_bias params)) in
  map (fun '(token, l) =>
         repetition_penalty (penalty_window self)
           (if n_keep =? -1 then nCtx self else n_keep)
           (LLMUtils.frequency_penalty params)
           (LLMUtils.repeat_penalty params)
           (LLMUtils.presence_penalty params)
           token l)
      (Py.enumerate biased).


(** A configuration with other mirostat, top-k and top-p settings. *)
Definition with_strategy (ps : LLMUtils.LLMConfig) (mode k : Z)
  (top : pyfloat) : LLMUtils.LLMConfig :=
  {| LLMUtils.nCtx := LLMUtils.nCtx ps;
     LLMUtils.logitsAll := LLMUtils.logitsAll ps;
     LLMUtils.n_keep := LLMUtils.n_keep ps;
     LLMUtils.n_predict := LLMUtils.n_predict ps;
     LLMUtils.logit_bias := LLMUtils.logit_bias ps;
     LLMUtils.frequency_penalty := LLMUtils.frequency_penalty ps;
     LLMUtils.repeat_penalty := LLMUtils.repeat_penalty ps;
     LLMUtils.presence_penalty := LLMUtils.presence_penalty ps;
     LLMUtils.temperature := LLMUtils.temperature ps;
     LLMUtils.mirostat := mode;
     LLMUtils.mirostat_tau := LLMUtils.mirostat_tau ps;
     LLMUtils.mirostat_eta := LLMUtils.mirostat_eta ps;
     LLMUtils.top_k := k;
     LLMUtils.tfs_z := LLMUtils.tfs_z ps;
     LLMUtils.top_p := top;
     LLMUtils.antiPrompt := LLMUtils.antiPrompt ps;
     LLMUtils.prompt := LLMUtils.prompt ps |}.

(** The comparison of C floats behaves as a strict weak order on the
    values [vals]. *)
Definition ordered_on (vals : list single) : Prop :=
  forall x y z, In x vals -> In y vals -> In z vals ->
    single_lt x x = false /\
    (single_lt x y = true ->
     (single_lt y z = true -> single_lt x z = true) /\
     (single_lt x z = true \/ single_lt z y = true)).


(** The bytes in the buffer once the tokens [ts] have been accepted. *)
Definition buffered (ts : list Z) : list byte := concat (map tokenToByte ts).


(** The shape [_init] gives the context state: both arrays have [nCtx]
    rows, a row of [scores] has [nVocab] entries, the vocabulary has at
    least two tokens, and the counter is within the capacity. *)
Definition well_formed (self : LlamaModel) : Prop :=
  Py.len (inputIds self) = nCtx self /\
  Py.len (scores self) = nCtx self /\
  Forall (fun row => Py.len row = nVocab self) (scores self) /\
  2 <= nVocab self /\
  0 <= pastTokens self <= nCtx self.

(** The states a model with at least two vocabulary entries reaches from
    [_init] through [evaluate], [sampleTokenWithModel] and [generate]. *)
Inductive reachable : LlamaModel -> Prop :=
| reach_init heap_ids heap_scores self :
    0 <= nCtx self -> 2 <= nVocab self ->
    reachable (_init heap_ids heap_scores self)
| reach_evaluate tokens batch self :
    reachable self -> reachable (snd (evaluate tokens batch self))
| reach_sample self :
    reachable self -> reachable (snd (sampleTokenWithModel self))
| reach_generate fuel self :
    reachable self -> reachable (snd (generate fuel self)).

End LlamaModel.

(** ** Concrete interfaces for the examples *)

(** IEEE 754 floats: binary64 for Python's [float], binary32 for
    [np.single] and [c_float]. A product of a [np.single] scalar and a
    Python [float] is computed in binary64 and rounded when it is stored
    into the binary32 array. *)
Module IEEE.

Definition binary64_mul : spec_float -> spec_float -> spec_float :=
  SFmul 53 1024.

Definition to_binary32 (x : spec_float) : spec_float :=
  match x with
  | S754_finite s m e => binary_normalize 24 128 (cond_Zopp s (Zpos m)) e s
  | _ => x
  end.

(** [2.0], [1.0] and [0.0] as binary64 values. *)
Definition two : spec_float := S754_finite false 4503599627370496 (-51).
Definition one : spec_float := S754_finite false 4503599627370496 (-52).
Definition zero : spec_float := S754_zero false.

(** [1.0], [2.0] and [3.0] as binary32 values. *)
Definition one32 : spec_float := S754_finite false 8388608 (-23).
Definition two32 : spec_float := S754_finite false 8388608 (-22).
Definition three32 : spec_float := S754_finite false 12582912 (-22).

#[export] Instance floats : Floats := {|
  pyfloat := spec_float;
  single := spec_float;
  float_is_zero := fun x => SFeqb x zero;
  c_float_twice := fun x => to_binary32 (binary64_mul two x);
  times_bias := fun l b => to_binary32 (binary64_mul l b);
  single_lt := SFltb;
  single_zero := zero
|}.

End IEEE.

(** Python strings as sequences of code points, with the UTF-8 codec. The
    decoder drops what it cannot decode ([errors="ignore"]): an invalid
    lead byte alone, or the bytes of a sequence up to the first one that
    does not fit. *)
Module Utf8.

Definition byte_of (z : Z) : byte :=
  match Byte.of_N (Z.to_N z) with Some b => b | None => x00 end.

Definition val (b : byte) : Z := Z.of_N (Byte.to_N b).

Definition encode_code_point (c : Z) : list byte :=
  if c <? 128 then [byte_of c]
  else if c <? 2048 then
    [byte_of (192 + c / 64); byte_of (128 + c mod 64)]
  else if c <? 65536 then
    [byte_of (224 + c / 4096); byte_of (128 + (c / 64) mod 64);
     byte_of (128 + c mod 64)]
  else
    [byte_of (240 + c / 262144); byte_of (128 + (c / 4096) mod 64);
     byte_of (128 + (c / 64) mod 64); byte_of (128 + c mod 64)].

Definition encode (s : list Z) : list byte := flat_map encode_code_point s.

Definition continuation (x : Z) : bool := (128 <=? x) && (x <=? 191).

(** The second byte of a three- or four-byte sequence, given the first. *)
Definition second_ok (x0 x1 : Z) : bool :=
  if x0 =? 224 then (160 <=? x1) && (x1 <=? 191)
  else if x0 =? 237 then (128 <=? x1) && (x1 <=? 159)
  else if x0 =? 240 then (144 <=? x1) && (x1 <=? 191)
  else if x0 =? 244 then (128 <=? x1) && (x1 <=? 143)
  else continuation x1.

Fixpoint decode_ignore (l : list byte) : list Z :=
  match l with
  | [] => []
  | b0 :: l1 =>
      let x0 := val b0 in
      if x0 <? 128 then x0 :: decode_ignore l1
      else if (194 <=? x0) && (x0 <=? 223) then
        match l1 with
        | [] => []
        | b1 :: l2 =>
            if continuation (val b1)
            then ((x0 - 192) * 64 + (val b1 - 128)) :: decode_ignore l2
            else decode_ignore l1
        end
      else if (224 <=? x0) && (x0 <=? 239) then
        match l1 with
        | [] => []
        | b1 :: l2 =>
            if second_ok x0 (val b1) then
              match l2 with
              | [] => []
              | b2 :: l3 =>
                  if continuation (val b2)
                  then ((x0 - 224) * 4096 + (val b1 - 128) * 64
                        + (val b2 - 128)) :: decode_ignore l3
                  else decode_ignore l2
              end
            else decode_ignore l1
        end
      else if (240 <=? x0) && (x0 <=? 244) then
        match l1 with
        | [] => []
        | b1 :: l2 =>
            if second_ok x0 (val b1) then
              match l2 with
              | [] => []
              | b2 :: l3 =>
                  if continuation (val b2) then
                    match l3 with
                    | [] => []
                    | b3 :: l4 =>
                        if continuation (val b3)
                        then ((x0 - 240) * 262144 + (val b1 - 128) * 4096
                              + (val b2 - 128) * 64 + (val b3 - 128))
                               :: decode_ignore l4
                        else decode_ignore l3
                    end
                  else decode_ignore l2
              end
            else decode_ignore l1
        end
      else decode_ignore l1
  end.

(** The code points of an ASCII literal. *)
Definition literal (s : string) : list Z := map val (list_byte_of_string s).

#[export] Instance text : Text := {|
  str := list Z;
  str_empty := [];
  str_is_empty := fun s => match s with [] => true | _ => false end;
  str_len := fun s => Py.len s;
  encode_utf8 := encode;
  decode_utf8_ignore := decode_ignore
|}.

End Utf8.

(** A scripted engine: a byte-level vocabulary (token [t < 256] is the
    byte [t]), a fixed logits buffer and evaluation status, samplers that
    leave the candidates alone and draw the next token from a script, and
    mirostat samplers that store [mu_next] in [mu]. *)
Module Scripted.

Import IEEE Utf8.

Record ctx : Type := {
  script : list Z;
  logits_buf : list spec_float;
  status : Z;
  mu_next : spec_float
}.

Definition draw (c : ctx) : Z * ctx :=
  (hd 0 (script c),
   {| script := tl (script c); logits_buf := logits_buf c;
      status := status c; mu_next := mu_next c |}).

Definition tokenize (text : list byte) (n_max : Z) : list Z * Z :=
  let ids := map val text in
  if Py.len ids <=? n_max then (ids, Py.len ids) else ([], - Py.len ids).

Definition piece (t : Z) : list byte :=
  if (0 <=? t) && (t <? 256) then [byte_of t] else [].

#[export] Instance engine : @Engine IEEE.floats := {|
  llama_context := ctx;
  llama_tokenize := fun text n_max _ _ => tokenize text n_max;
  llama_token_bos := fun _ => 1;
  llama_token_to_piece := piece;
  llama_eval := fun c _ _ _ => (status c, c);
  llama_get_logits := fun c k => nth k (logits_buf c) zero;
  repetition_penalty := fun _ _ _ _ _ _ l => l;
  llama_sample_temperature := fun cs _ => cs;
  llama_sample_top_k := fun cs _ => cs;
  llama_sample_tail_free := fun cs _ => cs;
  llama_sample_typical := fun cs => cs;
  llama_sample_top_p := fun cs _ => cs;
  llama_sample_token := fun c _ => draw c;
  llama_sample_token_mirostat :=
    fun c _ _ _ _ _ => let '(t, c') := draw c in (t, mu_next c, c');
  llama_sample_token_mirostat_v2 :=
    fun c _ _ _ _ => let '(t, c') := draw c in (t, mu_next c, c')
|}.

(** A configuration: no bias, no penalty, and the given temperature,
    mirostat mode, capacity, length cap, anti-prompts and prompt. *)
Definition config (temp : spec_float) (mode n_ctx n_pred : Z)
  (anti : list string) (text : string) : LLMUtils.LLMConfig :=
  {| LLMUtils.nCtx := n_ctx;
     LLMUtils.logitsAll := false;
     LLMUtils.n_keep := -1;
     LLMUtils.n_predict := n_pred;
     LLMUtils.logit_bias := [];
     LLMUtils.frequency_penalty := zero;
     LLMUtils.repeat_penalty := one;
     LLMUtils.presence_penalty := zero;
     LLMUtils.temperature := temp;
     LLMUtils.mirostat := mode;
     LLMUtils.mirostat_tau := one;
     LLMUtils.mirostat_eta := one;
     LLMUtils.top_k := 40;
     LLMUtils.tfs_z := one;
     LLMUtils.top_p := one;
     LLMUtils.antiPrompt := map literal anti;
     LLMUtils.prompt := literal text |}.

(** A freshly initialised model over a vocabulary of [n_vocab] tokens whose
    engine will sample [tokens] and whose every evaluation leaves [logits]
    in the logits buffer. *)
Definition model_with (logits : list spec_float) (cfg : LLMUtils.LLMConfig)
  (n_vocab : Z) (tokens : list Z) : LlamaModel :=
  _init (fun _ => 0) (fun _ _ => zero)
    {| parameters := cfg;
       context := {| script := tokens; logits_buf := logits;
                     status := 0; mu_next := one32 |};
       nVocab := n_vocab; nCtx := LLMUtils.nCtx cfg; EOSToken := 32000;
       pastTokens := 0; inputIds := []; scores := []; trace := [] |}.

(** The same with the logits [1.0, 2.0, 2.0, 1.0]. *)
Definition model : LLMUtils.LLMConfig -> Z -> list Z -> LlamaModel :=
  model_with [one32; two32; two32; one32].

(** The token ids of an ASCII text in the byte-level vocabulary. *)
Definition ids (text : string) : list Z := literal text.

(** A model of capacity 4 whose context is full. *)
Definition full_model : LlamaModel :=
  snd (evaluate [1; 2; 3; 4] 2 (model (config one 0 4 2 [] "ab") 4 [])).

(** A model of capacity 2 over a vocabulary of a single token, after three
    tokens have been evaluated one at a time. *)
Definition single_token_model : LlamaModel :=
  snd (evaluate [0; 0; 0] 1 (model (config one 0 2 2 [] "a") 1 [])).

(** Mirostat sampling on the prompt ["ab"], the engine sampling ["hi!"]. *)
Definition mirostat_model : LlamaModel :=
  model (config one 1 8 1 [] "ab") 4 (ids "hi!").

(** Zero temperature with mirostat mode 2 on a context that holds one
    evaluated token. *)
Definition greedy_model : LlamaModel :=
  snd (evaluate [1] 1 (model (config zero 2 8 4 [] "a") 4 [])).



(** The engine samples ["hijk"], with [n_predict = 2]. *)
Definition hijk_model : LlamaModel :=
  model (config one 0 8 2 [] "ab") 4 (ids "hijk").

(** A configuration with another [n_keep] and another [logit_bias]. *)
Definition keep_and_bias (cfg : LLMUtils.LLMConfig) (keep : Z)
  (bias : list (Z * spec_float)) : LLMUtils.LLMConfig :=
  {| LLMUtils.nCtx := LLMUtils.nCtx cfg;
     LLMUtils.logitsAll := LLMUtils.logitsAll cfg;
     LLMUtils.n_keep := keep;
     LLMUtils.n_predict := LLMUtils.n_predict cfg;
     LLMUtils.logit_bias := bias;
     LLMUtils.frequency_penalty := LLMUtils.frequency_penalty cfg;
     LLMUtils.repeat_penalty := LLMUtils.repeat_penalty cfg;
     LLMUtils.presence_penalty := LLMUtils.presence_penalty cfg;
     LLMUtils.temperature := LLMUtils.temperature cfg;
     LLMUtils.mirostat := LLMUtils.mirostat cfg;
     LLMUtils.mirostat_tau := LLMUtils.mirostat_tau cfg;
     LLMUtils.mirostat_eta := LLMUtils.mirostat_eta cfg;
     LLMUtils.top_k := LLMUtils.top_k cfg;
     LLMUtils.tfs_z := LLMUtils.tfs_z cfg;
     LLMUtils.top_p := LLMUtils.top_p cfg;
     LLMUtils.antiPrompt := LLMUtils.antiPrompt cfg;
     LLMUtils.prompt := LLMUtils.prompt cfg |}.

(** Zero temperature and [n_keep = 0] on a context that holds one
    evaluated token. *)
Definition zero_keep_model : LlamaModel :=
  snd (evaluate [1] 1
         (model (keep_and_bias (config zero 0 8 4 [] "a") 0 []) 4 [])).

(** A prompt of five tokens for a capacity of four: the tokenizer of the
    scripted engine answers [-5]. *)
Definition refused_model : LlamaModel :=
  model (config one 0 4 2 [] "abcde") 4 (ids "hi").

(** A model whose capacity [update] has made negative. *)
Definition negative_capacity_model : LlamaModel :=
  update (config one 0 (-1) 2 [] "ab")
         (model (config one 0 8 2 [] "ab") 4 (ids "hijk")).

(** A capacity of four for the prompt ["ab"], with [n_predict = 5]. *)
Definition small_model : LlamaModel :=
  model (config one 0 4 5 [] "ab") 4 (ids "hijklm").

(** The loop state once ["a"] has been accepted. *)
Definition a_state : loop_state :=
  {| tokens := ids "a";
     tempBytes := list_byte_of_string "a";
     finalString := [];
     incompleteFix := 0 |}.

(** A vocabulary of eight tokens whose logits are all [1.0], with the bias
    [2.0] on token 5, on a context that holds one evaluated token. *)
Definition bias_model : LlamaModel :=
  let cfg := config one 0 8 2 [] "a" in
  snd (evaluate [1] 1
         (model_with (repeat one32 8)
            {| LLMUtils.nCtx := LLMUtils.nCtx cfg;
               LLMUtils.logitsAll := LLMUtils.logitsAll cfg;
               LLMUtils.n_keep := LLMUtils.n_keep cfg;
               LLMUtils.n_predict := LLMUtils.n_predict cfg;
               LLMUtils.logit_bias := [(5, two)];
               LLMUtils.frequency_penalty := LLMUtils.frequency_penalty cfg;
               LLMUtils.repeat_penalty := LLMUtils.repeat_penalty cfg;
               LLMUtils.presence_penalty := LLMUtils.presence_penalty cfg;
               LLMUtils.temperature := LLMUtils.temperature cfg;
               LLMUtils.mirostat := LLMUtils.mirostat cfg;
               LLMUtils.mirostat_tau := LLMUtils.mirostat_tau cfg;
               LLMUtils.mirostat_eta := LLMUtils.mirostat_eta cfg;
               LLMUtils.top_k := LLMUtils.top_k cfg;
               LLMUtils.tfs_z := LLMUtils.tfs_z cfg;
               LLMUtils.top_p := LLMUtils.top_p cfg;
               LLMUtils.antiPrompt := LLMUtils.antiPrompt cfg;
               LLMUtils.prompt := LLMUtils.prompt cfg |}
            8 [])).

(** The engine starts its answer with the three bytes of the euro sign,
    one per token. *)
Definition euro_model (n_pred : Z) : LlamaModel :=
  model (config one 0 16 n_pred [] "a") 4 [226; 130; 172; 33].

(** The engine answers ["Hello World!"], with the anti-prompt ["World"]. *)
Definition hello_model : LlamaModel :=
  model (config one 0 32 20 ["World"%string] "a") 4 (ids "Hello World!").

(** The loop state once ["Hello Worl"] has been accepted. *)
Definition hello_state : loop_state :=
  {| tokens := ids "Hello Worl";
     tempBytes := list_byte_of_string "Hello Worl";
     finalString := [];
     incompleteFix := 0 |}.

(** The loop state once ["ab"] has been accepted. *)
Definition ab_state : loop_state :=
  {| tokens := ids "ab";
     tempBytes := list_byte_of_string "ab";
     finalString := [];
     incompleteFix := 0 |}.

End Scripted.

(** The scripted engine with a repetition penalty that is not the
    identity: the logit of a token that occurs in the window becomes
    [0.0]. *)
Module Penalised.

Import IEEE Utf8 Scripted.

Definition four32 : spec_float := S754_finite false 8388608 (-21).

Definition penalise (window : list Z) (token : Z) (l : spec_float)
  : spec_float :=
  if existsb (Z.eqb token) window then zero else l.

#[local] Instance engine : @Engine IEEE.floats := {|
  llama_context := ctx;
  llama_tokenize := fun text n_max _ _ => tokenize text n_max;
  llama_token_bos := fun _ => 1;
  llama_token_to_piece := piece;
  llama_eval := fun c _ _ _ => (status c, c);
  llama_get_logits := fun c k => nth k (logits_buf c) zero;
  repetition_penalty := fun window _ _ _ _ token l => penalise window token l;
  llama_sample_temperature := fun cs _ => cs;
  llama_sample_top_k := fun cs _ => cs;
  llama_sample_tail_free := fun cs _ => cs;
  llama_sample_typical := fun cs => cs;
  llama_sample_top_p := fun cs _ => cs;
  llama_sample_token := fun c _ => draw c;
  llama_sample_token_mirostat :=
    fun c _ _ _ _ _ => let '(t, c') := draw c in (t, mu_next c, c');
  llama_sample_token_mirostat_v2 :=
    fun c _ _ _ _ => let '(t, c') := draw c in (t, mu_next c, c')
|}.

(** Zero temperature with mirostat mode 2, a window of one token, the
    logits [1.0, 4.0, 2.0, 1.0], the bias [2.0] on tokens 0 and 3, on a
    context that holds the evaluated token 1. The biased row is
    [2.0, 4.0, 2.0, 2.0] and the penalised logits are
    [2.0, 0.0, 2.0, 2.0]. *)
Definition greedy_model : LlamaModel :=
  snd (evaluate [1] 1
         (_init (fun _ => 0) (fun _ _ => zero)
            {| parameters :=
                 keep_and_bias (config zero 2 8 4 [] "a") 1
                               [(0, two); (3, two)];
               context := {| script := [];
                             logits_buf := [one32; four32; two32; one32];
                             status := 0; mu_next := one32 |};
               nVocab := 4; nCtx := 8; EOSToken := 32000;
               pastTokens := 0; inputIds := []; scores := []; trace := [] |})).

End Penalised.

(** ** The rest of [LLMCore.py] and [initMemoryDB.py] *)

Section MoreOfLlamaModel.

Context `{FL : Floats} `{TX : Text} `{EN : @Engine FL}.

(** [reset] *)
Definition reset (heap_ids : nat -> Z) (heap_scores : nat -> nat -> single)
  (self : LlamaModel) : LlamaModel :=
  _init heap_ids heap_scores self.

(** The value of the [return] statement that ends [generate], for the
    state in which the loop was left. *)
Definition returned_text (ls : loop_state) : str :=
  if negb (str_is_empty (finalString ls))
  then finalString ls
  else decode_utf8_ignore (tempBytes ls).

(** The history [self.inputIds[: self.pastTokens]]. *)
Definition history (self : LlamaModel) : list Z :=
  Py.slice_to (inputIds self) (pastTokens self).

(** The logits the engine holds, as [evaluate] reads them for one row. *)
Definition engine_row (self : LlamaModel) : list single :=
  map (llama_get_logits (context self)) (seq 0 (Z.to_nat (nVocab self))).

(** *** The loop of [LlamaLlavaModel.response] *)

(** The state of the loop: the list [tokens] that was handed to the
    generator, [generatedTokens], [tempBytes] and [incompleteFix]. *)
Record llava_state : Type := {
  llava_tokens : list Z;
  generatedTokens : list Z;
  llava_tempBytes : list byte;
  llava_incompleteFix : Z
}.

Definition llava_exitTokens : list Z := [2; 32002; 32001].

(** [t == self.model.EOSToken or t in exitTokens] *)
Definition llava_stop_token (EOSToken t : Z) : bool :=
  (t =? EOSToken) || existsb (Z.eqb t) llava_exitTokens.

Definition llava_start : llava_state :=
  {| llava_tokens := []; generatedTokens := []; llava_tempBytes := [];
     llava_incompleteFix := 0 |}.

(** The body of [for t in self.model.generateTokens(tokens=tokens)]. *)
Definition llava_loop_body (EOSToken n_predict t : Z) (ls : llava_state)
  : branch * llava_state :=
  if llava_stop_token EOSToken t then (StopToken, ls)
  else
    let tokens := llava_tokens ls ++ [t] in
    let generated := generatedTokens ls ++ [t] in
    let tempBytes := llava_tempBytes ls ++ tokenToByte t in
    let incompleteFix := scan_incomplete tempBytes (llava_incompleteFix ls) in
    if 0 <? incompleteFix then
      (Suppressed,
       {| llava_tokens := tokens; generatedTokens := generated;
          llava_tempBytes := tempBytes;
          llava_incompleteFix := incompleteFix - 1 |})
    else if n_predict <? Py.len generated then
      (LengthCap,
       {| llava_tokens := tokens; generatedTokens := generated;
          llava_tempBytes := tempBytes;
          llava_incompleteFix := incompleteFix |})
    else
      (NextToken,
       {| llava_tokens := tokens; generatedTokens := generated;
          llava_tempBytes := tempBytes;
          llava_incompleteFix := incompleteFix |}).

(** The loop run on a given sequence of sampled tokens. *)
Fixpoint llava_consume (EOSToken n_predict : Z) (ts : list Z)
  (ls : llava_state) : option branch * llava_state :=
  match ts with
  | [] => (None, ls)
  | t :: ts' =>
      let '(b, ls') := llava_loop_body EOSToken n_predict t ls in
      if is_break b then (Some b, ls')
      else llava_consume EOSToken n_predict ts' ls'
  end.

(** The text [response] returns once the loop is left. *)
Definition llava_returned_text (ls : llava_state) : str :=
  let finalString := tokensToString (generatedTokens ls) in
  if negb (str_is_empty finalString)
  then finalString
  else decode_utf8_ignore (llava_tempBytes ls).

(** What ties the buffer and [finalString] to the accepted tokens while
    the loop of [generate] runs. *)
Definition in_step (ls : loop_state) : Prop :=
  tempBytes ls = buffered (tokens ls) /\
  str_is_empty (finalString ls) = true.

(** The two loops agree on what they have decoded. *)
Definition same_decoding (ls : loop_state) (lv : llava_state) : Prop :=
  tokens ls = generatedTokens lv /\
  tempBytes ls = llava_tempBytes lv /\
  incompleteFix ls = llava_incompleteFix lv.

End MoreOfLlamaModel.

(** *** [initMemoryDB.py]

    Strings are sequences of code points; a file is the list of its lines
    as [readlines()] returns them; the memory store is an external
    collaborator, and what is modelled is the sequence of [newDBEntry]
    calls a function makes. *)

Module InitMemoryDB.

Definition text : Type := list Z.

(** A call [memDB.newDBEntry(type=..., identifier=..., content=...)]. *)
Record entry : Type := {
  entry_type : string;
  identifier : text;
  content : text
}.

Definition code_points (s : string) : text :=
  map (fun b => Z.of_N (Byte.to_N b)) (list_byte_of_string s).

Definition newline : Z := 10.

(** [a == l[:len(a)]] *)
Fixpoint text_starts_with (a l : text) : bool :=
  match a, l with
  | [], _ => true
  | _ :: _, [] => false
  | x :: a', y :: l' => (x =? y) && text_starts_with a' l'
  end.

(** [l.find(a) != -1] *)
Fixpoint text_contains (a l : text) : bool :=
  text_starts_with a l
  || match l with
     | [] => false
     | _ :: l' => text_contains a l'
     end.

(** [s.replace("\n", "")] *)
Definition strip_newlines (s : text) : text :=
  filter (fun c => negb (c =? newline)) s.

(** [s != ''] *)
Definition nonempty (s : text) : bool :=
  match s with [] => false | _ => true end.

Definition sysPromptSplitter : text := code_points "-=sysPromptSplitter=-".
Definition charInfoSplitter : text := code_points "-=charInfoSplitter=-".
Definition charInfoStart : text := code_points "-=charInfoStart=-".

(** The loop of [initSysPrompts] over the lines, from the state
    [(systemPrompts, curPrompt)]. *)
Fixpoint sysPrompts_loop (lines : list text) (systemPrompts : list text)
  (curPrompt : text) : list text * text :=
  match lines with
  | [] => (systemPrompts, curPrompt)
  | line :: lines' =>
      if text_contains sysPromptSplitter line
      then sysPrompts_loop lines'
             (systemPrompts ++ [strip_newlines curPrompt]) []
      else sysPrompts_loop lines' systemPrompts (curPrompt ++ line)
  end.

(** A line on which [line.find("-=sysPromptSplitter=-")] is [-1]. *)
Definition no_splitter (line : text) : Prop :=
  text_contains sysPromptSplitter line = false.

(** The list [systemPrompts] when the file has been read. *)
Definition systemPrompts_of (lines : list text) : list text :=
  let '(systemPrompts, curPrompt) := sysPrompts_loop lines [] [] in
  if nonempty curPrompt
  then systemPrompts ++ [strip_newlines curPrompt]
  else systemPrompts.

(** [initSysPrompts]: the entries it stores. *)
Definition initSysPrompts (lines : list text) : list entry :=
  map (fun prompt =>
         {| entry_type := "systemPrompt";
            identifier := code_points "generic";
            content := prompt |})
      (systemPrompts_of lines).

(** The state of the loop of [initCharacterMemory]. *)
Record char_state : Type := {
  characterInformation : list text;
  characterNames : list text;
  curInformation : text;
  curCharacter : text
}.

Definition char_start : char_state :=
  {| characterInformation := []; characterNames := [];
     curInformation := []; curCharacter := [] |}.

Definition char_step (st : char_state) (line : text) : char_state :=
  if text_contains charInfoSplitter line then
    {| characterInformation :=
         characterInformation st ++ [strip_newlines (curInformation st)];
       characterNames :=
         characterNames st ++ [strip_newlines (curCharacter st)];
       curInformation := []; curCharacter := [] |}
  else if text_contains charInfoStart line then
    {| characterInformation := characterInformation st;
       characterNames := characterNames st;
       curInformation := curInformation st;
       curCharacter := Py.slice_from line 17 |}
  else
    {| characterInformation := characterInformation st;
       characterNames := characterNames st;
       curInformation := curInformation st ++ line;
       curCharacter := curCharacter st |}.

(** The two lists when the file has been read. *)
Definition char_lists (lines : list text) : list text * list text :=
  let st := fold_left char_step lines char_start in
  if nonempty (curInformation st)
  then (characterInformation st ++ [strip_newlines (curInformation st)],
        characterNames st ++ [strip_newlines (curCharacter st)])
  else (characterInformation st, characterNames st).

Definition text_eqb (a b : text) : bool :=
  (length a =? length b)%nat && text_starts_with a b.

(** [names.index(name)], [None] standing for [ValueError]. *)
Fixpoint index_of (name : text) (names : list text) : option nat :=
  match names with
  | [] => None
  | n :: names' =>
      if text_eqb n name then Some 0%nat
      else option_map S (index_of name names')
  end.

(** [initCharacterMemory]: the entries it stores, or [None] when
    [characterInformation[characterNames.index(name)]] raises. *)
Fixpoint store_characters (infos names todo : list text)
  : option (list entry) :=
  match todo with
  | [] => Some []
  | name :: todo' =>
      match index_of name names with
      | None => None
      | Some k =>
          match nth_error infos k, store_characters infos names todo' with
          | Some info, Some rest =>
              Some ({| entry_type := "characterinformation";
                       identifier := name; content := info |} :: rest)
          | _, _ => None
          end
      end
  end.

Definition initCharacterMemory (lines : list text) : option (list entry) :=
  let '(infos, names) := char_lists lines in
  store_characters infos names names.

End InitMemoryDB.

(** ** More states of the scripted engine *)

Module MoreScripted.

Import IEEE Utf8 Scripted.

(** A fresh model whose engine reports status 1 on every evaluation. *)
Definition failing_model : LlamaModel :=
  set_context (model (config one 0 8 2 [] "ab") 4 [])
    {| script := []; logits_buf := [one32; two32; two32; one32];
       status := 1; mu_next := one32 |}.

(** One evaluated token, with the given [n_keep] and [logit_bias], over
    a vocabulary of eight tokens. *)
Definition tuned_model (keep : Z) (bias : list (Z * spec_float))
  : LlamaModel :=
  snd (evaluate [1] 1
         (model_with (repeat one32 8)
            (keep_and_bias (config one 0 8 2 [] "a") keep bias) 8 [])).

(** The loop state once ["ab"] and the lead byte [0xC3] have been
    accepted, before the countdown is set. *)
Definition lead_state : loop_state :=
  {| tokens := [97; 98; 195];
     tempBytes := [x61; x62; xc3];
     finalString := [];
     incompleteFix := 0 |}.

(** A line of a text file, with its line feed. *)
Definition line (s : string) : InitMemoryDB.text :=
  InitMemoryDB.code_points s ++ [InitMemoryDB.newline].

(** A file of system prompts: two prompts of two and one lines. *)
Definition prompt_block : list InitMemoryDB.text :=
  [line "You are Melba."; line "You like toast."].

Definition prompt_file : list InitMemoryDB.text :=
  prompt_block ++ line "-=sysPromptSplitter=-" :: [line "Be brief."].


End MoreScripted.

(** * Properties *)

Unset Implicit Arguments.

(** ** Slices, ranges and array assignment *)

Module PyFacts.

Import Py.

Lemma bound_range (n i : Z) : 0 <= n -> 0 <= bound n i <= n.
Proof. unfold bound. destruct (i <? 0) eqn:E; lia. Qed.

Lemma len_nonneg {A} (l : list A) : 0 <= len l.
Proof. unfold len. lia. Qed.

Lemma len_app {A} (l1 l2 : list A) : len (l1 ++ l2) = len l1 + len l2.
Proof. unfold len. rewrite length_app. lia. Qed.

Lemma length_slice {A} (l : list A) (lo hi : Z) :
  Z.of_nat (length (slice l lo hi))
  = Z.max 0 (bound (len l) hi - bound (len l) lo).
Proof.
  unfold slice.
  pose proof (bound_range (len l) lo (len_nonneg l)).
  pose proof (bound_range (len l) hi (len_nonneg l)).
  rewrite length_firstn, length_skipn. unfold len in *. lia.
Qed.

Lemma len_slice {A} (l : list A) (lo hi : Z) :
  len (slice l lo hi) = Z.max 0 (bound (len l) hi - bound (len l) lo).
Proof. apply length_slice. Qed.

Lemma len_map_seq {A} (f : nat -> A) (n : Z) :
  len (map f (seq 0 (Z.to_nat n))) = Z.max 0 n.
Proof. unfold len. rewrite length_map, length_seq. lia. Qed.

Lemma len_slice_to {A} (l : list A) (hi : Z) :
  0 <= hi -> len (slice_to l hi) = Z.min hi (len l).
Proof.
  intros Hhi. unfold slice_to, len at 1. rewrite length_slice.
  unfold bound. pose proof (len_nonneg l).
  destruct (hi <? 0) eqn:E; [lia|]. simpl. lia.
Qed.

Lemma slice_inside {A} (l : list A) (lo hi : Z) :
  0 <= lo <= hi -> hi <= len l ->
  slice l lo hi = firstn (Z.to_nat (hi - lo)) (skipn (Z.to_nat lo) l).
Proof.
  intros H1 H2. unfold slice, bound.
  destruct (lo <? 0) eqn:E1; [lia|]. destruct (hi <? 0) eqn:E2; [lia|].
  rewrite !Z.min_l by lia. reflexivity.
Qed.

Lemma range_fuel_bounds fuel : forall i stop step x,
  0 < step -> In x (range_fuel fuel i stop step) -> i <= x < stop.
Proof.
  induction fuel as [|fuel IH]; intros i stop step x Hs Hin; simpl in Hin.
  - contradiction.
  - destruct (i <? stop) eqn:E; [|contradiction].
    destruct Hin as [<-|Hin]; [lia|].
    apply IH in Hin; lia.
Qed.

Lemma range_bounds start stop step x :
  0 < step -> In x (range start stop step) -> start <= x < stop.
Proof. unfold range. apply range_fuel_bounds. Qed.

Lemma broadcast_length {A} (n : nat) (src vals : list A) :
  broadcast n src = Some vals -> length vals = n.
Proof.
  unfold broadcast. destruct (Nat.eqb_spec (length src) n) as [E|E].
  - intros [= <-]. exact E.
  - destruct src as [|x [|y src]]; try discriminate.
    intros [= <-]. apply repeat_length.
Qed.

Lemma broadcast_long {A} (n : nat) (src vals : list A) :
  broadcast n src = Some vals -> (2 <= length src)%nat -> length src = n.
Proof.
  unfold broadcast. destruct (Nat.eqb_spec (length src) n) as [E|E].
  - intros _ _. exact E.
  - destruct src as [|x [|y src]]; simpl; try discriminate. lia.
Qed.

Lemma set_slice_length {A} (a a' : list A) (lo hi : Z) (src : list A) :
  set_slice a lo hi src = Some a' -> length a' = length a.
Proof.
  unfold set_slice.
  destruct (broadcast _ src) as [vals|] eqn:B; [|discriminate].
  intros [= <-]. apply broadcast_length in B.
  pose proof (length_slice a lo hi) as L.
  pose proof (bound_range (len a) lo (len_nonneg a)).
  pose proof (bound_range (len a) hi (len_nonneg a)).
  rewrite !length_app, length_firstn, length_skipn, B. unfold len in *. lia.
Qed.

Lemma reshape_like_shape {A} (rows : list (list A)) : forall flat,
  length flat = length (concat rows) ->
  map (@length A) (reshape_like rows flat) = map (@length A) rows.
Proof.
  induction rows as [|r rows IH]; intros flat H; simpl in *.
  - reflexivity.
  - rewrite length_app in H. f_equal.
    + rewrite length_firstn. lia.
    + apply IH. rewrite length_skipn. lia.
Qed.

Lemma concat_uniform {A} (n : Z) (rows : list (list A)) :
  Forall (fun row => len row = n) rows ->
  len (concat rows) = len rows * n.
Proof.
  induction 1 as [|r rows Hr _ IH]; cbn [concat].
  - reflexivity.
  - rewrite len_app, IH, Hr. unfold len. cbn [length].
    rewrite Nat2Z.inj_succ. ring.
Qed.

Lemma Forall_slice {A} (P : A -> Prop) (l : list A) (lo hi : Z) :
  Forall P l -> Forall P (slice l lo hi).
Proof.
  intros H. unfold slice.
  set (n := Z.to_nat (bound (len l) lo)).
  rewrite <- (firstn_skipn n l) in H. apply Forall_app in H as [_ H].
  set (k := Z.to_nat _).
  rewrite <- (firstn_skipn k (skipn n l)) in H.
  apply Forall_app in H as [H _]. exact H.
Qed.

Lemma skipn_length_firstn {A} (k : nat) (l : list A) :
  skipn (length (firstn k l)) l = skipn k l.
Proof.
  rewrite length_firstn. destruct (Nat.le_ge_cases k (length l)).
  - now rewrite Nat.min_l.
  - rewrite Nat.min_r by assumption.
    now rewrite skipn_all, skipn_all2.
Qed.

Lemma set_rows_shape {A} (m m' : list (list A)) (lo hi : Z) (src : list A) :
  set_rows m lo hi src = Some m' ->
  map (@length A) m' = map (@length A) m.
Proof.
  unfold set_rows.
  destruct (broadcast _ src) as [vals|] eqn:B; [|discriminate].
  intros [= <-]. apply broadcast_length in B.
  rewrite !map_app, (reshape_like_shape _ _ B).
  unfold slice. set (n := Z.to_nat (bound (len m) lo)).
  set (k := Z.to_nat _).
  rewrite Nat.add_comm, <- skipn_skipn, skipn_length_firstn.
  rewrite <- !map_app, firstn_skipn, firstn_skipn. reflexivity.
Qed.

Lemma same_shape_uniform {A} (n : Z) (m : list (list A)) : forall m',
  map (@length A) m' = map (@length A) m ->
  Forall (fun row => len row = n) m -> Forall (fun row => len row = n) m'.
Proof.
  induction m as [|r m IH]; intros [|r' m'] E H; try discriminate.
  - constructor.
  - injection E as E1 E2. inversion H; subst. constructor.
    + unfold len in *. congruence.
    + now apply IH.
Qed.

Lemma set_rows_fits {A} (n : Z) (m m' : list (list A)) (lo hi : Z)
  (src : list A) :
  Forall (fun row => len row = n) m ->
  set_rows m lo hi src = Some m' -> (2 <= length src)%nat ->
  len src = len (slice m lo hi) * n.
Proof.
  intros Hm. unfold set_rows.
  destruct (broadcast _ src) as [vals|] eqn:B; [|discriminate].
  intros _ Hlong. apply broadcast_long in B; [|assumption].
  rewrite <- (concat_uniform n) by now apply Forall_slice.
  unfold len. now rewrite B.
Qed.

End PyFacts.

(** ** The context tracker: [evaluate] *)

Section EvaluateProperties.

Context `{FL : Floats} `{TX : Text} `{EN : @Engine FL}.

Import Py PyFacts.

Lemma chunk_at_len (tokens : list Z) (batch i : Z) :
  0 < batch -> 0 <= i < len tokens ->
  1 <= len (chunk_at tokens batch i) <= batch.
Proof.
  intros Hb Hi. unfold chunk_at, len at 1 3. rewrite length_slice.
  unfold bound.
  destruct (i <? 0) eqn:E1; [lia|].
  destruct (Z.min (len tokens) (i + batch) <? 0) eqn:E2; lia.
Qed.

(** What one iteration does, whichever way it ends. *)
Lemma evaluate_chunk_effect (tokens : list Z) (batch i : Z)
  (self self' : LlamaModel) (r : result unit) :
  evaluate_chunk tokens batch i self = (r, self') ->
  let c := chunk_at tokens batch i in
  parameters self' = parameters self /\ nCtx self' = nCtx self /\
  nVocab self' = nVocab self /\ EOSToken self' = EOSToken self /\
  len (inputIds self') = len (inputIds self) /\
  trace self' =
    trace self
    ++ [Eval c (Z.min (nCtx self - len c)
                      (len (slice_to (inputIds self) (pastTokens self))))] /\
  match r with
  | Ok _ =>
      pastTokens self' = pastTokens self + len c /\
      set_rows (scores self)
        (pastTokens self
         + (if LLMUtils.logitsAll (parameters self) then 0 else len c - 1))
        (pastTokens self + len c)
        (map (llama_get_logits (context self'))
             (seq 0 (Z.to_nat ((if LLMUtils.logitsAll (parameters self)
                                then len c else 1) * nVocab self))))
      = Some (scores self')
  | Raise e =>
      pastTokens self' = pastTokens self /\ scores self' = scores self /\
      (e = ValueError \/ e = RuntimeError "evaluate")
  end.
Proof.
  unfold evaluate_chunk, chunk_at. cbv zeta.
  destruct (llama_eval _ _ _ _) as [evalCode ctx].
  destruct (negb (evalCode =? 0)).
  { intros [= <- <-]. cbn. repeat split; auto. }
  cbn [record set_context inputIds pastTokens parameters scores nVocab context].
  destruct (set_slice _ _ _ _) as [ids|] eqn:Hids.
  2:{ intros [= <- <-]. cbn. repeat split; auto. }
  destruct (set_rows _ _ _ _) as [sc|] eqn:Hsc.
  2:{ intros [= <- <-]. cbn. repeat split; auto.
      unfold len. f_equal. eapply set_slice_length; eauto. }
  intros [= <- <-]. cbn. repeat split; auto.
  unfold len. f_equal. eapply set_slice_length; eauto.
Qed.

(** One iteration keeps the arrays in shape and the counter within the
    capacity: a chunk that does not fit fails on the array assignment. *)
Lemma evaluate_chunk_well_formed (tokens : list Z) (batch i : Z)
  (self self' : LlamaModel) (r : result unit) :
  0 < batch -> 0 <= i < len tokens -> well_formed self ->
  evaluate_chunk tokens batch i self = (r, self') -> well_formed self'.
Proof.
  intros Hb Hi (W1 & W2 & W3 & W4 & W5) H.
  pose proof (chunk_at_len tokens batch i Hb Hi) as Hc.
  apply evaluate_chunk_effect in H. cbv zeta in H.
  destruct H as (Hp & Hn & Hv & _ & Hids & _ & Hr).
  unfold well_formed. rewrite Hn, Hv, Hids.
  destruct r as [[]|e].
  - destruct Hr as [Hpast Hset].
    pose proof (set_rows_shape _ _ _ _ _ Hset) as Hshape.
    assert (Hlen : len (scores self') = len (scores self)).
    { unfold len. f_equal.
      rewrite <- (length_map (@length single) (scores self')), Hshape.
      apply length_map. }
    pose proof (set_rows_fits (nVocab self) _ _ _ _ _ W3 Hset) as Hfit.
    rewrite len_map_seq, len_slice, W2, length_map, length_seq in Hfit.
    unfold bound in Hfit.
    match type of Hfit with
    | ?P -> _ => assert (Hlong : P)
                   by (destruct (LLMUtils.logitsAll (parameters self)); nia)
    end.
    specialize (Hfit Hlong).
    repeat split; try lia.
    + eapply same_shape_uniform; eauto.
    + rewrite Hpast.
      destruct (LLMUtils.logitsAll (parameters self));
        repeat match type of Hfit with
               | context [?a <? 0] => destruct (Z.ltb_spec a 0); try lia
               end; nia.
  - destruct Hr as (Hpast & Hsc & _). rewrite Hpast, Hsc. repeat split; auto; lia.
Qed.

(** The loop of [evaluate] over a list of chunk starts. *)
Lemma for_each_chunk_effect (tokens : list Z) (batch : Z) :
  0 < batch ->
  forall (starts : list Z) (self self' : LlamaModel) (r : result unit),
    Forall (fun i => 0 <= i < len tokens) starts ->
    len (inputIds self) = nCtx self -> 0 <= pastTokens self ->
    for_each starts (evaluate_chunk tokens batch) self = (r, self') ->
    let cs := map (chunk_at tokens batch) starts in
    parameters self' = parameters self /\ nCtx self' = nCtx self /\
    nVocab self' = nVocab self /\ EOSToken self' = EOSToken self /\
    len (inputIds self') = len (inputIds self) /\
    pastTokens self <= pastTokens self' /\
    exists k,
      (k <= length starts)%nat /\
      trace self' =
        trace self ++ firstn k (eval_calls (nCtx self) (pastTokens self) cs) /\
      match r with
      | Ok _ =>
          k = length starts /\
          pastTokens self' = pastTokens self + len (concat cs)
      | Raise e =>
          (1 <= k)%nat /\ (e = ValueError \/ e = RuntimeError "evaluate")
      end.
Proof.
  intros Hb starts.
  induction starts as [|i starts IH]; intros self self' r Hin Hids Hpast H.
  - cbn in H. injection H as <- <-. cbn. repeat split; auto; try lia.
    exists 0%nat. cbn. rewrite app_nil_r. repeat split; auto; lia.
  - cbn [for_each] in H. unfold bind in H.
    destruct (evaluate_chunk tokens batch i self) as [r1 self1] eqn:H1.
    inversion Hin as [|? ? Hi Hin']; subst.
    pose proof (chunk_at_len tokens batch i Hb Hi) as Hc.
    apply evaluate_chunk_effect in H1. cbv zeta in H1.
    destruct H1 as (Hp1 & Hn1 & Hv1 & He1 & Hids1 & Htr1 & Hr1).
    rewrite len_slice_to in Htr1 by assumption.
    replace (Z.min (nCtx self - len (chunk_at tokens batch i))
                   (Z.min (pastTokens self) (len (inputIds self))))
      with (Z.min (nCtx self - len (chunk_at tokens batch i))
                  (pastTokens self)) in Htr1 by lia.
    destruct r1 as [[]|e1].
    + destruct Hr1 as [Hpast1 _].
      apply IH in H; [|assumption|lia|lia]. cbv zeta in H.
      destruct H as (Hp & Hn & Hv & He & Hids' & Hle & k & Hk & Htr & Hr).
      cbn [map]. repeat split; try congruence; try lia.
      exists (S k). split; [cbn; lia|]. split.
      * rewrite Htr, Htr1, Hn1, Hpast1, <- app_assoc. reflexivity.
      * destruct r as [[]|e].
        -- destruct Hr as [-> Hr]. split; [reflexivity|].
           cbn [concat]. rewrite len_app. lia.
        -- destruct Hr as [Hk1 He']. split; [lia|assumption].
    + injection H as <- <-. destruct Hr1 as (Hpast1 & _ & He1').
      cbn [map]. repeat split; try congruence; try lia.
      exists 1%nat. split; [cbn; lia|]. split.
      * rewrite Htr1. reflexivity.
      * split; [lia|assumption].
Qed.

Lemma for_each_chunk_well_formed (tokens : list Z) (batch : Z) :
  0 < batch ->
  forall (starts : list Z) (self self' : LlamaModel) (r : result unit),
    Forall (fun i => 0 <= i < len tokens) starts -> well_formed self ->
    for_each starts (evaluate_chunk tokens batch) self = (r, self') ->
    well_formed self'.
Proof.
  intros Hb starts.
  induction starts as [|i starts IH]; intros self self' r Hin Hwf H.
  - cbn in H. now injection H as <- <-.
  - cbn [for_each] in H. unfold bind in H.
    destruct (evaluate_chunk tokens batch i self) as [r1 self1] eqn:H1.
    inversion Hin as [|? ? Hi Hin']; subst.
    apply evaluate_chunk_well_formed in H1; try assumption.
    destruct r1 as [[]|e1].
    + eapply IH; eauto.
    + now injection H as <- <-.
Qed.

End EvaluateProperties.

(** ** The sampler: bias pass, strategy selection *)

Section SamplingProperties.

Context `{FL : Floats} `{TX : Text} `{EN : @Engine FL}.

Import Py PyFacts.

Lemma update_length {A} (l : list A) : forall k v,
  length (update l k v) = length l.
Proof.
  induction l as [|x l IH]; intros [|k] v; cbn; auto.
Qed.

Lemma nth_update_same {A} (l : list A) : forall k v d,
  (k < length l)%nat -> nth k (update l k v) d = v.
Proof.
  induction l as [|x l IH]; intros [|k] v d H; cbn in *; try lia; auto.
  apply IH. lia.
Qed.

Lemma nth_update_other {A} (l : list A) : forall k j v d,
  k <> j -> nth j (update l k v) d = nth j l d.
Proof.
  induction l as [|x l IH]; intros [|k] [|j] v d H; cbn; auto;
    try contradiction.
Qed.

Lemma update_shape {A} (m : list (list A)) : forall k row,
  length row = length (nth k m []) ->
  map (@length A) (update m k row) = map (@length A) m.
Proof.
  induction m as [|r m IH]; intros [|k] row H; cbn in *; auto.
  - now rewrite H.
  - now rewrite IH.
Qed.


Lemma bias_row_length (row row' : list single) (token : Z) (bias : pyfloat) :
  bias_row row token bias = Some row' -> length row' = length row.
Proof.
  unfold bias_row. destruct (index _ _); [|discriminate].
  intros [= <-]. apply update_length.
Qed.

Lemma apply_logit_bias_length (items : list (Z * pyfloat)) :
  forall row, length (fst (apply_logit_bias row items)) = length row.
Proof.
  induction items as [|[token bias] items IH]; intros row; cbn; auto.
  destruct (bias_row row token bias) as [row'|] eqn:E; cbn; auto.
  rewrite IH. eapply bias_row_length; eauto.
Qed.


(** The first half of a sampling step only rewrites the latest row of
    [scores], keeping its length. *)
Lemma prepare_candidates_effect (self self' : LlamaModel)
  (r : result (list llama_token_data)) :
  prepare_candidates self = (r, self') ->
  parameters self' = parameters self /\ context self' = context self /\
  nCtx self' = nCtx self /\ nVocab self' = nVocab self /\
  EOSToken self' = EOSToken self /\ pastTokens self' = pastTokens self /\
  inputIds self' = inputIds self /\ trace self' = trace self /\
  map (@length single) (scores self') = map (@length single) (scores self).
Proof.
  unfold prepare_candidates. cbv zeta.
  destruct (ctypes_array _ _) as [lastN|e].
  2:{ intros [= <- <-]. repeat split; auto. }
  destruct (logits_view self) as [row|].
  2:{ intros [= <- <-]. repeat split; auto. }
  destruct (apply_logit_bias _ _) as [logits ok] eqn:Hbias.
  assert (Hshape :
    map (@length single) (update (scores self) row logits)
    = map (@length single) (scores self)).
  { apply update_shape. replace logits with (fst (apply_logit_bias
      (nth row (scores self) []) (LLMUtils.logit_bias (parameters self))))
      by now rewrite Hbias.
    apply apply_logit_bias_length. }
  destruct (negb ok).
  { intros [= <- <-]. cbn. repeat split; auto. }
  cbn [set_scores nVocab].
  destruct (fill_candidates _ _).
  - intros [= <- <-]. cbn. repeat split; auto.
  - intros [= <- <-]. cbn. repeat split; auto.
Qed.

(** The second half draws exactly one token, through exactly one call of
    the engine, and a mirostat call is handed a fresh
    [c_float(2.0 * mirostat_tau)]. *)
Lemma select_token_effect (candidates : list llama_token_data)
  (self self' : LlamaModel) (r : result Z) :
  select_token candidates self = (r, self') ->
  parameters self' = parameters self /\
  nCtx self' = nCtx self /\ nVocab self' = nVocab self /\
  EOSToken self' = EOSToken self /\ pastTokens self' = pastTokens self /\
  inputIds self' = inputIds self /\ scores self' = scores self /\
  exists t c, r = Ok t /\ trace self' = trace self ++ [c] /\
              mu_fresh (parameters self) c.
Proof.
  unfold select_token. cbv zeta.
  destruct (float_is_zero _).
  { intros [= <- <-]. cbn. repeat split; auto.
    exists (llama_sample_token_greedy candidates), SampleGreedy.
    cbn. auto. }
  destruct (_ =? 1).
  { destruct (llama_sample_token_mirostat _ _ _ _ _ _) as [[t mu] ctx].
    intros [= <- <-]. cbn. repeat split; auto.
    eexists _, (SampleMirostat 1 _ mu). cbn. auto. }
  destruct (_ =? 2).
  { destruct (llama_sample_token_mirostat_v2 _ _ _ _ _) as [[t mu] ctx].
    intros [= <- <-]. cbn. repeat split; auto.
    eexists _, (SampleMirostat 2 _ mu). cbn. auto. }
  destruct (llama_sample_token _ _) as [t ctx].
  intros [= <- <-]. cbn. repeat split; auto.
  exists t, SampleToken. cbn. auto.
Qed.

Lemma sampleTokenWithModel_effect (self self' : LlamaModel) (r : result Z) :
  sampleTokenWithModel self = (r, self') ->
  parameters self' = parameters self /\
  nCtx self' = nCtx self /\ nVocab self' = nVocab self /\
  EOSToken self' = EOSToken self /\ pastTokens self' = pastTokens self /\
  inputIds self' = inputIds self /\
  map (@length single) (scores self') = map (@length single) (scores self) /\
  exists new, trace self' = trace self ++ new /\
              Forall (mu_fresh (parameters self)) new.
Proof.
  unfold sampleTokenWithModel, bind.
  destruct (prepare_candidates self) as [[cands|e] self1] eqn:H1;
    apply prepare_candidates_effect in H1;
    destruct H1 as (Hp & _ & Hn & Hv & He & Hpast & Hids & Htr & Hsc).
  - intros H2. apply select_token_effect in H2.
    destruct H2 as (Hp2 & Hn2 & Hv2 & He2 & Hpast2 & Hids2 & Hsc2
                    & t & c & _ & Htr2 & Hmu).
    repeat split; try congruence.
    exists [c]. split; [congruence|]. constructor; [|constructor].
    now rewrite <- Hp.
  - intros [= <- <-]. repeat split; auto.
    exists []. rewrite app_nil_r. split; [assumption|constructor].
Qed.

Lemma sampleTokenWithModel_well_formed (self self' : LlamaModel)
  (r : result Z) :
  well_formed self -> sampleTokenWithModel self = (r, self') ->
  well_formed self'.
Proof.
  intros (W1 & W2 & W3 & W4 & W5) H.
  apply sampleTokenWithModel_effect in H.
  destruct H as (_ & Hn & Hv & _ & Hpast & Hids & Hsc & _).
  unfold well_formed. rewrite Hn, Hv, Hpast, Hids.
  repeat split; auto; try lia.
  - unfold len. rewrite <- (length_map (@length single) (scores self')), Hsc.
    rewrite length_map. exact W2.
  - eapply same_shape_uniform; eauto.
Qed.

(** The scan of the greedy sampler, started on [best] with [pre] already
    seen, ends on the first largest element. *)
Lemma greedy_scan (cs : list llama_token_data) :
  forall (pre l1 l2 : list llama_token_data) (best : llama_token_data),
    pre = l1 ++ best :: l2 ->
    ordered_on (map logit (pre ++ cs)) ->
    Forall (fun x => single_lt (logit x) (logit best) = true) l1 ->
    Forall (fun x => single_lt (logit best) (logit x) = false) l2 ->
    exists l1' l2',
      let top :=
        fold_left
          (fun best c' =>
             if single_lt (logit best) (logit c') then c' else best)
          cs best in
      pre ++ cs = l1' ++ top :: l2' /\
      Forall (fun x => single_lt (logit x) (logit top) = true) l1' /\
      Forall (fun x => single_lt (logit top) (logit x) = false) l2'.
Proof.
  induction cs as [|y cs IH]; intros pre l1 l2 best Hpre Hord H1 H2.
  - exists l1, l2. cbn. rewrite app_nil_r. auto.
  - cbn [fold_left].
    replace (pre ++ y :: cs) with ((pre ++ [y]) ++ cs) in *
      by (rewrite <- app_assoc; reflexivity).
    assert (Hin : forall x, In x (pre ++ [y]) ->
                            In (logit x) (map logit ((pre ++ [y]) ++ cs))).
    { intros x Hx. apply in_map. apply in_or_app. now left. }
    assert (Hbest : In best (pre ++ [y])).
    { subst pre. apply in_or_app. left. apply in_or_app. right. now left. }
    assert (Hy : In y (pre ++ [y])).
    { apply in_or_app. right. now left. }
    destruct (single_lt (logit best) (logit y)) eqn:E.
    + apply (IH (pre ++ [y]) pre [] y);
        [reflexivity | assumption | | constructor].
      subst pre. apply Forall_app. split; [|constructor; [exact E|]].
        -- rewrite Forall_forall in H1 |- *. intros x Hx.
           assert (Hx' : In x ((l1 ++ best :: l2) ++ [y])).
           { apply in_or_app. left. apply in_or_app. now left. }
           destruct (Hord _ _ (logit y) (Hin _ Hx') (Hin _ Hbest)
                       (Hin _ Hy)) as [_ Hxy].
           destruct (Hxy (H1 _ Hx)) as [Htr _]. now apply Htr.
        -- rewrite Forall_forall in H2 |- *. intros x Hx.
           assert (Hx' : In x ((l1 ++ best :: l2) ++ [y])).
           { apply in_or_app. left. apply in_or_app. right. now right. }
           destruct (Hord _ _ (logit x) (Hin _ Hbest) (Hin _ Hy)
                       (Hin _ Hx')) as [_ Hby].
           destruct (Hby E) as [_ [Hc|Hc]]; [|exact Hc].
           rewrite (H2 _ Hx) in Hc. discriminate.
    + apply (IH (pre ++ [y]) l1 (l2 ++ [y]) best);
        [ | assumption | assumption | ].
      * subst pre. rewrite <- app_assoc. reflexivity.
      * apply Forall_app. split; [assumption|]. constructor; [exact E|].
        constructor.
Qed.

Lemma length_enumerate_from {A} (l : list A) : forall k,
  length (enumerate_from k l) = length l.
Proof.
  induction l as [|x l IH]; intros k; cbn; [reflexivity|].
  now rewrite IH.
Qed.

Lemma enumerate_from_nth {A} (l : list A) : forall k i,
  nth_error (enumerate_from k l) i
  = option_map (fun x => (k + Z.of_nat i, x)) (nth_error l i).
Proof.
  induction l as [|x l IH]; intros k [|i]; cbn [enumerate_from nth_error
    option_map]; auto.
  - do 2 f_equal. lia.
  - rewrite IH. destruct (nth_error l i); cbn; auto. do 2 f_equal. lia.
Qed.

(** The candidates of a sampling step are numbered by their position. *)
Lemma prepare_candidates_ids (self self' : LlamaModel)
  (candidates : list llama_token_data) :
  prepare_candidates self = (Ok candidates, self') ->
  forall k c, nth_error candidates k = Some c -> id c = Z.of_nat k.
Proof.
  unfold prepare_candidates. cbv zeta.
  destruct (ctypes_array _ _) as [lastN|e]; [|discriminate].
  destruct (logits_view self) as [row|]; [|discriminate].
  destruct (apply_logit_bias _ _) as [logits ok].
  destruct (negb ok); [discriminate|].
  cbn [set_scores nVocab parameters].
  destruct (fill_candidates _ _) as [cs|] eqn:F; [|discriminate].
  intros [= <- _] k c. rewrite nth_error_map.
  unfold fill_candidates in F.
  destruct (broadcast _ _) as [ls|]; [|discriminate].
  injection F as <-. rewrite nth_error_map. unfold enumerate.
  rewrite enumerate_from_nth.
  destruct (nth_error ls k); cbn; [|discriminate].
  intros [= <-]. cbn. lia.
Qed.

(** The first half of a sampling step does not read the mirostat mode,
    [top_k] or [top_p]. *)
Lemma prepare_candidates_strategy (self : LlamaModel) (mode k : Z)
  (top : pyfloat) :
  prepare_candidates
    (set_parameters self (with_strategy (parameters self) mode k top))
  = (fst (prepare_candidates self),
     set_parameters (snd (prepare_candidates self))
                    (with_strategy (parameters self) mode k top)).
Proof.
  unfold prepare_candidates. cbv zeta.
  cbn [set_parameters with_strategy parameters nCtx inputIds pastTokens
       LLMUtils.n_keep LLMUtils.logit_bias LLMUtils.frequency_penalty
       LLMUtils.repeat_penalty LLMUtils.presence_penalty].
  destruct (ctypes_array _ _) as [lastN|e]; [|reflexivity].
  unfold logits_view.
  cbn [set_parameters with_strategy parameters scores pastTokens].
  destruct (slice_to (scores self) (pastTokens self)); [reflexivity|].
  destruct (apply_logit_bias _ _) as [logits ok].
  destruct (negb ok); [reflexivity|].
  cbn [set_scores nVocab set_parameters scores].
  destruct (fill_candidates _ _); reflexivity.
Qed.

(** A greedy step on given candidates: the first largest logit wins. *)
Lemma greedy_from_candidates (self self1 : LlamaModel)
  (candidates : list llama_token_data) :
  float_is_zero (LLMUtils.temperature (parameters self)) = true ->
  prepare_candidates self = (Ok candidates, self1) ->
  candidates <> [] ->
  ordered_on (map logit candidates) ->
  exists t best,
    sampleTokenWithModel self = (Ok t, record self1 SampleGreedy) /\
    (forall mode k top,
       fst (sampleTokenWithModel
              (set_parameters self
                 (with_strategy (parameters self) mode k top)))
       = Ok t) /\
    0 <= t /\
    nth_error candidates (Z.to_nat t) = Some best /\ id best = t /\
    (forall c, In c candidates -> single_lt (logit best) (logit c) = false) /\
    (forall j c, (j < Z.to_nat t)%nat -> nth_error candidates j = Some c ->
                 single_lt (logit c) (logit best) = true).
Proof.
  intros Hzero Hprep Hne Hord.
  destruct candidates as [|c0 cs]; [contradiction|].
  destruct (greedy_scan cs [c0] [] [] c0 eq_refl Hord
              (Forall_nil _) (Forall_nil _)) as (l1 & l2 & Hsplit & Hl1 & Hl2).
  cbv zeta in Hsplit, Hl1, Hl2.
  set (best := fold_left _ cs c0) in *.
  cbn [app] in Hsplit.
  assert (Hnth : nth_error (c0 :: cs) (length l1) = Some best).
  { rewrite Hsplit, nth_error_app2, Nat.sub_diag by lia. reflexivity. }
  pose proof (prepare_candidates_ids _ _ _ Hprep _ _ Hnth) as Hid.
  assert (Hgreedy : llama_sample_token_greedy (c0 :: cs) = id best)
    by reflexivity.
  pose proof (prepare_candidates_effect _ _ _ Hprep) as (Hp & _).
  exists (id best), best. rewrite Hid, Nat2Z.id. repeat split.
  - unfold sampleTokenWithModel, bind. rewrite Hprep.
    unfold select_token. rewrite Hp, Hzero, Hgreedy, Hid. reflexivity.
  - intros mode k top. unfold sampleTokenWithModel, bind.
    rewrite prepare_candidates_strategy, Hprep. cbn [fst snd].
    unfold select_token.
    cbn [set_parameters with_strategy parameters LLMUtils.temperature].
    rewrite Hzero, Hgreedy, Hid. reflexivity.
  - lia.
  - exact Hnth.
  - intros c Hc. rewrite Hsplit in Hc.
    assert (Hb : In (logit best) (map logit (c0 :: cs))).
    { apply in_map. rewrite Hsplit. apply in_or_app. right. now left. }
    apply in_app_or in Hc as [Hc|[<-|Hc]].
    + assert (Hc' : In (logit c) (map logit (c0 :: cs))).
      { apply in_map. rewrite Hsplit. apply in_or_app. now left. }
      rewrite Forall_forall in Hl1. specialize (Hl1 _ Hc).
      destruct (single_lt (logit best) (logit c)) eqn:E; [|reflexivity].
      destruct (Hord _ _ (logit c) Hc' Hb Hc') as [Hirr Hlt].
      destruct (Hlt Hl1) as [Htr _]. rewrite (Htr E) in Hirr. discriminate.
    + now destruct (Hord _ _ (logit best) Hb Hb Hb) as [Hirr _].
    + rewrite Forall_forall in Hl2. now apply Hl2.
  - intros j c Hj Hc. rewrite Hsplit, nth_error_app1 in Hc by assumption.
    rewrite Forall_forall in Hl1. apply Hl1. eapply nth_error_In; eauto.
Qed.

Lemma apply_logit_bias_completes (items : list (Z * pyfloat)) :
  forall row,
    Forall (fun item => - len row <= fst item < len row) items ->
    snd (apply_logit_bias row items) = true.
Proof.
  induction items as [|[t b] items IH]; intros row Hin; cbn; auto.
  inversion Hin as [|? ? Ht Hin']; subst. cbn [fst] in Ht.
  destruct (bias_row row t b) as [row'|] eqn:E.
  - apply IH. apply bias_row_length in E. unfold len in *.
    now rewrite E.
  - exfalso. unfold bias_row, index in E.
    destruct ((0 <=? t) && (t <? len row)) eqn:E1; [discriminate|].
    destruct ((- len row <=? t) && (t <? 0)) eqn:E2; [discriminate|].
    rewrite andb_false_iff, Z.leb_gt, Z.ltb_ge in E1, E2. lia.
Qed.

(** On a context in shape that holds at least one evaluated token, with a
    recent-token window that is the whole context ([n_keep == -1]) or
    positive, and bias keys that index the vocabulary, the first half of a
    sampling step raises nothing and yields candidates. *)
Lemma prepare_candidates_succeeds (self : LlamaModel) :
  well_formed self -> 0 < pastTokens self ->
  LLMUtils.n_keep (parameters self) = -1 \/
  0 < LLMUtils.n_keep (parameters self) ->
  Forall (fun item => - nVocab self <= fst item < nVocab self)
         (LLMUtils.logit_bias (parameters self)) ->
  exists candidates self1,
    prepare_candidates self = (Ok candidates, self1) /\ candidates <> [].
Proof.
  intros (W1 & W2 & W3 & W4 & W5) Hpast Hkeep Hbias.
  unfold prepare_candidates. cbv zeta.
  set (history := slice_to (inputIds self) (pastTokens self)).
  assert (Hh : len history = pastTokens self).
  { unfold history. rewrite len_slice_to by lia. lia. }
  set (size := if negb (LLMUtils.n_keep (parameters self) =? -1)
               then LLMUtils.n_keep (parameters self) else nCtx self).
  set (data := repeat 0 _ ++ slice_from history (- size)).
  assert (Hdata : 0 <= size /\ len data <= size).
  { unfold data, size, slice_from. rewrite len_app, len_slice.
    unfold len at 1. rewrite repeat_length. rewrite Hh. unfold bound.
    destruct Hkeep as [-> | Hk].
    - rewrite Z.eqb_refl. cbn [negb].
      destruct (Z.ltb_spec (- nCtx self) 0);
        destruct (Z.ltb_spec (pastTokens self) 0); lia.
    - destruct (Z.eqb_spec (LLMUtils.n_keep (parameters self)) (-1));
        [lia|]. cbn [negb].
      destruct (Z.ltb_spec (- LLMUtils.n_keep (parameters self)) 0);
        destruct (Z.ltb_spec (pastTokens self) 0); lia. }
  unfold ctypes_array.
  destruct (Z.ltb_spec size 0); [lia|].
  destruct (Z.ltb_spec size (len data)); [lia|].
  unfold logits_view.
  destruct (slice_to (scores self) (pastTokens self)) as [|row0 rows] eqn:Hrows.
  { pose proof (len_slice_to (scores self) (pastTokens self)) as L.
    rewrite Hrows in L. cbn in L. lia. }
  set (r := (length (row0 :: rows) - 1)%nat).
  assert (Hr : (r < length (scores self))%nat).
  { pose proof (len_slice_to (scores self) (pastTokens self)) as L.
    rewrite Hrows in L. unfold len in L, W2. unfold r. lia. }
  assert (Hrow : len (nth r (scores self) []) = nVocab self).
  { rewrite Forall_forall in W3. apply W3. now apply nth_In. }
  pose proof (apply_logit_bias_completes
                (LLMUtils.logit_bias (parameters self))
                (nth r (scores self) [])) as Hok.
  rewrite Hrow in Hok. specialize (Hok Hbias).
  pose proof (apply_logit_bias_length
                (LLMUtils.logit_bias (parameters self))
                (nth r (scores self) [])) as Hlen.
  destruct (apply_logit_bias _ _) as [logits ok]. cbn [fst snd] in Hok, Hlen.
  subst ok. cbn [negb set_scores nVocab].
  unfold fill_candidates, broadcast.
  assert (Hn : length logits = Z.to_nat (nVocab self))
    by (unfold len in Hrow; lia).
  rewrite Hn, Nat.eqb_refl.
  do 2 eexists. split; [reflexivity|].
  destruct logits as [|l logits]; [cbn in Hn; lia|]. discriminate.
Qed.

(** The candidates of such a sampling step carry the penalised logits:
    the latest row of [scores] after the bias pass, each entry rewritten
    by the repetition penalty for the window of recent tokens. *)
Lemma prepare_candidates_logits (self self1 : LlamaModel)
  (candidates : list llama_token_data) :
  well_formed self -> 0 < pastTokens self ->
  LLMUtils.n_keep (parameters self) = -1 \/
  0 < LLMUtils.n_keep (parameters self) ->
  prepare_candidates self = (Ok candidates, self1) ->
  map logit candidates = penalised_logits self /\
  len candidates = nVocab self.
Proof.
  intros (W1 & W2 & W3 & W4 & W5) Hpast Hkeep.
  unfold prepare_candidates, penalised_logits, penalty_window. cbv zeta.
  set (history := slice_to (inputIds self) (pastTokens self)).
  set (size := if negb (LLMUtils.n_keep (parameters self) =? -1)
               then LLMUtils.n_keep (parameters self) else nCtx self).
  replace (if LLMUtils.n_keep (parameters self) =? -1
           then nCtx self else LLMUtils.n_keep (parameters self))
    with size
    by (unfold size; now destruct (LLMUtils.n_keep (parameters self) =? -1)).
  set (data := repeat 0 _ ++ slice_from history (- size)).
  unfold ctypes_array.
  destruct (size <? 0); [discriminate|].
  destruct (size <? len data); [discriminate|].
  unfold logits_view.
  pose proof (len_slice_to (scores self) (pastTokens self) ltac:(lia)) as L.
  destruct (slice_to (scores self) (pastTokens self)) as [|row0 rows] eqn:Hrows;
    [discriminate|].
  assert (Hr : (length (row0 :: rows) - 1)%nat
               = Z.to_nat (pastTokens self - 1))
    by (unfold len in *; lia).
  rewrite Hr.
  set (r := Z.to_nat (pastTokens self - 1)).
  assert (Hrow : len (nth r (scores self) []) = nVocab self).
  { rewrite Forall_forall in W3. apply W3. apply nth_In.
    unfold r, len in *. lia. }
  pose proof (apply_logit_bias_length
                (LLMUtils.logit_bias (parameters self))
                (nth r (scores self) [])) as Hlen.
  destruct (apply_logit_bias _ _) as [logits ok]. cbn [fst] in Hlen |- *.
  destruct (negb ok); [discriminate|].
  cbn [set_scores nVocab parameters].
  unfold fill_candidates, broadcast.
  assert (Hn : length logits = Z.to_nat (nVocab self))
    by (unfold len in Hrow; lia).
  rewrite Hn, Nat.eqb_refl.
  intros [= <- _]. split.
  - rewrite !map_map. apply map_ext. now intros [token l].
  - unfold len, enumerate. rewrite !length_map.
    rewrite length_enumerate_from. lia.
Qed.

(** C6, as the code has it. With [temperature == 0], on a context in
    shape that holds an evaluated token, with a window of recent tokens
    that is positive or the whole context, and bias keys within the
    vocabulary, the sampling step is greedy whatever the mirostat mode,
    [top_k] and [top_p] are: provided the penalised logits compare as an
    order (no NaN), it returns the token [t] whose penalised logit (entry
    [t] of the latest row of [scores] after the bias pass and the
    repetition penalty) is the largest, and the lowest such token when
    several share it: no token has a larger penalised logit, and every
    token before [t] has a strictly smaller one. *)
Theorem zero_temperature_is_greedy (self : LlamaModel) :
  float_is_zero (LLMUtils.temperature (parameters self)) = true ->
  well_formed self -> 0 < pastTokens self ->
  LLMUtils.n_keep (parameters self) = -1 \/
  0 < LLMUtils.n_keep (parameters self) ->
  Forall (fun item => - nVocab self <= fst item < nVocab self)
         (LLMUtils.logit_bias (parameters self)) ->
  ordered_on (penalised_logits self) ->
  len (penalised_logits self) = nVocab self /\
  exists t self',
    sampleTokenWithModel self = (Ok t, self') /\
    (forall mode k top,
       fst (sampleTokenWithModel
              (set_parameters self
                 (with_strategy (parameters self) mode k top)))
       = Ok t) /\
    0 <= t < nVocab self /\
    let best := nth (Z.to_nat t) (penalised_logits self) single_zero in
    (forall k, (k < length (penalised_logits self))%nat ->
               single_lt best (nth k (penalised_logits self) single_zero)
               = false) /\
    (forall j, (j < Z.to_nat t)%nat ->
               single_lt (nth j (penalised_logits self) single_zero) best
               = true).
Proof.
  intros Hzero Hwf Hpast Hkeep Hbias Hord.
  destruct (prepare_candidates_succeeds self Hwf Hpast Hkeep Hbias)
    as (candidates & self1 & Hprep & Hne).
  pose proof (prepare_candidates_logits self self1 candidates Hwf Hpast
                Hkeep Hprep) as [Hlogits Hsize].
  rewrite <- Hlogits in Hord.
  destruct (greedy_from_candidates self self1 candidates Hzero Hprep Hne Hord)
    as (t & best & Hsample & Hany & Ht & Hnth & Hid & Hmax & Hfirst).
  assert (Hcount : len (penalised_logits self) = nVocab self).
  { rewrite <- Hlogits. unfold len in *. now rewrite length_map. }
  split; [exact Hcount|].
  assert (Hlt : (Z.to_nat t < length candidates)%nat)
    by (apply nth_error_Some; congruence).
  assert (Hread : forall k c, nth_error candidates k = Some c ->
                    nth k (penalised_logits self) single_zero = logit c).
  { intros k c Hk. rewrite <- Hlogits.
    apply nth_error_nth. rewrite nth_error_map, Hk. reflexivity. }
  exists t, (record self1 SampleGreedy).
  split; [exact Hsample|]. split; [exact Hany|]. split.
  { rewrite <- Hcount, <- Hlogits. unfold len. rewrite length_map. lia. }
  cbv zeta. rewrite (Hread _ _ Hnth). split.
  - intros k Hk. rewrite <- Hlogits, length_map in Hk.
    destruct (nth_error candidates k) as [c|] eqn:Hc.
    + rewrite (Hread _ _ Hc). apply Hmax. eapply nth_error_In; eauto.
    + apply nth_error_None in Hc. lia.
  - intros j Hj.
    destruct (nth_error candidates j) as [c|] eqn:Hc.
    + rewrite (Hread _ _ Hc). exact (Hfirst j c Hj Hc).
    + apply nth_error_None in Hc. lia.
Qed.

End SamplingProperties.

(** ** Whole calls: [evaluate] and [generate] *)

Section CallProperties.

Context `{FL : Floats} `{TX : Text} `{EN : @Engine FL}.

Import Py PyFacts.

(** The chunks tile the token list. *)
Lemma chunks_from (tokens : list Z) (batch : Z) :
  0 < batch ->
  forall (fuel : nat) (i : Z),
    0 <= i -> len tokens - i <= Z.of_nat fuel ->
    concat (map (chunk_at tokens batch)
                (range_fuel fuel i (len tokens) batch))
    = skipn (Z.to_nat i) tokens.
Proof.
  intros Hb. induction fuel as [|fuel IH]; intros i Hi Hfuel.
  - cbn. symmetry. apply skipn_all2. unfold len in *. lia.
  - cbn [range_fuel]. destruct (Z.ltb_spec i (len tokens)) as [Hlt|Hge].
    + cbn [map concat]. rewrite IH by lia.
      unfold chunk_at. rewrite slice_inside by lia.
      destruct (Z.le_gt_cases (i + batch) (len tokens)) as [Hfit|Hover].
      * rewrite Z.min_r by lia.
        replace (Z.to_nat (i + batch))
          with (Z.to_nat (i + batch - i) + Z.to_nat i)%nat by lia.
        rewrite <- skipn_skipn. apply firstn_skipn.
      * rewrite Z.min_l by lia.
        rewrite (skipn_all2 (n := Z.to_nat (i + batch)))
          by (unfold len in *; lia).
        rewrite app_nil_r. apply firstn_all2.
        rewrite length_skipn. unfold len in *. lia.
    + cbn. symmetry. apply skipn_all2. unfold len in *. lia.
Qed.

Lemma chunks_concat (tokens : list Z) (batch : Z) :
  0 < batch -> concat (chunks tokens batch) = tokens.
Proof.
  intros Hb. unfold chunks, range.
  rewrite chunks_from by lia. reflexivity.
Qed.

Lemma chunks_sizes (tokens : list Z) (batch : Z) :
  0 < batch ->
  Forall (fun c => 1 <= len c <= batch) (chunks tokens batch).
Proof.
  intros Hb. unfold chunks. rewrite Forall_map, Forall_forall.
  intros i Hi. apply range_bounds in Hi; [|assumption].
  now apply chunk_at_len.
Qed.

Lemma eval_calls_length (capacity : Z) (cs : list (list Z)) :
  forall past, length (eval_calls capacity past cs) = length cs.
Proof. induction cs as [|c cs IH]; intros past; cbn; auto. Qed.

Lemma range_starts (tokens : list Z) (batch : Z) :
  0 < batch ->
  Forall (fun i => 0 <= i < len tokens) (range 0 (len tokens) batch).
Proof.
  intros Hb. rewrite Forall_forall. intros i Hi.
  now apply range_bounds in Hi.
Qed.

(** C10. With a batch size that is not positive, [evaluate] returns
    normally and does nothing: the counter, both arrays and the rest of the
    state are those of before, and the engine is not called. *)
Theorem evaluate_nonpositive_batch (tokens : list Z) (batch : Z)
  (self : LlamaModel) :
  batch <= 0 ->
  exists self',
    evaluate tokens batch self = (Ok tt, self') /\
    pastTokens self' = pastTokens self /\
    inputIds self' = inputIds self /\
    scores self' = scores self /\
    trace self' = trace self /\
    self' = self.
Proof.
  intros Hb. exists self. unfold evaluate.
  destruct (Z.ltb_spec 0 batch); [lia|]. repeat split.
Qed.

(** C8. After a successful [evaluate] with a batch size of at least one,
    the counter has advanced by the number of ids passed in, and the engine
    has been called once per chunk, in order, each time with
    [min(capacity - len(chunk), tokens evaluated so far)]; the chunks tile
    the ids and hold between one and [batch] ids each. *)
Theorem evaluate_advances_counter (tokens : list Z) (batch : Z)
  (self self' : LlamaModel) :
  1 <= batch ->
  len (inputIds self) = nCtx self -> 0 <= pastTokens self ->
  evaluate tokens batch self = (Ok tt, self') ->
  pastTokens self' = pastTokens self + len tokens /\
  trace self' =
    trace self
    ++ eval_calls (nCtx self) (pastTokens self) (chunks tokens batch) /\
  concat (chunks tokens batch) = tokens /\
  Forall (fun c => 1 <= len c <= batch) (chunks tokens batch).
Proof.
  intros Hb Hids Hpast H. unfold evaluate in H.
  destruct (Z.ltb_spec 0 batch); [|lia].
  apply for_each_chunk_effect in H;
    [|lia|apply range_starts; lia|assumption|assumption].
  cbv zeta in H. fold (chunks tokens batch) in H.
  destruct H as (_ & _ & _ & _ & _ & _ & k & _ & Htr & -> & Hcount).
  rewrite chunks_concat in Hcount by lia.
  repeat split; try assumption.
  - rewrite Htr. f_equal. apply firstn_all2.
    rewrite eval_calls_length. unfold chunks. now rewrite length_map.
  - apply chunks_concat. lia.
  - apply chunks_sizes. lia.
Qed.

Lemma evaluate_well_formed (tokens : list Z) (batch : Z)
  (self self' : LlamaModel) (r : result unit) :
  well_formed self -> evaluate tokens batch self = (r, self') ->
  well_formed self'.
Proof.
  intros Hwf H. unfold evaluate in H.
  destruct (Z.ltb_spec 0 batch) as [Hb|Hb].
  - exact (for_each_chunk_well_formed tokens batch Hb _ self self' r
             (range_starts tokens batch Hb) Hwf H).
  - now injection H as <- <-.
Qed.

(** [evaluate] keeps the configuration and only records evaluations. *)
Lemma evaluate_frame (tokens : list Z) (batch : Z)
  (self self' : LlamaModel) (r : result unit) :
  evaluate tokens batch self = (r, self') ->
  parameters self' = parameters self /\ EOSToken self' = EOSToken self /\
  exists new, trace self' = trace self ++ new /\
              Forall (mu_fresh (parameters self)) new.
Proof.
  unfold evaluate. destruct (0 <? batch).
  2:{ intros [= <- <-]. repeat split. exists []. rewrite app_nil_r.
      split; [reflexivity|constructor]. }
  generalize (range 0 (len tokens) batch) as starts. intros starts.
  revert self self' r.
  induction starts as [|i starts IH]; intros self self' r H.
  - cbn in H. injection H as <- <-. repeat split.
    exists []. rewrite app_nil_r. split; [reflexivity|constructor].
  - cbn [for_each] in H. unfold bind in H.
    destruct (evaluate_chunk tokens batch i self) as [r1 self1] eqn:H1.
    apply evaluate_chunk_effect in H1. cbv zeta in H1.
    destruct H1 as (Hp1 & _ & _ & He1 & _ & Htr1 & _).
    destruct r1 as [[]|e1].
    + apply IH in H. destruct H as (Hp & He & new & Htr & Hnew).
      repeat split; try congruence.
      eexists (_ :: new). split.
      * rewrite Htr, Htr1, <- app_assoc. reflexivity.
      * constructor; [exact I|]. now rewrite <- Hp1.
    + injection H as <- <-. repeat split; try assumption.
      eexists [_]. split; [exact Htr1|]. constructor; [exact I|constructor].
Qed.

(** The loop of [generate] keeps the configuration, and hands every
    mirostat call it makes a fresh [c_float(2.0 * mirostat_tau)]. *)
Lemma generate_loop_effect (fuel : nat) :
  forall (enc : list (list byte)) (pending : list Z) (ls : loop_state)
         (self self' : LlamaModel) (r : result (option loop_state)),
    generate_loop fuel enc pending ls self = (r, self') ->
    parameters self' = parameters self /\
    exists new, trace self' = trace self ++ new /\
                Forall (mu_fresh (parameters self)) new.
Proof.
  induction fuel as [|fuel IH]; intros enc pending ls self self' r H.
  - cbn in H. injection H as <- <-. split; [reflexivity|].
    exists []. rewrite app_nil_r. split; [reflexivity|constructor].
  - cbn [generate_loop] in H. unfold bind at 1 in H.
    destruct (evaluate pending 64 self) as [r1 self1] eqn:H1.
    apply evaluate_frame in H1. destruct H1 as (Hp1 & _ & new1 & Htr1 & Hn1).
    destruct r1 as [[]|e1].
    2:{ injection H as <- <-. split; [assumption|]. now exists new1. }
    unfold bind at 1 in H.
    destruct (sampleTokenWithModel self1) as [r2 self2] eqn:H2.
    apply sampleTokenWithModel_effect in H2.
    destruct H2 as (Hp2 & _ & _ & _ & _ & _ & _ & new2 & Htr2 & Hn2).
    rewrite Hp1 in Hn2.
    assert (Hboth : trace self2 = trace self ++ new1 ++ new2)
      by (rewrite Htr2, Htr1, <- app_assoc; reflexivity).
    assert (Hfresh : Forall (mu_fresh (parameters self)) (new1 ++ new2))
      by (apply Forall_app; now split).
    destruct r2 as [t|e2].
    2:{ injection H as <- <-. split; [congruence|]. eauto. }
    unfold bind at 1, get in H.
    destruct (loop_body _ _ _ _ _) as [b ls'].
    destruct (is_break b).
    + injection H as <- <-. split; [congruence|]. eauto.
    + apply IH in H. destruct H as (Hp & new & Htr & Hn).
      split; [congruence|]. exists ((new1 ++ new2) ++ new). split.
      * rewrite Htr, Hboth, <- !app_assoc. reflexivity.
      * apply Forall_app. split; [assumption|]. now rewrite <- Hp1, <- Hp2.
Qed.

Lemma generate_loop_well_formed (fuel : nat) :
  forall (enc : list (list byte)) (pending : list Z) (ls : loop_state)
         (self self' : LlamaModel) (r : result (option loop_state)),
    well_formed self ->
    generate_loop fuel enc pending ls self = (r, self') ->
    well_formed self'.
Proof.
  induction fuel as [|fuel IH]; intros enc pending ls self self' r Hwf H.
  - cbn in H. now injection H as <- <-.
  - cbn [generate_loop] in H. unfold bind at 1 in H.
    destruct (evaluate pending 64 self) as [r1 self1] eqn:H1.
    apply evaluate_well_formed in H1; [|assumption].
    destruct r1 as [[]|e1]; [|now injection H as <- <-].
    unfold bind at 1 in H.
    destruct (sampleTokenWithModel self1) as [r2 self2] eqn:H2.
    apply sampleTokenWithModel_well_formed in H2; [|assumption].
    destruct r2 as [t|e2]; [|now injection H as <- <-].
    unfold bind at 1, get in H.
    destruct (loop_body _ _ _ _ _) as [b ls'].
    destruct (is_break b).
    + now injection H as <- <-.
    + eapply IH; eauto.
Qed.

Lemma generate_well_formed (fuel : nat) (self self' : LlamaModel)
  (r : result (option str)) :
  well_formed self -> generate fuel self = (r, self') -> well_formed self'.
Proof.
  intros Hwf. unfold generate. cbv zeta.
  destruct (tokenizedPromptTokens self) as [prompt|e0];
    [|now intros [= <- <-]].
  destruct (_ <=? _); [now intros [= <- <-]|].
  destruct (generate_loop _ _ _ _ _) as [r1 self1] eqn:H1.
  apply generate_loop_well_formed in H1; [|assumption].
  destruct r1 as [[ls|]|e]; now intros [= <- <-].
Qed.

Lemma init_well_formed heap_ids heap_scores (self : LlamaModel) :
  0 <= nCtx self -> 2 <= nVocab self ->
  well_formed (_init heap_ids heap_scores self).
Proof.
  intros Hn Hv. unfold well_formed, _init, len. cbn.
  rewrite !length_map, !length_seq. repeat split; try lia.
  rewrite Forall_map, Forall_forall. intros row _.
  rewrite length_map, length_seq. lia.
Qed.

Lemma reachable_well_formed (self : LlamaModel) :
  reachable self -> well_formed self.
Proof.
  induction 1 as [heap_ids heap_scores self Hn Hv
                 | tokens batch self _ IH | self _ IH | fuel self _ IH].
  - now apply init_well_formed.
  - destruct (evaluate tokens batch self) as [r self'] eqn:E.
    eapply evaluate_well_formed; eauto.
  - destruct (sampleTokenWithModel self) as [r self'] eqn:E.
    eapply sampleTokenWithModel_well_formed; eauto.
  - destruct (generate fuel self) as [r self'] eqn:E.
    eapply generate_well_formed; eauto.
Qed.


(** C3, as the code has it. In every state reached from [_init] (with a
    vocabulary of at least two tokens) the counter is within the capacity;
    and a call of [evaluate] that would take it beyond has no check of its
    own: the engine is asked to evaluate the chunks one after the other, up
    to some chunk on which the call fails, either on the engine's status or
    with NumPy's [ValueError] when the chunk is stored, and the counter is
    still within the capacity then. *)
Theorem evaluate_overflow_fails_after_evaluation (self : LlamaModel) :
  reachable self ->
  pastTokens self <= nCtx self /\
  forall tokens batch,
    0 < batch -> nCtx self < pastTokens self + len tokens ->
    exists e self' k,
      evaluate tokens batch self = (Raise e, self') /\
      (e = ValueError \/ e = RuntimeError "evaluate") /\
      (1 <= k <= length (chunks tokens batch))%nat /\
      trace self' =
        trace self
        ++ firstn k (eval_calls (nCtx self) (pastTokens self)
                                (chunks tokens batch)) /\
      pastTokens self' <= nCtx self'.
Proof.
  intros Hreach. pose proof (reachable_well_formed _ Hreach) as Hwf.
  pose proof Hwf as (W1 & _ & _ & _ & W5). split; [lia|].
  intros tokens batch Hb Hover.
  destruct (evaluate tokens batch self) as [r self'] eqn:H.
  pose proof (evaluate_well_formed _ _ _ _ _ Hwf H) as (_ & _ & _ & _ & W5').
  unfold evaluate in H. destruct (Z.ltb_spec 0 batch); [|lia].
  apply for_each_chunk_effect in H;
    [|lia|now apply range_starts|assumption|lia].
  cbv zeta in H. fold (chunks tokens batch) in H.
  destruct H as (_ & Hn & _ & _ & _ & _ & k & Hk & Htr & Hr).
  destruct r as [[]|e].
  - destruct Hr as [_ Hcount]. rewrite chunks_concat in Hcount by lia. lia.
  - destruct Hr as [Hk1 He]. exists e, self', k.
    unfold chunks at 1. rewrite length_map. repeat split; auto; lia.
Qed.

(** C1, as the code has it. Every mirostat sampling step makes its own
    [mu]: with a non-zero temperature and mirostat mode 1 or 2, the step
    hands the engine [c_float(2.0 * mirostat_tau)] and drops the value the
    engine stores; so every mirostat call made during a call of [generate]
    receives that same fresh value. *)
Theorem mirostat_mu_is_fresh_at_every_step (self : LlamaModel) :
  (forall candidates,
     float_is_zero (LLMUtils.temperature (parameters self)) = false ->
     LLMUtils.mirostat (parameters self) = 1 \/
     LLMUtils.mirostat (parameters self) = 2 ->
     exists t mu_out self',
       select_token candidates self = (Ok t, self') /\
       trace self' =
         trace self
         ++ [SampleMirostat (LLMUtils.mirostat (parameters self))
               (c_float_twice (LLMUtils.mirostat_tau (parameters self)))
               mu_out]) /\
  (forall fuel,
     exists new,
       trace (snd (generate fuel self)) = trace self ++ new /\
       Forall (mu_fresh (parameters self)) new).
Proof.
  split.
  - intros candidates Hzero Hmode. unfold select_token. cbv zeta.
    rewrite Hzero. destruct Hmode as [-> | ->]; cbn [Z.eqb Pos.eqb].
    + destruct (llama_sample_token_mirostat _ _ _ _ _ _) as [[t mu] ctx].
      exists t, mu. eexists. split; reflexivity.
    + destruct (llama_sample_token_mirostat_v2 _ _ _ _ _) as [[t mu] ctx].
      exists t, mu. eexists. split; reflexivity.
  - intros fuel. unfold generate. cbv zeta.
    destruct (tokenizedPromptTokens self) as [prompt|e0].
    2: { exists []. cbn. rewrite app_nil_r. split; [reflexivity|constructor]. }
    destruct (_ <=? _).
    { exists []. cbn. rewrite app_nil_r. split; [reflexivity|constructor]. }
    destruct (generate_loop _ _ _ _ _) as [r self'] eqn:H.
    apply generate_loop_effect in H. destruct H as (_ & new & Htr & Hnew).
    exists new. destruct r as [[ls|]|e]; cbn; auto.
Qed.

Lemma token_buffer_length (self : LlamaModel) (written : list Z) :
  len (firstn (Z.to_nat (nCtx self))
              (written ++ repeat 0 (Z.to_nat (nCtx self))))
  = Z.max 0 (nCtx self).
Proof.
  unfold len. rewrite length_firstn, length_app, repeat_length. lia.
Qed.

(** What [tokenizeFull] makes of the count [n] the engine answers: the
    slice [tokens[:n]] of a buffer of [nCtx] ids. *)
Lemma tokenizeFull_count (self : LlamaModel) (input : str)
  (bos special : bool) (written : list Z) (n : Z) :
  0 <= nCtx self ->
  llama_tokenize (encode_utf8 input) (nCtx self) bos special = (written, n) ->
  exists toks,
    tokenizeFull self input bos special = Ok toks /\
    len toks = if n <? 0 then Z.max 0 (nCtx self + n)
               else Z.min n (nCtx self).
Proof.
  intros Hcap Htok. unfold tokenizeFull. rewrite Htok.
  destruct (Z.ltb_spec (nCtx self) 0) as [Hneg|_]; [lia|].
  eexists. split; [reflexivity|].
  unfold slice_to. rewrite len_slice, token_buffer_length. unfold bound.
  destruct (Z.ltb_spec n 0); destruct (Z.ltb_spec 0 0); lia.
Qed.


End CallProperties.

(** ** The decoding loop of [generate] *)

Section LoopProperties.

Context `{FL : Floats} `{TX : Text} `{EN : @Engine FL}.

Import Py PyFacts.




Lemma starts_with_nil (l : list byte) : starts_with [] l = true.
Proof. destruct l; reflexivity. Qed.

(** [bytes_find] returns the lowest position at which the needle occurs. *)
Lemma bytes_find_first (a l : list byte) : forall k,
  bytes_find a l = Some k ->
  (k <= length l)%nat /\
  starts_with a (skipn k l) = true /\
  forall j, (j < k)%nat -> starts_with a (skipn j l) = false.
Proof.
  induction l as [|x l IH]; intros k; cbn [bytes_find].
  - destruct (starts_with a []) eqn:E; [|discriminate].
    intros [= <-]. repeat split; auto. intros j Hj. lia.
  - destruct (starts_with a (x :: l)) eqn:E.
    + intros [= <-]. repeat split; auto; [cbn; lia|]. intros j Hj. lia.
    + destruct (bytes_find a l) as [k'|]; [|discriminate].
      cbn [option_map]. intros [= <-].
      destruct (IH k' eq_refl) as (Hle & Hat & Hbefore).
      repeat split; [cbn; lia|exact Hat|].
      intros [|j] Hj; [exact E|]. cbn [skipn]. apply Hbefore. lia.
Qed.

Lemma buffered_app (ts : list Z) (t : Z) :
  buffered (ts ++ [t]) = buffered ts ++ tokenToByte t.
Proof.
  unfold buffered. rewrite map_app, concat_app. cbn. now rewrite app_nil_r.
Qed.









(** C9, as the code has it. When the token is no stop token, the
    countdown is not active and some configured anti-prompt occurs in the
    buffer, the loop breaks, and the buffer is cut at the first occurrence
    of [first], the first anti-prompt in the configured order that occurs
    in the buffer; other anti-prompts that occur in it play no part, also
    when they occur further to the left. Nothing else of the state that
    decides the returned text changes. When [a] is the only configured
    anti-prompt that occurs, the cut is at the first occurrence of [a]. *)
Theorem anti_prompt_truncates (EOS n_predict t : Z)
  (enc : list (list byte)) (ls : loop_state) (a : list byte) :
  let buffer := tempBytes ls ++ tokenToByte t in
  stop_token EOS t = false ->
  scan_incomplete buffer (incompleteFix ls) <= 0 ->
  In a enc -> bytes_in a buffer = true ->
  exists first k ls',
    loop_body EOS n_predict enc t ls = (AntiPromptHit, ls') /\
    is_break AntiPromptHit = true /\
    hd_error (filter (fun a' => bytes_in a' buffer) enc) = Some first /\
    In first enc /\
    (k <= length buffer)%nat /\
    starts_with first (skipn k buffer) = true /\
    (forall j, (j < k)%nat -> starts_with first (skipn j buffer) = false) /\
    tempBytes ls' = firstn k buffer /\
    finalString ls' = finalString ls /\
    tokens ls' = tokens ls ++ [t] /\
    truncated_at first buffer (tempBytes ls') /\
    ((forall a', In a' enc -> bytes_in a' buffer = true -> a' = a) ->
     truncated_at a buffer (tempBytes ls')).
Proof.
  intros buffer Hstop Hscan Ha Hin. unfold loop_body. rewrite Hstop.
  fold buffer. destruct (Z.ltb_spec 0 (scan_incomplete buffer
                                         (incompleteFix ls))); [lia|].
  destruct (filter (fun a' => bytes_in a' buffer) enc) as [|first hits] eqn:F.
  { assert (Hhit : In a (filter (fun a' => bytes_in a' buffer) enc))
      by (apply filter_In; now split).
    rewrite F in Hhit. contradiction. }
  assert (Hfirst : In first (filter (fun a' => bytes_in a' buffer) enc))
    by (rewrite F; now left).
  apply filter_In in Hfirst as [Hconf Hocc].
  assert (Hocc' := Hocc).
  unfold bytes_in in Hocc. unfold bytes_index.
  destruct (bytes_find first buffer) as [k|] eqn:Hk; [|discriminate].
  destruct (bytes_find_first _ _ _ Hk) as (Hle & Hat & Hbefore).
  assert (Hcut : slice_to buffer (Z.of_nat k) = firstn k buffer).
  { unfold slice_to. rewrite slice_inside by (unfold len; lia).
    cbn [Z.to_nat skipn]. f_equal. lia. }
  exists first, k. eexists. split; [reflexivity|].
  cbn [tempBytes finalString tokens hd_error]. rewrite Hcut.
  repeat split; auto.
  - exists k. now split.
  - intros Honly. rewrite <- (Honly first Hconf Hocc').
    exists k. now split.
Qed.

End LoopProperties.

(** ** IEEE comparison

    On values that are not NaN, [<] on C floats is a strict weak order. *)

Module IEEEFacts.

Import IEEE.

Ltac order_cases :=
  repeat match goal with
         | |- context [Z.compare ?a ?b] =>
             destruct (Z.compare_spec a b); subst
         | |- context [Pos.compare_cont Eq ?a ?b] =>
             change (Pos.compare_cont Eq a b) with (Pos.compare a b);
             destruct (Pos.compare_spec a b); subst
         | H : context [Z.compare ?a ?b] |- _ =>
             destruct (Z.compare_spec a b); subst
         | H : context [Pos.compare_cont Eq ?a ?b] |- _ =>
             change (Pos.compare_cont Eq a b) with (Pos.compare a b) in H;
             destruct (Pos.compare_spec a b); subst
         end.

Lemma SFltb_irrefl (x : spec_float) : SFltb x x = false.
Proof.
  unfold SFltb, SFcompare. destruct x as [s|s| |s m e]; try destruct s; cbn;
    try reflexivity; rewrite Z.compare_refl;
    change (Pos.compare_cont Eq m m) with (Pos.compare m m);
    rewrite Pos.compare_refl; reflexivity.
Qed.

Lemma SFltb_trans (x y z : spec_float) :
  SFltb x y = true -> SFltb y z = true -> SFltb x z = true.
Proof.
  unfold SFltb, SFcompare.
  destruct x as [sx|sx| |sx mx ex], y as [sy|sy| |sy my ey],
           z as [sz|sz| |sz mz ez];
    try destruct sx; try destruct sy; try destruct sz; cbn;
    try discriminate; try reflexivity; intros H1 H2;
    order_cases; cbn in *; try discriminate; try reflexivity; try lia.
Qed.

Lemma SFltb_cotrans (x y z : spec_float) :
  z <> S754_nan -> SFltb x y = true ->
  SFltb x z = true \/ SFltb z y = true.
Proof.
  unfold SFltb, SFcompare.
  destruct x as [sx|sx| |sx mx ex], y as [sy|sy| |sy my ey],
           z as [sz|sz| |sz mz ez];
    try destruct sx; try destruct sy; try destruct sz; cbn;
    try discriminate; try congruence; intros _ H1;
    try (left; reflexivity); try (right; reflexivity);
    order_cases; cbn in *; try discriminate;
    try (left; reflexivity); try (right; reflexivity); try lia.
Qed.

Lemma no_nan_ordered (vals : list spec_float) :
  Forall (fun x => x <> S754_nan) vals -> ordered_on (FL := floats) vals.
Proof.
  intros H x y z _ _ Hz. rewrite Forall_forall in H.
  split; [apply SFltb_irrefl|]. intros Hxy. split.
  - now apply SFltb_trans.
  - apply SFltb_cotrans; auto.
Qed.

End IEEEFacts.


(** ** More on the context tracker *)

Section MoreOnEvaluate.

Context `{FL : Floats} `{TX : Text} `{EN : @Engine FL}.

Import Py PyFacts.

Lemma evaluate_chunk_ids (tokens : list Z) (batch i : Z)
  (self self' : LlamaModel) (r : result unit) :
  evaluate_chunk tokens batch i self = (r, self') -> r = Ok tt ->
  set_slice (inputIds self) (pastTokens self)
            (pastTokens self + len (chunk_at tokens batch i))
            (chunk_at tokens batch i)
  = Some (inputIds self').
Proof.
  unfold evaluate_chunk, chunk_at. cbv zeta.
  destruct (llama_eval _ _ _ _) as [evalCode ctx].
  destruct (negb (evalCode =? 0)).
  { intros [= <- <-]. discriminate. }
  cbn [record set_context inputIds pastTokens parameters scores nVocab context].
  destruct (set_slice _ _ _ _) as [ids|] eqn:Hids.
  2:{ intros [= <- <-]. discriminate. }
  destruct (set_rows _ _ _ _) as [sc|] eqn:Hsc.
  2:{ intros [= <- <-]. discriminate. }
  intros [= <- <-] _. reflexivity.
Qed.

(** A chunk that is stored: where its ids and its logits go. *)
Lemma evaluate_chunk_commit (tokens : list Z) (batch i : Z)
  (self self' : LlamaModel) :
  0 < batch -> 0 <= i < len tokens -> well_formed self ->
  evaluate_chunk tokens batch i self = (Ok tt, self') ->
  let c := chunk_at tokens batch i in
  pastTokens self + len c <= nCtx self /\
  inputIds self' =
    firstn (Z.to_nat (pastTokens self)) (inputIds self) ++ c
    ++ skipn (Z.to_nat (pastTokens self + len c)) (inputIds self) /\
  (LLMUtils.logitsAll (parameters self) = false ->
   scores self' =
     firstn (Z.to_nat (pastTokens self + len c - 1)) (scores self)
     ++ [engine_row self']
     ++ skipn (Z.to_nat (pastTokens self + len c)) (scores self)).
Proof.
  intros Hb Hi Hwf H. cbv zeta.
  pose proof (chunk_at_len tokens batch i Hb Hi) as Hc.
  pose proof (evaluate_chunk_well_formed _ _ _ _ _ _ Hb Hi Hwf H)
    as (_ & _ & _ & _ & W5').
  pose proof (evaluate_chunk_effect _ _ _ _ _ _ H) as Heff.
  cbv zeta in Heff.
  destruct Heff as (_ & Hn & Hv & _ & _ & _ & Hpast & Hrows).
  destruct Hwf as (W1 & W2 & W3 & W4 & W5).
  rewrite Hpast, Hn in W5'.
  split; [lia|]. split.
  - pose proof (evaluate_chunk_ids _ _ _ _ _ _ H eq_refl) as Hids.
    unfold set_slice in Hids.
    assert (Hslice : length (slice (inputIds self) (pastTokens self)
                               (pastTokens self + len (chunk_at tokens batch i)))
                     = length (chunk_at tokens batch i)).
    { apply Nat2Z.inj. rewrite length_slice. unfold bound.
      destruct (Z.ltb_spec (pastTokens self + len (chunk_at tokens batch i)) 0);
        destruct (Z.ltb_spec (pastTokens self) 0); unfold len in *; lia. }
    rewrite Hslice in Hids. unfold broadcast in Hids.
    rewrite Nat.eqb_refl in Hids. injection Hids as <-.
    unfold bound. destruct (Z.ltb_spec (pastTokens self) 0); [lia|].
    rewrite Z.min_l by lia. do 3 f_equal. unfold len. lia.
  - intros Hlast. rewrite Hlast in Hrows. unfold set_rows in Hrows.
    set (lo := pastTokens self + (len (chunk_at tokens batch i) - 1)) in *.
    assert (Hlo : bound (len (scores self)) lo = lo).
    { unfold bound. destruct (Z.ltb_spec lo 0); lia. }
    assert (Hblock : exists row,
               slice (scores self) lo
                     (pastTokens self + len (chunk_at tokens batch i))
               = [row] /\ len row = nVocab self).
    { unfold slice. rewrite Hlo. unfold bound.
      destruct (Z.ltb_spec (pastTokens self
                            + len (chunk_at tokens batch i)) 0); [lia|].
      rewrite Z.min_l by lia.
      replace (Z.to_nat (pastTokens self + len (chunk_at tokens batch i) - lo))
        with 1%nat by lia.
      destruct (skipn (Z.to_nat lo) (scores self)) as [|row rest] eqn:Hs.
      - apply (f_equal (@length _)) in Hs. rewrite length_skipn in Hs.
        unfold len in *. cbn in Hs. lia.
      - exists row. split; [reflexivity|].
        rewrite Forall_forall in W3. apply W3.
        rewrite <- (firstn_skipn (Z.to_nat lo) (scores self)), Hs.
        apply in_or_app. right. now left. }
    destruct Hblock as (row & Hblock & Hrow). rewrite Hblock, Hlo in Hrows.
    cbn [concat length reshape_like] in Hrows. rewrite app_nil_r in Hrows.
    unfold broadcast in Hrows.
    rewrite length_map, length_seq in Hrows.
    replace (Z.to_nat (1 * nVocab self)) with (length row) in Hrows
      by (unfold len in Hrow; lia).
    rewrite Nat.eqb_refl in Hrows. injection Hrows as <-.
    rewrite (firstn_all2 (n := length row) (map _ _))
      by (rewrite length_map, length_seq; lia).
    unfold engine_row. rewrite Hv.
    replace (Z.to_nat (nVocab self)) with (length row)
      by (unfold len in Hrow; lia).
    replace (Z.to_nat (pastTokens self + len (chunk_at tokens batch i) - 1))
      with (Z.to_nat lo) by lia.
    replace (Z.to_nat (pastTokens self + len (chunk_at tokens batch i)))
      with (Z.to_nat lo + 1)%nat by lia.
    reflexivity.
Qed.

Lemma history_firstn (self : LlamaModel) :
  0 <= pastTokens self <= len (inputIds self) ->
  history self = firstn (Z.to_nat (pastTokens self)) (inputIds self).
Proof.
  intros H. unfold history, slice_to. rewrite slice_inside by lia.
  rewrite Z.sub_0_r. reflexivity.
Qed.

Lemma logits_view_latest (self : LlamaModel) :
  0 < pastTokens self <= len (scores self) ->
  logits_view self = Some (Z.to_nat (pastTokens self - 1)).
Proof.
  intros H. unfold logits_view.
  assert (L : len (slice_to (scores self) (pastTokens self))
              = Z.min (pastTokens self) (len (scores self)))
    by (apply len_slice_to; lia).
  destruct (slice_to (scores self) (pastTokens self)) as [|row rows].
  - unfold len in *. cbn [length] in L. lia.
  - f_equal. unfold len in *. cbn [length] in *. lia.
Qed.

Lemma for_each_chunk_history (tokens : list Z) (batch : Z) :
  0 < batch ->
  forall (starts : list Z) (self self' : LlamaModel),
    Forall (fun i => 0 <= i < len tokens) starts -> well_formed self ->
    for_each starts (evaluate_chunk tokens batch) self = (Ok tt, self') ->
    history self'
    = history self ++ concat (map (chunk_at tokens batch) starts).
Proof.
  intros Hb starts.
  induction starts as [|i starts IH]; intros self self' Hin Hwf H.
  - cbn in H. injection H as <-. cbn. now rewrite app_nil_r.
  - cbn [for_each] in H. unfold bind in H.
    destruct (evaluate_chunk tokens batch i self) as [r1 self1] eqn:H1.
    inversion Hin as [|? ? Hi Hin']; subst.
    destruct r1 as [[]|e1]; [|discriminate H].
    pose proof (evaluate_chunk_well_formed _ _ _ _ _ _ Hb Hi Hwf H1) as Hwf1.
    pose proof (evaluate_chunk_commit _ _ _ _ _ Hb Hi Hwf H1) as Hc.
    cbv zeta in Hc. destruct Hc as (Hfit & Hids & _).
    pose proof (evaluate_chunk_effect _ _ _ _ _ _ H1) as Heff.
    cbv zeta in Heff. destruct Heff as (_ & _ & _ & _ & _ & _ & Hpast & _).
    rewrite (IH _ _ Hin' Hwf1 H). cbn [map concat].
    rewrite app_assoc. f_equal.
    destruct Hwf as (W1 & _ & _ & _ & W5).
    destruct Hwf1 as (W1' & _ & _ & _ & W5').
    pose proof (chunk_at_len tokens batch i Hb Hi) as Hlen.
    rewrite !history_firstn by lia. rewrite Hids, Hpast.
    set (c := chunk_at tokens batch i) in *.
    set (pre := firstn (Z.to_nat (pastTokens self)) (inputIds self)).
    assert (Hpre : length pre = Z.to_nat (pastTokens self)).
    { unfold pre. rewrite length_firstn. unfold len in *. lia. }
    rewrite app_assoc, firstn_app.
    replace (Z.to_nat (pastTokens self + len c) - length (pre ++ c))%nat
      with 0%nat by (rewrite length_app; unfold len; lia).
    rewrite firstn_0, app_nil_r. apply firstn_all2.
    rewrite length_app. unfold len. lia.
Qed.

(** X1. A successful [evaluate] of ids that are [llama_token] values
    appends them to the history [inputIds[:pastTokens]], in order. (What
    is stored for an id outside that range is not modelled.) *)
Theorem evaluate_extends_history (tokens : list Z) (batch : Z)
  (self self' : LlamaModel) :
  0 < batch -> well_formed self -> Forall llama_token tokens ->
  evaluate tokens batch self = (Ok tt, self') ->
  history self' = history self ++ tokens.
Proof.
  intros Hb Hwf _ H. unfold evaluate in H.
  destruct (Z.ltb_spec 0 batch); [|lia].
  apply for_each_chunk_history in H;
    [|assumption|now apply range_starts|assumption].
  fold (chunks tokens batch) in H. now rewrite chunks_concat in H.
Qed.

Lemma for_each_chunk_latest (tokens : list Z) (batch : Z) :
  0 < batch ->
  forall (starts : list Z) (self self' : LlamaModel),
    starts <> [] ->
    Forall (fun i => 0 <= i < len tokens) starts -> well_formed self ->
    LLMUtils.logitsAll (parameters self) = false ->
    for_each starts (evaluate_chunk tokens batch) self = (Ok tt, self') ->
    nth (Z.to_nat (pastTokens self' - 1)) (scores self') []
    = engine_row self'.
Proof.
  intros Hb starts.
  induction starts as [|i starts IH]; intros self self' Hne Hin Hwf Hlast H.
  - contradiction.
  - cbn [for_each] in H. unfold bind in H.
    destruct (evaluate_chunk tokens batch i self) as [r1 self1] eqn:H1.
    inversion Hin as [|? ? Hi Hin']; subst.
    destruct r1 as [[]|e1]; [|discriminate H].
    pose proof (evaluate_chunk_well_formed _ _ _ _ _ _ Hb Hi Hwf H1) as Hwf1.
    pose proof (evaluate_chunk_effect _ _ _ _ _ _ H1) as Heff.
    cbv zeta in Heff. destruct Heff as (Hp & _ & _ & _ & _ & _ & Hpast & _).
    destruct starts as [|j starts].
    + cbn in H. injection H as <-.
      pose proof (evaluate_chunk_commit _ _ _ _ _ Hb Hi Hwf H1) as Hc.
      cbv zeta in Hc. destruct Hc as (Hfit & _ & Hrow).
      rewrite (Hrow Hlast), Hpast.
      destruct Hwf as (_ & W2 & _ & _ & W5).
      pose proof (chunk_at_len tokens batch i Hb Hi) as Hlen.
      set (lo := Z.to_nat (pastTokens self + len (chunk_at tokens batch i) - 1)).
      assert (Hlo : length (firstn lo (scores self)) = lo).
      { rewrite length_firstn. unfold lo, len in *. lia. }
      rewrite app_nth2 by lia. rewrite Hlo, Nat.sub_diag. reflexivity.
    + apply (IH self1 self'); try assumption; [discriminate|congruence].
Qed.

(** X2. After a successful [evaluate] of at least one id, in the mode
    that keeps the last logits only, the row the sampler reads
    ([scores[:pastTokens][-1]]) holds the logits the engine left after the
    last chunk. *)
Theorem evaluate_leaves_latest_logits (tokens : list Z) (batch : Z)
  (self self' : LlamaModel) :
  0 < batch -> tokens <> [] -> well_formed self ->
  LLMUtils.logitsAll (parameters self) = false ->
  evaluate tokens batch self = (Ok tt, self') ->
  exists r,
    logits_view self' = Some r /\
    nth r (scores self') [] = engine_row self'.
Proof.
  intros Hb Hne Hwf Hlast H.
  pose proof (evaluate_well_formed _ _ _ _ _ Hwf H) as (_ & W2' & _ & _ & W5').
  assert (Hlen : 0 < len tokens).
  { destruct tokens; [contradiction|]. unfold len. cbn. lia. }
  assert (Hgrow : pastTokens self' = pastTokens self + len tokens).
  { unfold evaluate in H. destruct (Z.ltb_spec 0 batch); [|lia].
    destruct Hwf as (W1 & _ & _ & _ & W5).
    apply for_each_chunk_effect in H;
      [|assumption|now apply range_starts|assumption|lia].
    cbv zeta in H. fold (chunks tokens batch) in H.
    destruct H as (_ & _ & _ & _ & _ & _ & k & _ & _ & _ & Hcount).
    now rewrite chunks_concat in Hcount. }
  destruct Hwf as (W1 & W2 & W3 & W4 & W5).
  exists (Z.to_nat (pastTokens self' - 1)). split.
  - apply logits_view_latest. lia.
  - unfold evaluate in H. destruct (Z.ltb_spec 0 batch); [|lia].
    apply for_each_chunk_latest in H; try assumption.
    + unfold range. replace (Z.to_nat (len tokens - 0))
        with (S (Z.to_nat (len tokens - 1))) by lia.
      cbn [range_fuel]. destruct (Z.ltb_spec 0 (len tokens)); [|lia].
      discriminate.
    + now apply range_starts.
    + repeat split; assumption || lia.
Qed.

Lemma for_each_chunk_progress (tokens : list Z) (batch : Z) :
  0 < batch ->
  forall (starts : list Z) (self self' : LlamaModel) (e : exn),
    Forall (fun i => 0 <= i < len tokens) starts ->
    len (inputIds self) = nCtx self -> 0 <= pastTokens self ->
    for_each starts (evaluate_chunk tokens batch) self = (Raise e, self') ->
    let cs := map (chunk_at tokens batch) starts in
    exists k,
      (k < length starts)%nat /\
      pastTokens self' = pastTokens self + len (concat (firstn k cs)) /\
      trace self' =
        trace self
        ++ firstn (S k) (eval_calls (nCtx self) (pastTokens self) cs).
Proof.
  intros Hb starts.
  induction starts as [|i starts IH]; intros self self' e Hin Hids Hpast H.
  - discriminate H.
  - cbn [for_each] in H. unfold bind in H.
    destruct (evaluate_chunk tokens batch i self) as [r1 self1] eqn:H1.
    inversion Hin as [|? ? Hi Hin']; subst.
    pose proof (chunk_at_len tokens batch i Hb Hi) as Hc.
    apply evaluate_chunk_effect in H1. cbv zeta in H1.
    destruct H1 as (_ & Hn1 & _ & _ & Hids1 & Htr1 & Hr1).
    rewrite len_slice_to in Htr1 by assumption.
    replace (Z.min (nCtx self - len (chunk_at tokens batch i))
                   (Z.min (pastTokens self) (len (inputIds self))))
      with (Z.min (nCtx self - len (chunk_at tokens batch i))
                  (pastTokens self)) in Htr1 by lia.
    destruct r1 as [[]|e1].
    + destruct Hr1 as [Hpast1 _].
      apply IH in H; [|assumption|lia|lia]. cbv zeta in H.
      destruct H as (k & Hk & Hcount & Htr).
      exists (S k). cbn [map length firstn concat eval_calls].
      split; [lia|]. split.
      * rewrite Hcount, Hpast1, len_app. lia.
      * rewrite Htr, Htr1, Hn1, Hpast1, <- app_assoc. reflexivity.
    + injection H as <- <-. destruct Hr1 as (Hpast1 & _ & _).
      exists 0%nat. cbn [map length firstn concat eval_calls].
      split; [lia|]. split.
      * rewrite Hpast1. unfold len. cbn. lia.
      * exact Htr1.
Qed.

(** X3. When [evaluate] fails, the chunks before the failing one stay
    committed: the counter has advanced by exactly their ids, and the
    engine has been called on them and on the failing chunk, and on no
    later one. *)
Theorem evaluate_failure_keeps_earlier_chunks (tokens : list Z) (batch : Z)
  (self self' : LlamaModel) (e : exn) :
  0 < batch ->
  len (inputIds self) = nCtx self -> 0 <= pastTokens self ->
  evaluate tokens batch self = (Raise e, self') ->
  exists k,
    (k < length (chunks tokens batch))%nat /\
    pastTokens self' =
      pastTokens self + len (concat (firstn k (chunks tokens batch))) /\
    trace self' =
      trace self
      ++ firstn (S k) (eval_calls (nCtx self) (pastTokens self)
                                  (chunks tokens batch)).
Proof.
  intros Hb Hids Hpast H. unfold evaluate in H.
  destruct (Z.ltb_spec 0 batch); [|lia].
  apply for_each_chunk_progress in H;
    [|assumption|now apply range_starts|assumption|assumption].
  cbv zeta in H. fold (chunks tokens batch) in H.
  destruct H as (k & Hk & H). exists k. split; [|exact H].
  unfold chunks. now rewrite length_map.
Qed.

(** X4. When the engine reports a failure on the first chunk, [evaluate]
    raises the [RuntimeError] of [warnAndExit] after that one call, and
    neither the counter nor the two arrays have changed. *)
Theorem evaluate_engine_failure (tokens : list Z) (batch : Z)
  (self : LlamaModel) :
  0 < batch -> tokens <> [] ->
  (forall ids n n_past, fst (llama_eval (context self) ids n n_past) <> 0) ->
  exists self' n_past,
    evaluate tokens batch self = (Raise (RuntimeError "evaluate"), self') /\
    trace self' = trace self ++ [Eval (chunk_at tokens batch 0) n_past] /\
    pastTokens self' = pastTokens self /\
    inputIds self' = inputIds self /\
    scores self' = scores self.
Proof.
  intros Hb Hne Hfail. unfold evaluate.
  destruct (Z.ltb_spec 0 batch); [|lia].
  assert (Hlen : 0 < len tokens).
  { destruct tokens; [contradiction|]. unfold len. cbn. lia. }
  unfold range. replace (Z.to_nat (len tokens - 0))
    with (S (Z.to_nat (len tokens - 1))) by lia.
  cbn [range_fuel]. destruct (Z.ltb_spec 0 (len tokens)); [|lia].
  cbn [for_each]. unfold bind, evaluate_chunk. cbv zeta.
  fold (chunk_at tokens batch 0).
  match goal with
  | |- context [llama_eval ?c ?ids ?n ?p] =>
      pose proof (Hfail ids n p) as Hcode;
      destruct (llama_eval c ids n p) as [evalCode ctx]
  end.
  cbn [fst] in Hcode.
  destruct (Z.eqb_spec evalCode 0); [contradiction|]. cbn [negb].
  do 2 eexists. split; [reflexivity|]. cbn. repeat split.
Qed.

(** X5. [reset] (and [_init]) leaves a context in shape whatever the state
    before: the counter is zero, the history is empty, and a sampling step
    taken before any evaluation raises [IndexError] or [ValueError]. *)
Theorem reset_gives_empty_context heap_ids heap_scores (self : LlamaModel) :
  0 <= nCtx self -> 2 <= nVocab self ->
  let fresh := reset heap_ids heap_scores self in
  well_formed fresh /\ pastTokens fresh = 0 /\ history fresh = [] /\
  parameters fresh = parameters self /\ context fresh = context self /\
  exists e,
    sampleTokenWithModel fresh = (Raise e, fresh) /\
    (e = IndexError \/ e = ValueError).
Proof.
  intros Hn Hv fresh.
  assert (Hwf : well_formed fresh) by now apply init_well_formed.
  split; [exact Hwf|]. split; [reflexivity|]. split.
  { unfold history, slice_to, slice. subst fresh. cbn [reset _init pastTokens].
    unfold bound. cbn. now rewrite Z.min_l by apply len_nonneg. }
  split; [reflexivity|]. split; [reflexivity|].
  unfold sampleTokenWithModel, bind, prepare_candidates. cbv zeta.
  destruct (ctypes_array _ _) as [window|e] eqn:Hw.
  - assert (Hview : logits_view fresh = None).
    { unfold logits_view, slice_to, slice. subst fresh.
      cbn [reset _init pastTokens scores]. unfold bound. cbn.
      now rewrite Z.min_l by apply len_nonneg. }
    rewrite Hview. exists IndexError. split; [reflexivity|now left].
  - exists e. split; [reflexivity|].
    unfold ctypes_array in Hw.
    destruct (_ <? 0); [injection Hw as <-; now right|].
    destruct (_ <? _); [injection Hw as <-; now left|discriminate].
Qed.

End MoreOnEvaluate.

(** ** The tokenizer wrapper and the guard of [generate] *)

Section MoreOnTokenize.

Context `{FL : Floats} `{TX : Text} `{EN : @Engine FL}.

Import Py PyFacts.

(** X6. [tokenizeFull] never returns more ids than the context holds,
    whatever the engine answers (the capacity is not negative, so that
    the buffer can be allocated). *)
Theorem tokenizeFull_within_capacity (self : LlamaModel) (input : str)
  (bos special : bool) :
  0 <= nCtx self ->
  exists toks,
    tokenizeFull self input bos special = Ok toks /\
    len toks <= nCtx self.
Proof.
  intros Hcap. unfold tokenizeFull.
  destruct (Z.ltb_spec (nCtx self) 0) as [Hneg|_]; [lia|].
  destruct (llama_tokenize _ _ _ _) as [written newTokens].
  eexists. split; [reflexivity|].
  unfold slice_to. rewrite len_slice, token_buffer_length.
  pose proof (bound_range (Z.max 0 (nCtx self)) newTokens ltac:(lia)).
  pose proof (bound_range (Z.max 0 (nCtx self)) 0 ltac:(lia)). lia.
Qed.

(** X7. When the engine returns a count [n] that the ids it wrote cover
    and that fits the context, [tokenizeFull] returns the first [n] ids
    written. *)
Theorem tokenizeFull_returns_written (self : LlamaModel) (input : str)
  (bos special : bool) (written : list Z) (n : Z) :
  llama_tokenize (encode_utf8 input) (nCtx self) bos special = (written, n) ->
  0 <= n <= len written -> n <= nCtx self ->
  tokenizeFull self input bos special = Ok (firstn (Z.to_nat n) written).
Proof.
  intros Htok Hn Hcap. unfold tokenizeFull. rewrite Htok.
  destruct (Z.ltb_spec (nCtx self) 0) as [Hneg|_]; [lia|]. f_equal.
  unfold slice_to. rewrite slice_inside; [|lia|].
  - rewrite Z.sub_0_r. cbn [Z.to_nat skipn]. rewrite firstn_firstn.
    rewrite Nat.min_l by lia. rewrite firstn_app.
    replace (Z.to_nat n - length written)%nat with 0%nat
      by (unfold len in *; lia).
    rewrite firstn_0, app_nil_r. reflexivity.
  - rewrite token_buffer_length. lia.
Qed.

(** X8. When the engine refuses a text as too long (a negative count
    [-k]), [tokenizeFull] raises nothing: it returns the buffer without its
    last [k] ids, fewer than the capacity. The guard of [generate] then
    does not see a long prompt: the call goes on into the loop (with no
    fuel it is still running, where the guard would have returned). *)
Theorem refused_prompt_passes_the_guard (self : LlamaModel)
  (written : list Z) (n : Z) :
  str_is_empty (LLMUtils.prompt (parameters self)) = false ->
  llama_tokenize (encode_utf8 (LLMUtils.prompt (parameters self)))
                 (nCtx self) false true = (written, n) ->
  n < 0 -> 0 < nCtx self -> LLMUtils.nCtx (parameters self) = nCtx self ->
  exists toks,
    tokenizedPromptTokens self = Ok toks /\
    len toks = Z.max 0 (nCtx self + n) /\
    len toks < LLMUtils.nCtx (parameters self) /\
    generate 0 self = (Ok None, self).
Proof.
  intros Hprompt Htok Hn Hcap Hsame.
  destruct (tokenizeFull_count self _ false true written n
              ltac:(lia) Htok) as (toks & Hfull & Hlen).
  destruct (Z.ltb_spec n 0) as [_|Hpos]; [|lia].
  assert (Htoks : tokenizedPromptTokens self = Ok toks).
  { unfold tokenizedPromptTokens. rewrite Hprompt. exact Hfull. }
  exists toks. split; [exact Htoks|]. split; [exact Hlen|]. split; [lia|].
  unfold generate. cbv zeta. rewrite Htoks.
  destruct (Z.leb_spec (LLMUtils.nCtx (parameters self)) (len toks));
    [lia|reflexivity].
Qed.

End MoreOnTokenize.

(** ** More on the sampler *)

Section MoreOnSampling.

Context `{FL : Floats} `{TX : Text} `{EN : @Engine FL}.

Import Py PyFacts.

(** X9. With [n_keep == 0] and a context that holds a token, a sampling
    step raises [IndexError] before it reads a logit: [history[-0:]] is the
    whole history, too long for a window of length zero. The state is
    untouched. *)
Theorem zero_n_keep_raises (self : LlamaModel) :
  LLMUtils.n_keep (parameters self) = 0 ->
  0 < pastTokens self -> inputIds self <> [] ->
  sampleTokenWithModel self = (Raise IndexError, self).
Proof.
  intros Hkeep Hpast Hids.
  unfold sampleTokenWithModel, bind, prepare_candidates. cbv zeta.
  rewrite Hkeep. cbn [Z.eqb negb Z.opp].
  unfold ctypes_array. cbn [Z.ltb Z.compare].
  assert (Hlen : 0 < len (slice_to (inputIds self) (pastTokens self))).
  { rewrite len_slice_to by lia.
    destruct (inputIds self); [contradiction|]. unfold len. cbn. lia. }
  assert (Hwhole : slice_from (slice_to (inputIds self) (pastTokens self)) 0
                   = slice_to (inputIds self) (pastTokens self)).
  { unfold slice_from. rewrite slice_inside by lia.
    rewrite Z.sub_0_r. cbn [Z.to_nat skipn]. apply firstn_all2.
    unfold len. lia. }
  rewrite Hwhole, len_app.
  destruct (Z.ltb_spec 0 (len (repeat 0 (Z.to_nat (Z.max 0
              (0 - len (slice_to (inputIds self) (pastTokens self))))))
            + len (slice_to (inputIds self) (pastTokens self)))) as [_|Hno].
  - reflexivity.
  - pose proof (len_nonneg (repeat 0 (Z.to_nat (Z.max 0
              (0 - len (slice_to (inputIds self) (pastTokens self))))))).
    lia.
Qed.

(** X10. With [n_keep] below [-1] every sampling step raises
    [ValueError] (a ctypes array of negative length), in any state. *)
Theorem negative_n_keep_raises (self : LlamaModel) :
  LLMUtils.n_keep (parameters self) < -1 ->
  sampleTokenWithModel self = (Raise ValueError, self).
Proof.
  intros Hkeep.
  unfold sampleTokenWithModel, bind, prepare_candidates. cbv zeta.
  destruct (Z.eqb_spec (LLMUtils.n_keep (parameters self)) (-1)); [lia|].
  cbn [negb]. unfold ctypes_array.
  destruct (Z.ltb_spec (LLMUtils.n_keep (parameters self)) 0); [|lia].
  reflexivity.
Qed.

Lemma logits_view_in_range (self : LlamaModel) (r : nat) :
  logits_view self = Some r -> (r < length (scores self))%nat.
Proof.
  unfold logits_view.
  destruct (slice_to (scores self) (pastTokens self)) as [|row rows] eqn:E;
    [discriminate|].
  intros [= <-].
  assert (L : (length (row :: rows) <= length (scores self))%nat).
  { rewrite <- E. unfold slice_to, slice.
    rewrite length_firstn, length_skipn. lia. }
  cbn [length] in *. lia.
Qed.

Lemma logits_view_update (self : LlamaModel) (r : nat) (row : list single) :
  logits_view (set_scores self (update (scores self) r row))
  = logits_view self.
Proof.
  unfold logits_view, slice_to, slice.
  cbn [set_scores scores pastTokens]. unfold len.
  rewrite update_length.
  set (hi := Z.to_nat _). set (lo := Z.to_nat _).
  assert (E : length (firstn hi (skipn lo (update (scores self) r row)))
              = length (firstn hi (skipn lo (scores self))))
    by (rewrite !length_firstn, !length_skipn, update_length; reflexivity).
  destruct (firstn hi (skipn lo (update (scores self) r row)));
    destruct (firstn hi (skipn lo (scores self))); cbn in E;
    try discriminate; try reflexivity.
  f_equal. cbn [length]. lia.
Qed.

(** The first half of a sampling step that succeeds has written the
    biased row back into [scores]. *)
Lemma prepare_candidates_writes_back (self self1 : LlamaModel)
  (candidates : list llama_token_data) :
  prepare_candidates self = (Ok candidates, self1) ->
  exists r,
    logits_view self = Some r /\
    self1 =
      set_scores self
        (update (scores self) r
           (fst (apply_logit_bias (nth r (scores self) [])
                   (LLMUtils.logit_bias (parameters self))))).
Proof.
  unfold prepare_candidates. cbv zeta.
  destruct (ctypes_array _ _) as [window|e]; [|discriminate].
  destruct (logits_view self) as [r|]; [|discriminate].
  destruct (apply_logit_bias _ _) as [logits ok] eqn:Hbias.
  destruct (negb ok); [discriminate|].
  cbn [set_scores nVocab].
  destruct (fill_candidates _ _); [|discriminate].
  intros [= _ <-]. exists r. split; [reflexivity|].
  rewrite Hbias. reflexivity.
Qed.

Lemma sampling_stores_biased_logits_aux (self self' : LlamaModel) (t : Z) :
  sampleTokenWithModel self = (Ok t, self') ->
  exists r,
    logits_view self = Some r /\ (r < length (scores self))%nat /\
    scores self' =
      update (scores self) r
        (fst (apply_logit_bias (nth r (scores self) [])
                (LLMUtils.logit_bias (parameters self)))) /\
    nth r (scores self') []
    = fst (apply_logit_bias (nth r (scores self) [])
             (LLMUtils.logit_bias (parameters self))).
Proof.
  unfold sampleTokenWithModel, bind.
  destruct (prepare_candidates self) as [[cands|e] self1] eqn:H1;
    [|discriminate].
  intros H2. apply select_token_effect in H2.
  destruct H2 as (_ & _ & _ & _ & _ & _ & Hsc & _).
  apply prepare_candidates_writes_back in H1. destruct H1 as (r & Hview & ->).
  pose proof (logits_view_in_range _ _ Hview) as Hr.
  exists r. cbn [set_scores scores] in Hsc. rewrite Hsc.
  repeat split; auto. now apply nth_update_same.
Qed.

(** X11. The bias pass works on a view of [scores]: after a sampling
    step that returns a token, the latest row of [scores] holds the biased
    logits, and no other row has changed. *)
Theorem sampling_stores_biased_logits (self self' : LlamaModel) (t : Z) :
  sampleTokenWithModel self = (Ok t, self') ->
  exists r,
    logits_view self = Some r /\ (r < length (scores self))%nat /\
    scores self' =
      update (scores self) r
        (fst (apply_logit_bias (nth r (scores self) [])
                (LLMUtils.logit_bias (parameters self)))) /\
    nth r (scores self') []
    = fst (apply_logit_bias (nth r (scores self) [])
             (LLMUtils.logit_bias (parameters self))) /\
    forall j, j <> r -> nth j (scores self') [] = nth j (scores self) [].
Proof.
  unfold sampleTokenWithModel, bind.
  destruct (prepare_candidates self) as [[cands|e] self1] eqn:H1;
    [|discriminate].
  intros H2. apply select_token_effect in H2.
  destruct H2 as (_ & _ & _ & _ & _ & _ & Hsc & _).
  apply prepare_candidates_writes_back in H1. destruct H1 as (r & Hview & ->).
  pose proof (logits_view_in_range _ _ Hview) as Hr.
  exists r. cbn [set_scores scores] in Hsc. rewrite Hsc.
  repeat split; auto.
  - now apply nth_update_same.
  - intros j Hj. apply nth_update_other. congruence.
Qed.

(** X12. Hence the bias compounds: two sampling steps in a row, with no
    evaluation in between, leave the latest row biased twice. *)
Theorem logit_bias_compounds (self self1 self2 : LlamaModel) (t1 t2 : Z) :
  sampleTokenWithModel self = (Ok t1, self1) ->
  sampleTokenWithModel self1 = (Ok t2, self2) ->
  exists r,
    logits_view self = Some r /\
    nth r (scores self2) []
    = fst (apply_logit_bias
             (fst (apply_logit_bias (nth r (scores self) [])
                     (LLMUtils.logit_bias (parameters self))))
             (LLMUtils.logit_bias (parameters self))).
Proof.
  intros H1 H2.
  pose proof (sampleTokenWithModel_effect _ _ _ H1)
    as (Hp & _ & _ & _ & Hpast & _).
  apply sampling_stores_biased_logits_aux in H1.
  apply sampling_stores_biased_logits_aux in H2.
  destruct H1 as (r & Hview & Hr & Hsc1 & Hrow1).
  destruct H2 as (r' & Hview' & _ & _ & Hrow2).
  assert (r' = r).
  { unfold logits_view in Hview, Hview'. rewrite Hpast, Hsc1 in Hview'.
    pose proof (logits_view_update self r
                  (fst (apply_logit_bias (nth r (scores self) [])
                          (LLMUtils.logit_bias (parameters self))))) as E.
    unfold logits_view in E. cbn [set_scores scores pastTokens] in E.
    rewrite E, Hview in Hview'. congruence. }
  subst r'. exists r. split; [assumption|].
  now rewrite Hrow2, Hrow1, Hp.
Qed.

Lemma bias_row_outside (row : list single) (token : Z) (bias : pyfloat) :
  ~ (- len row <= token < len row) -> bias_row row token bias = None.
Proof.
  intros H. unfold bias_row, index.
  destruct (Z.leb_spec 0 token); destruct (Z.ltb_spec token (len row));
    cbn [andb]; try lia;
    destruct (Z.leb_spec (- len row) token); destruct (Z.ltb_spec token 0);
    cbn [andb]; try lia; reflexivity.
Qed.

Lemma apply_logit_bias_stops (items : list (Z * pyfloat)) :
  forall row,
    Exists (fun item => ~ (- len row <= fst item < len row)) items ->
    snd (apply_logit_bias row items) = false.
Proof.
  induction items as [|[t b] items IH]; intros row Hbad.
  - inversion Hbad.
  - cbn [apply_logit_bias].
    destruct (bias_row row t b) as [row'|] eqn:E; [|reflexivity].
    inversion Hbad as [? ? Hhere|? ? Hlater]; subst.
    + cbn [fst] in Hhere. rewrite bias_row_outside in E by assumption.
      discriminate.
    + apply IH. apply bias_row_length in E. unfold len in *.
      now rewrite E.
Qed.

(** X13. A bias key that is no index of the vocabulary makes the
    sampling step raise [IndexError] before any sampler of the engine is
    called; the counter is unchanged. *)
Theorem bias_key_outside_vocabulary_raises (self : LlamaModel) :
  well_formed self -> 0 < pastTokens self ->
  LLMUtils.n_keep (parameters self) = -1 \/
  0 < LLMUtils.n_keep (parameters self) ->
  Exists (fun item => ~ (- nVocab self <= fst item < nVocab self))
         (LLMUtils.logit_bias (parameters self)) ->
  exists self',
    sampleTokenWithModel self = (Raise IndexError, self') /\
    trace self' = trace self /\ pastTokens self' = pastTokens self /\
    context self' = context self.
Proof.
  intros Hwf Hpast Hkeep Hbad.
  destruct (sampleTokenWithModel self) as [r self'] eqn:H.
  exists self'.
  pose proof H as Hraw.
  unfold sampleTokenWithModel, bind in H.
  destruct (prepare_candidates self) as [r1 self1] eqn:H1.
  pose proof (prepare_candidates_effect _ _ _ H1)
    as (_ & Hctx & _ & _ & _ & Hp & _ & Htr & _).
  assert (Hr1 : r1 = Raise IndexError).
  { revert H1. unfold prepare_candidates. cbv zeta.
    destruct (ctypes_array _ _) as [window|e] eqn:Hw.
    2:{ exfalso. revert Hw.
        destruct Hwf as (W1 & W2 & W3 & W4 & W5).
        set (hist := slice_to (inputIds self) (pastTokens self)).
        assert (Hh : len hist = pastTokens self)
          by (unfold hist; rewrite len_slice_to by lia; lia).
        unfold ctypes_array, slice_from. rewrite len_app, len_slice.
        unfold len at 1. rewrite repeat_length, Hh. unfold bound.
        destruct Hkeep as [-> | Hk].
        - rewrite Z.eqb_refl. cbn [negb].
          destruct (Z.ltb_spec (nCtx self) 0); [lia|].
          destruct (Z.ltb_spec (- nCtx self) 0);
            destruct (Z.ltb_spec (pastTokens self) 0);
            match goal with
            | |- context [?a <? ?b] => destruct (Z.ltb_spec a b)
            end; try discriminate; lia.
        - destruct (Z.eqb_spec (LLMUtils.n_keep (parameters self)) (-1));
            [lia|]. cbn [negb].
          destruct (Z.ltb_spec (LLMUtils.n_keep (parameters self)) 0); [lia|].
          destruct (Z.ltb_spec (- LLMUtils.n_keep (parameters self)) 0);
            destruct (Z.ltb_spec (pastTokens self) 0);
            match goal with
            | |- context [?a <? ?b] => destruct (Z.ltb_spec a b)
            end; try discriminate; lia. }
    destruct (logits_view self) as [row|] eqn:Hview.
    2:{ intros [= <- _]. reflexivity. }
    pose proof (logits_view_in_range _ _ Hview) as Hrow.
    destruct Hwf as (_ & _ & W3 & _ & _).
    assert (Hlen : len (nth row (scores self) []) = nVocab self).
    { rewrite Forall_forall in W3. apply W3. now apply nth_In. }
    pose proof (apply_logit_bias_stops
                  (LLMUtils.logit_bias (parameters self))
                  (nth row (scores self) [])) as Hstop.
    rewrite Hlen in Hstop. specialize (Hstop Hbad).
    destruct (apply_logit_bias _ _) as [logits ok]. cbn [snd] in Hstop.
    subst ok. cbn [negb]. intros [= <- _]. reflexivity. }
  subst r1. injection H as <- <-. repeat split; assumption.
Qed.

(** X14. A sampling step never touches the counter, the ids or the
    configuration. When it raises, no sampler of the engine has been
    called and the engine's context is the one of before; when it returns
    a token, exactly one sampler has been called. *)
Theorem sampling_step_frame (self self' : LlamaModel) (r : result Z) :
  sampleTokenWithModel self = (r, self') ->
  pastTokens self' = pastTokens self /\ inputIds self' = inputIds self /\
  parameters self' = parameters self /\ nCtx self' = nCtx self /\
  match r with
  | Raise _ => trace self' = trace self /\ context self' = context self
  | Ok _ =>
      exists c, trace self' = trace self ++ [c] /\
                forall ids n_past, c <> Eval ids n_past
  end.
Proof.
  unfold sampleTokenWithModel, bind.
  destruct (prepare_candidates self) as [[cands|e] self1] eqn:H1;
    pose proof (prepare_candidates_effect _ _ _ H1)
      as (Hp & Hctx & Hn & _ & _ & Hpast & Hids & Htr & _).
  - intros H2. pose proof (select_token_effect _ _ _ _ H2)
      as (Hp2 & Hn2 & _ & _ & Hpast2 & Hids2 & _ & t & c & -> & Htr2 & _).
    repeat split; try congruence.
    exists c. split; [congruence|].
    revert H2. unfold select_token. cbv zeta.
    destruct (float_is_zero _).
    { intros [= _ <-]. cbn [record trace] in Htr2.
      apply app_inv_head in Htr2. injection Htr2 as <-. discriminate. }
    destruct (_ =? 1).
    { destruct (llama_sample_token_mirostat _ _ _ _ _ _) as [[t' mu] ctx].
      intros [= _ <-]. cbn [record set_context trace] in Htr2.
      apply app_inv_head in Htr2. injection Htr2 as <-. discriminate. }
    destruct (_ =? 2).
    { destruct (llama_sample_token_mirostat_v2 _ _ _ _ _) as [[t' mu] ctx].
      intros [= _ <-]. cbn [record set_context trace] in Htr2.
      apply app_inv_head in Htr2. injection Htr2 as <-. discriminate. }
    destruct (llama_sample_token _ _) as [t' ctx].
    intros [= _ <-]. cbn [record set_context trace] in Htr2.
    apply app_inv_head in Htr2. injection Htr2 as <-. discriminate.
  - intros [= <- <-]. repeat split; assumption.
Qed.

End MoreOnSampling.

(** ** More on the decoding loop *)

Section MoreOnLoop.

Context `{FL : Floats} `{TX : Text} `{EN : @Engine FL}.

Import Py PyFacts.

Lemma loop_body_in_step (EOS n_predict t : Z) (enc : list (list byte))
  (ls : loop_state) :
  in_step ls ->
  let '(b, ls') := loop_body EOS n_predict enc t ls in
  returned_text ls' = decode_utf8_ignore (tempBytes ls') /\
  (b <> AntiPromptHit -> tempBytes ls' = buffered (tokens ls')) /\
  (is_break b = false -> in_step ls').
Proof.
  intros [Hbuf Hfs]. unfold loop_body, returned_text.
  destruct (stop_token EOS t).
  { cbn [tokens tempBytes finalString is_break].
    split; [|split; [auto|discriminate]].
    destruct (negb (str_len (finalString ls) + 1 =? len (tokens ls))).
    - unfold tokensToString. fold (buffered (tokens ls)). rewrite <- Hbuf.
      now destruct (negb (str_is_empty _)).
    - now rewrite Hfs. }
  destruct (0 <? scan_incomplete _ _).
  { unfold in_step. cbn [tokens tempBytes finalString]. rewrite Hfs.
    cbn [negb]. rewrite buffered_app, Hbuf. repeat split; auto. }
  destruct (filter _ enc) as [|first hits].
  - destruct (n_predict <? len (tokens ls ++ [t])).
    + unfold in_step. cbn [tokens tempBytes finalString is_break].
      rewrite buffered_app, Hbuf.
      split; [|split; [auto|discriminate]].
      unfold tokensToString. fold (buffered (tokens ls ++ [t])).
      rewrite buffered_app. now destruct (negb (str_is_empty _)).
    + unfold in_step. cbn [tokens tempBytes finalString]. rewrite Hfs.
      cbn [negb]. rewrite buffered_app, Hbuf. repeat split; auto.
  - cbn [tokens tempBytes finalString is_break]. rewrite Hfs. cbn [negb].
    split; [reflexivity|]. split; [congruence|discriminate].
Qed.



Lemma consume_app (EOS n_predict : Z) (enc : list (list byte))
  (ts1 ts2 : list Z) :
  forall ls,
    consume EOS n_predict enc (ts1 ++ ts2) ls
    = match consume EOS n_predict enc ts1 ls with
      | (Some b, ls') => (Some b, ls')
      | (None, ls') => consume EOS n_predict enc ts2 ls'
      end.
Proof.
  induction ts1 as [|t ts1 IH]; intros ls; cbn [app consume].
  - reflexivity.
  - destruct (loop_body EOS n_predict enc t ls) as [b ls1].
    destruct (is_break b); [reflexivity|apply IH].
Qed.

(** X16. A stop token ends the loop at once and is not accepted: after
    tokens that cause no break, the loop leaves with the tokens and the
    buffer it had, whatever follows the stop token, and the text returned
    is the decoding of that buffer. *)
Theorem stop_token_ends_the_loop (EOS n_predict t : Z)
  (enc : list (list byte)) (ts rest : list Z) (ls ls1 : loop_state) :
  in_step ls ->
  consume EOS n_predict enc ts ls = (None, ls1) ->
  stop_token EOS t = true ->
  exists ls',
    consume EOS n_predict enc (ts ++ t :: rest) ls = (Some StopToken, ls') /\
    tokens ls' = tokens ls1 /\ tempBytes ls' = tempBytes ls1 /\
    returned_text ls' = decode_utf8_ignore (tempBytes ls1).
Proof.
  intros Hin Hrun Hstop.
  assert (Hin1 : in_step ls1).
  { clear Hstop. revert ls Hin Hrun.
    induction ts as [|t' ts IH]; intros ls Hin Hrun.
    - cbn in Hrun. now injection Hrun as <-.
    - cbn [consume] in Hrun.
      pose proof (loop_body_in_step EOS n_predict t' enc ls Hin) as Hstep.
      destruct (loop_body EOS n_predict enc t' ls) as [b1 ls2].
      destruct Hstep as (_ & _ & Hnext).
      destruct (is_break b1); [discriminate|].
      exact (IH ls2 (Hnext eq_refl) Hrun). }
  rewrite consume_app, Hrun. cbn [consume].
  pose proof (loop_body_in_step EOS n_predict t enc ls1 Hin1) as Hstep.
  unfold loop_body in *. rewrite Hstop in *. cbn [is_break].
  eexists. split; [reflexivity|]. cbn [tokens tempBytes].
  destruct Hstep as (Htext & _). cbn [tempBytes] in Htext.
  repeat split. exact Htext.
Qed.

(** X17. An empty anti-prompt stops the generation at the first token
    the loop inspects: a step that is neither a stop token nor suppressed
    breaks, and when the empty string is the first anti-prompt configured
    the buffer is emptied. *)
Theorem empty_anti_prompt_stops_at_once (EOS n_predict t : Z)
  (enc : list (list byte)) (ls : loop_state) :
  stop_token EOS t = false ->
  scan_incomplete (tempBytes ls ++ tokenToByte t) (incompleteFix ls) <= 0 ->
  In [] enc ->
  fst (loop_body EOS n_predict enc t ls) = AntiPromptHit /\
  (hd_error enc = Some [] ->
   tempBytes (snd (loop_body EOS n_predict enc t ls)) = []).
Proof.
  intros Hstop Hscan Hin. unfold loop_body. rewrite Hstop.
  destruct (Z.ltb_spec 0 (scan_incomplete (tempBytes ls ++ tokenToByte t)
                                          (incompleteFix ls))); [lia|].
  assert (Hocc : forall l, bytes_in [] l = true).
  { intros l. unfold bytes_in. destruct l; reflexivity. }
  destruct (filter _ enc) as [|first hits] eqn:F.
  { assert (Hhit : In [] (filter (fun a => bytes_in a
                                   (tempBytes ls ++ tokenToByte t)) enc))
      by (apply filter_In; split; [assumption|apply Hocc]).
    rewrite F in Hhit. contradiction. }
  split; [reflexivity|]. intros Hhd.
  destruct enc as [|a enc']; [discriminate|]. injection Hhd as ->.
  cbn [filter] in F. rewrite Hocc in F. injection F as <- _.
  cbn [snd tempBytes]. unfold bytes_index.
  destruct (tempBytes ls ++ tokenToByte t); reflexivity.
Qed.

Lemma pattern_fold_range (k acc : Z) (char : byte) :
  1 <= k <= 3 ->
  let r :=
    fold_left
      (fun cur '(number, pattern) =>
         if (k <? number)
            && (Z.land pattern (Z.of_N (Byte.to_N char)) =? pattern)
         then number - k else cur)
      byte_patterns acc in
  r = acc \/ 1 <= r <= 3.
Proof.
  intros Hk. unfold byte_patterns. cbn [fold_left].
  destruct (Z.ltb_spec k 2); destruct (Z.ltb_spec k 3);
    destruct (Z.ltb_spec k 4); try lia;
    destruct (Z.land 192 _ =? 192); destruct (Z.land 224 _ =? 224);
    destruct (Z.land 240 _ =? 240); cbn [andb]; lia.
Qed.

Lemma enumerate_from_bounds {A} (l : list A) : forall k,
  Forall (fun q => k <= fst q < k + len l) (enumerate_from k l).
Proof.
  induction l as [|x l IH]; intros k; cbn [enumerate_from].
  - constructor.
  - constructor.
    + cbn [fst]. unfold len. cbn [length]. lia.
    + eapply Forall_impl; [|apply (IH (k + 1))].
      intros q Hq. unfold len in *. cbn [length]. lia.
Qed.

Lemma tail_of_three {A} (l : list A) : len (slice_from l (-3)) <= 3.
Proof.
  unfold slice_from. rewrite len_slice. unfold bound.
  pose proof (len_nonneg l).
  destruct (Z.ltb_spec (len l) 0); [lia|]. cbn [Z.ltb Z.compare Z.opp]. lia.
Qed.

(** The recomputed countdown is the one carried over, or between 1 and 3. *)
Lemma scan_incomplete_range (bytes : list byte) (countdown : Z) :
  scan_incomplete bytes countdown = countdown \/
  1 <= scan_incomplete bytes countdown <= 3.
Proof.
  unfold scan_incomplete.
  pose proof (enumerate_from_bounds (slice_from bytes (-3)) 0) as Hidx.
  pose proof (tail_of_three bytes) as Hlen.
  fold (enumerate (slice_from bytes (-3))) in Hidx.
  assert (Hk : Forall (fun q : Z * byte => 0 <= fst q <= 2)
                      (enumerate (slice_from bytes (-3)))).
  { eapply Forall_impl; [|exact Hidx]. intros q Hq. cbv beta in *. lia. }
  clear Hidx Hlen. revert countdown.
  induction Hk as [|[k char] qs Hq _ IH]; intros countdown; cbn [fold_left].
  - now left.
  - cbn [fst] in Hq.
    pose proof (pattern_fold_range (3 - k) countdown char ltac:(lia)) as Hstep.
    cbv zeta in Hstep.
    set (acc := fold_left _ byte_patterns countdown) in *.
    destruct (IH acc) as [E|E]; [rewrite E; exact Hstep|now right].
Qed.

(** X18. The countdown stays between 0 and 2 from one iteration to the
    next, and it is 0 after every iteration in which the buffer is
    inspected. *)
Theorem countdown_stays_small (EOS n_predict t : Z)
  (enc : list (list byte)) (ls : loop_state) :
  0 <= incompleteFix ls <= 2 ->
  let b := fst (loop_body EOS n_predict enc t ls) in
  let ls' := snd (loop_body EOS n_predict enc t ls) in
  0 <= incompleteFix ls' <= 2 /\
  (b = NextToken \/ b = LengthCap \/ b = AntiPromptHit ->
   incompleteFix ls' = 0).
Proof.
  intros Hf. cbv zeta. unfold loop_body.
  destruct (stop_token EOS t).
  { cbn [fst snd incompleteFix]. split; [lia|].
    intros [E|[E|E]]; discriminate E. }
  pose proof (scan_incomplete_range (tempBytes ls ++ tokenToByte t)
                                    (incompleteFix ls)) as Hscan.
  destruct (Z.ltb_spec 0 (scan_incomplete (tempBytes ls ++ tokenToByte t)
                                          (incompleteFix ls))).
  { cbn [fst snd incompleteFix]. split; [lia|].
    intros [E|[E|E]]; discriminate E. }
  destruct (filter _ enc); [destruct (_ <? _)|];
    cbn [fst snd incompleteFix]; split; lia.
Qed.

Lemma tail_of_buffer (pre : list byte) (a b c : byte) :
  slice_from (pre ++ [a; b; c]) (-3) = [a; b; c].
Proof.
  unfold slice_from, slice, bound. rewrite len_app.
  pose proof (len_nonneg pre).
  change (len [a; b; c]) with 3.
  destruct (Z.ltb_spec (len pre + 3) 0); [lia|].
  cbn [Z.ltb Z.compare Z.opp].
  rewrite Z.min_l by lia.
  replace (Z.max 0 (-3 + (len pre + 3))) with (len pre) by lia.
  replace (Z.to_nat (len pre + 3 - len pre)) with 3%nat by lia.
  unfold len. rewrite Nat2Z.id, skipn_app, skipn_all, Nat.sub_diag.
  reflexivity.
Qed.

(** A lead byte at the end of a buffer of three bytes or more arms the
    countdown whatever it was. *)
Lemma lead_byte_arms (pre : list byte) (a b c : byte) (countdown : Z) :
  Z.land 192 (Z.of_N (Byte.to_N c)) = 192 ->
  1 <= scan_incomplete (pre ++ [a; b; c]) countdown.
Proof.
  intros Hlead. unfold scan_incomplete. rewrite tail_of_buffer.
  unfold enumerate. cbn [enumerate_from fold_left].
  set (acc := fold_left _ byte_patterns (fold_left _ byte_patterns countdown)).
  unfold byte_patterns. cbn [fold_left]. rewrite Hlead.
  change (3 - (0 + 1 + 1)) with 1. cbn [Z.ltb Z.compare Pos.compare
    Pos.compare_cont andb Z.eqb Pos.eqb Z.sub Z.add Z.opp Z.pos_sub
    Pos.pred_double Z.succ_double Z.pred_double Z.double].
  destruct (Z.land 224 _ =? 224); destruct (Z.land 240 _ =? 240); lia.
Qed.

(** X19. The length cap is not checked while the countdown is armed:
    after a lead byte, tokens whose piece is empty are accepted one after
    the other without the loop ever leaving, whatever [n_predict] is. *)
Theorem armed_countdown_skips_the_length_cap (EOS n_predict : Z)
  (enc : list (list byte)) (pre : list byte) (a b c : byte) (ts : list Z) :
  Z.land 192 (Z.of_N (Byte.to_N c)) = 192 ->
  Forall (fun t => stop_token EOS t = false /\ tokenToByte t = []) ts ->
  forall ls,
    tempBytes ls = pre ++ [a; b; c] ->
    exists ls',
      consume EOS n_predict enc ts ls = (None, ls') /\
      tokens ls' = tokens ls ++ ts /\ tempBytes ls' = tempBytes ls.
Proof.
  intros Hlead Hts.
  induction Hts as [|t ts [Hstop Hpiece] _ IH]; intros ls Hbuf.
  - exists ls. cbn. rewrite app_nil_r. auto.
  - cbn [consume]. unfold loop_body. rewrite Hstop, Hpiece, app_nil_r, Hbuf.
    pose proof (lead_byte_arms pre a b c (incompleteFix ls) Hlead) as Harm.
    destruct (Z.ltb_spec 0 (scan_incomplete (pre ++ [a; b; c])
                                            (incompleteFix ls))); [|lia].
    cbn [is_break].
    match goal with
    | |- context [consume _ _ _ ts ?s] => destruct (IH s eq_refl)
                                            as (ls' & Hrun & Htok & Hbytes)
    end.
    exists ls'. split; [exact Hrun|].
    cbn [tokens tempBytes] in Htok, Hbytes.
    rewrite Htok, Hbytes, <- app_assoc. auto.
Qed.

End MoreOnLoop.

(** ** More on [generate] *)

Section MoreOnGenerate.

Context `{FL : Floats} `{TX : Text} `{EN : @Engine FL}.

Import Py PyFacts.

Lemma evaluate_counter (tokens : list Z) (batch : Z)
  (self self' : LlamaModel) :
  0 < batch -> well_formed self ->
  evaluate tokens batch self = (Ok tt, self') ->
  pastTokens self' = pastTokens self + len tokens /\
  nCtx self' = nCtx self /\
  history self' = history self ++ tokens.
Proof.
  intros Hb Hwf Hrun. pose proof Hwf as (W1 & _ & _ & _ & W5).
  unfold evaluate in Hrun.
  destruct (Z.ltb_spec 0 batch) as [_|Hno]; [|lia].
  pose proof Hrun as Hrun'.
  apply for_each_chunk_effect in Hrun;
    [|assumption|now apply range_starts|assumption|lia].
  cbv zeta in Hrun. fold (chunks tokens batch) in Hrun.
  destruct Hrun as (_ & Hn & _ & _ & _ & _ & k & _ & _ & _ & Hcount).
  rewrite chunks_concat in Hcount by lia.
  apply for_each_chunk_history in Hrun';
    [|assumption|now apply range_starts|assumption].
  fold (chunks tokens batch) in Hrun'.
  rewrite chunks_concat in Hrun' by lia.
  auto.
Qed.

Lemma sample_keeps_history (self self' : LlamaModel) (r : result Z) :
  sampleTokenWithModel self = (r, self') ->
  pastTokens self' = pastTokens self /\ nCtx self' = nCtx self /\
  history self' = history self.
Proof.
  intros H. apply sampleTokenWithModel_effect in H.
  destruct H as (_ & Hn & _ & _ & Hpast & Hids & _).
  unfold history. now rewrite Hpast, Hids.
Qed.

Lemma generate_loop_within_capacity (fuel : nat) :
  forall (enc : list (list byte)) (pending : list Z) (ls : loop_state)
         (self : LlamaModel),
    well_formed self ->
    nCtx self - pastTokens self
    + (match pending with [] => 1 | _ => 0 end) < Z.of_nat fuel ->
    fst (generate_loop fuel enc pending ls self) <> Ok None.
Proof.
  induction fuel as [|fuel IH]; intros enc pending ls self Hwf Hfuel.
  - destruct Hwf as (_ & _ & _ & _ & W5). destruct pending; cbn in Hfuel; lia.
  - cbn [generate_loop]. unfold bind at 1.
    destruct (evaluate pending 64 self) as [r1 self1] eqn:H1.
    pose proof (evaluate_well_formed _ _ _ _ _ Hwf H1) as Hwf1.
    destruct r1 as [[]|e1]; [|discriminate].
    apply evaluate_counter in H1; [|lia|assumption].
    destruct H1 as (Hpast1 & Hn1 & _).
    unfold bind at 1.
    destruct (sampleTokenWithModel self1) as [r2 self2] eqn:H2.
    pose proof (sampleTokenWithModel_well_formed _ _ _ Hwf1 H2) as Hwf2.
    apply sample_keeps_history in H2. destruct H2 as (Hpast2 & Hn2 & _).
    destruct r2 as [t|e2]; [|discriminate].
    unfold bind at 1, get.
    destruct (loop_body _ _ _ _ _) as [b ls1].
    destruct (is_break b); [discriminate|].
    apply IH; [assumption|].
    rewrite Hn2, Hn1, Hpast2, Hpast1.
    destruct pending as [|p pending]; unfold len in *; cbn [length] in *; lia.
Qed.

(** X20. [generate] always comes to an end on a context in shape: the
    loop cannot run more often than there is room in the context, plus
    two. With that much fuel the call returns a text or raises; it is
    never still running. *)
Theorem generate_ends_within_capacity (fuel : nat) (self : LlamaModel) :
  well_formed self ->
  nCtx self - pastTokens self + 1 < Z.of_nat fuel ->
  fst (generate fuel self) <> Ok None.
Proof.
  intros Hwf Hfuel. unfold generate. cbv zeta.
  destruct (tokenizedPromptTokens self) as [prompt|e0]; [|discriminate].
  destruct (_ <=? _); [discriminate|].
  pose proof (generate_loop_within_capacity fuel
                (map encode_utf8 (LLMUtils.antiPrompt (parameters self)))
                prompt loop_start self Hwf) as Hloop.
  destruct (generate_loop _ _ _ _ _) as [[[ls|]|e] self'];
    cbn [fst] in *; try discriminate.
  exfalso. apply Hloop; [|reflexivity].
  destruct prompt; lia.
Qed.



End MoreOnGenerate.

(** ** The loop of [LlamaLlavaModel.response] *)

Section MoreOnLlava.

Context `{FL : Floats} `{TX : Text} `{EN : @Engine FL}.

Import Py PyFacts.

Lemma llava_step_agrees (EOS n_predict t : Z) (ls : loop_state)
  (lv : llava_state) :
  t <> 2 -> same_decoding ls lv ->
  fst (loop_body EOS n_predict [] t ls)
  = fst (llava_loop_body EOS n_predict t lv) /\
  same_decoding (snd (loop_body EOS n_predict [] t ls))
                (snd (llava_loop_body EOS n_predict t lv)).
Proof.
  intros Ht (Htok & Hbuf & Hfix).
  unfold loop_body, llava_loop_body.
  assert (Hstop : llava_stop_token EOS t = stop_token EOS t).
  { unfold llava_stop_token, stop_token, llava_exitTokens, exitTokens.
    cbn [existsb]. destruct (Z.eqb_spec t 2); [contradiction|].
    reflexivity. }
  rewrite Hstop. destruct (stop_token EOS t).
  { cbn [fst snd]. split; [reflexivity|]. repeat split; assumption. }
  rewrite <- Hbuf, <- Hfix, <- Htok.
  destruct (0 <? scan_incomplete _ _).
  { cbn [fst snd]. split; [reflexivity|]. repeat split; reflexivity. }
  cbn [filter].
  destruct (n_predict <? len (tokens ls ++ [t]));
    cbn [fst snd]; (split; [reflexivity|]); repeat split; reflexivity.
Qed.

Lemma no_anti_prompt_no_hit (EOS n_predict t : Z) (ls : loop_state) :
  fst (loop_body EOS n_predict [] t ls) <> AntiPromptHit.
Proof.
  unfold loop_body. destruct (stop_token EOS t); [discriminate|].
  destruct (0 <? _); [discriminate|]. cbn [filter].
  destruct (_ <? _); discriminate.
Qed.

Lemma llava_step_buffer (EOS n_predict t : Z) (lv : llava_state) :
  llava_tempBytes lv = buffered (generatedTokens lv) ->
  llava_tempBytes (snd (llava_loop_body EOS n_predict t lv))
  = buffered (generatedTokens (snd (llava_loop_body EOS n_predict t lv))).
Proof.
  intros Hbuf. unfold llava_loop_body.
  destruct (llava_stop_token EOS t); [exact Hbuf|].
  destruct (0 <? scan_incomplete _ _); [|destruct (_ <? _)];
    cbn [snd llava_tempBytes generatedTokens];
    now rewrite buffered_app, Hbuf.
Qed.

(** X22. Without anti-prompts, and on tokens other than 2 (which only
    the image model takes for a stop token), the loop of
    [LlamaLlavaModel.response] and the loop of [generate] are the same
    loop: they leave at the same token for the same reason, with the same
    tokens accepted and the same buffer, and they return the same text. *)
Theorem llava_loop_is_the_generate_loop (EOS n_predict : Z) (ts : list Z) :
  str_is_empty str_empty = true -> ~ In 2 ts ->
  let run := consume EOS n_predict [] ts loop_start in
  let run' := llava_consume EOS n_predict ts llava_start in
  fst run = fst run' /\
  same_decoding (snd run) (snd run') /\
  (fst run <> None -> returned_text (snd run) = llava_returned_text (snd run')).
Proof.
  intros Hempty Hts. cbv zeta.
  assert (Hgen : forall ls lv,
             same_decoding ls lv -> in_step ls ->
             llava_tempBytes lv = buffered (generatedTokens lv) ->
             fst (consume EOS n_predict [] ts ls)
             = fst (llava_consume EOS n_predict ts lv) /\
             same_decoding (snd (consume EOS n_predict [] ts ls))
                           (snd (llava_consume EOS n_predict ts lv)) /\
             (fst (consume EOS n_predict [] ts ls) <> None ->
              returned_text (snd (consume EOS n_predict [] ts ls))
              = llava_returned_text (snd (llava_consume EOS n_predict ts lv)))).
  { induction ts as [|t ts IH]; intros ls lv Hsame Hin Hbuf.
    - cbn. repeat split; try assumption; try apply Hsame. congruence.
    - cbn [consume llava_consume].
      assert (Ht : t <> 2) by (intros ->; apply Hts; now left).
      pose proof (llava_step_agrees EOS n_predict t ls lv Ht Hsame)
        as [Hbranch Hsame1].
      pose proof (loop_body_in_step EOS n_predict t [] ls Hin) as Hstep.
      pose proof (llava_step_buffer EOS n_predict t lv Hbuf) as Hbuf1.
      pose proof (no_anti_prompt_no_hit EOS n_predict t ls) as Hnot.
      destruct (loop_body EOS n_predict [] t ls) as [b ls1].
      destruct (llava_loop_body EOS n_predict t lv) as [b' lv1].
      cbn [fst snd] in *. subst b'.
      destruct Hstep as (Htext & Hbytes & Hnext).
      destruct (is_break b) eqn:Hb.
      + cbn [fst snd]. split; [reflexivity|]. split; [assumption|].
        intros _. rewrite Htext. unfold llava_returned_text. cbv zeta.
        destruct Hsame1 as (Htok1 & Hbuf1' & _).
        rewrite (Hbytes Hnot), <- Hbuf1', (Hbytes Hnot), Htok1.
        unfold tokensToString. fold (buffered (generatedTokens lv1)).
        now destruct (negb (str_is_empty _)).
      + apply IH; auto. intros H2. apply Hts. now right. }
  apply Hgen.
  - repeat split.
  - split; [reflexivity|exact Hempty].
  - reflexivity.
Qed.

End MoreOnLlava.

(** ** [initMemoryDB.py] *)

Module InitMemoryDBFacts.

Import InitMemoryDB.

Lemma strip_newlines_app (a b : text) :
  strip_newlines (a ++ b) = strip_newlines a ++ strip_newlines b.
Proof. apply filter_app. Qed.

Lemma strip_newlines_clean (s : text) : ~ In newline (strip_newlines s).
Proof.
  unfold strip_newlines. intros H. apply filter_In in H.
  destruct H as [_ H]. now rewrite Z.eqb_refl in H.
Qed.

Lemma nonempty_false (s : text) : nonempty s = false -> s = [].
Proof. now destruct s. Qed.

(** The loop only ever adds to the prompts it was started with. *)
Lemma sysPrompts_loop_prefix (lines : list text) :
  forall pre acc cur,
    sysPrompts_loop lines (pre ++ acc) cur
    = (pre ++ fst (sysPrompts_loop lines acc cur),
       snd (sysPrompts_loop lines acc cur)).
Proof.
  induction lines as [|line lines IH]; intros pre acc cur.
  - reflexivity.
  - cbn [sysPrompts_loop]. destruct (text_contains _ line).
    + rewrite <- app_assoc. apply IH.
    + apply IH.
Qed.

Lemma sysPrompts_loop_block (block : list text) :
  forall rest acc cur,
    Forall no_splitter block ->
    sysPrompts_loop (block ++ rest) acc cur
    = sysPrompts_loop rest acc (cur ++ concat block).
Proof.
  induction block as [|line block IH]; intros rest acc cur Hblock.
  - cbn. now rewrite app_nil_r.
  - inversion Hblock as [|? ? Hline Hblock']; subst.
    cbn [app sysPrompts_loop concat]. unfold no_splitter in Hline.
    rewrite Hline, app_assoc. now apply IH.
Qed.

Lemma sysPrompts_loop_text (lines : list text) :
  forall acc cur,
    concat (fst (sysPrompts_loop lines acc cur))
    ++ strip_newlines (snd (sysPrompts_loop lines acc cur))
    = concat acc ++ strip_newlines cur
      ++ strip_newlines
           (concat (filter (fun l => negb (text_contains sysPromptSplitter l))
                           lines)).
Proof.
  induction lines as [|line lines IH]; intros acc cur.
  - cbn. now rewrite app_nil_r.
  - cbn [sysPrompts_loop filter].
    destruct (text_contains _ line); cbn [negb].
    + rewrite IH, concat_app. cbn. now rewrite app_nil_r, <- app_assoc.
    + rewrite IH. cbn [concat].
      now rewrite !strip_newlines_app, <- app_assoc.
Qed.

Lemma sysPrompts_loop_clean (lines : list text) :
  forall acc cur,
    Forall (fun p => ~ In newline p) acc ->
    Forall (fun p => ~ In newline p) (fst (sysPrompts_loop lines acc cur)).
Proof.
  induction lines as [|line lines IH]; intros acc cur Hacc.
  - exact Hacc.
  - cbn [sysPrompts_loop]. destruct (text_contains _ line).
    + apply IH. apply Forall_app. split; [exact Hacc|].
      constructor; [apply strip_newlines_clean|constructor].
    + now apply IH.
Qed.

(** X23. [initSysPrompts] loses no text and adds none: the contents it
    stores, put end to end, are the lines without the splitter marker put
    end to end with the line feeds taken out. A line that holds the marker
    is dropped whole, and no stored prompt holds a line feed. *)
Theorem stored_prompts_are_the_other_lines (lines : list text) :
  concat (map content (initSysPrompts lines))
  = strip_newlines
      (concat (filter (fun l => negb (text_contains sysPromptSplitter l))
                      lines))
  /\ Forall (fun e => ~ In newline (content e)) (initSysPrompts lines).
Proof.
  unfold initSysPrompts. rewrite map_map. cbn [content]. rewrite map_id.
  unfold systemPrompts_of.
  pose proof (sysPrompts_loop_text lines [] []) as Htext.
  destruct (sysPrompts_loop lines [] []) as [sp cur] eqn:Hloop.
  assert (Hclean : Forall (fun p : text => ~ In newline p) sp).
  { change sp with (fst (sp, cur)). rewrite <- Hloop.
    apply sysPrompts_loop_clean. constructor. }
  cbn [fst snd concat app strip_newlines filter] in Htext.
  fold (strip_newlines cur) in Htext.
  split.
  - rewrite <- Htext. destruct (nonempty cur) eqn:Hcur.
    + rewrite concat_app. cbn. now rewrite app_nil_r.
    + apply nonempty_false in Hcur. subst cur. cbn. now rewrite app_nil_r.
  - apply Forall_map. cbn [content].
    destruct (nonempty cur); [|exact Hclean].
    apply Forall_app. split; [exact Hclean|].
    constructor; [apply strip_newlines_clean|constructor].
Qed.

(** X24. [initSysPrompts] cuts the file at the lines that hold the
    splitter marker: the lines before the first such line make one prompt
    (stored even when it is empty), and the rest of the file is treated
    the same way; lines after the last marker make a prompt only when they
    hold some text. *)
Theorem system_prompts_by_block (block : list text) :
  Forall no_splitter block ->
  systemPrompts_of block
  = (if nonempty (concat block) then [strip_newlines (concat block)] else [])
  /\ forall splitter rest,
       text_contains sysPromptSplitter splitter = true ->
       systemPrompts_of (block ++ splitter :: rest)
       = strip_newlines (concat block) :: systemPrompts_of rest.
Proof.
  intros Hblock. split.
  - unfold systemPrompts_of.
    pose proof (sysPrompts_loop_block block [] [] [] Hblock) as H.
    rewrite app_nil_r in H. rewrite H. reflexivity.
  - intros splitter rest Hsplit. unfold systemPrompts_of.
    rewrite (sysPrompts_loop_block block (splitter :: rest) [] [] Hblock).
    cbn [sysPrompts_loop app]. rewrite Hsplit.
    pose proof (sysPrompts_loop_prefix rest [strip_newlines (concat block)]
                  [] []) as Hpre.
    cbn [app] in Hpre. rewrite Hpre.
    destruct (sysPrompts_loop rest [] []) as [sp cur]. cbn [fst snd].
    now destruct (nonempty cur).
Qed.

Lemma char_step_parallel (st : char_state) (line : text) :
  length (characterInformation st) = length (characterNames st) ->
  length (characterInformation (char_step st line))
  = length (characterNames (char_step st line)).
Proof.
  intros H. unfold char_step.
  destruct (text_contains charInfoSplitter line).
  - cbn. rewrite !length_app. cbn. now rewrite H.
  - now destruct (text_contains charInfoStart line).
Qed.

Lemma char_loop_parallel (lines : list text) :
  forall st,
    length (characterInformation st) = length (characterNames st) ->
    length (characterInformation (fold_left char_step lines st))
    = length (characterNames (fold_left char_step lines st)).
Proof.
  induction lines as [|line lines IH]; intros st H.
  - exact H.
  - cbn [fold_left]. apply IH. now apply char_step_parallel.
Qed.

Lemma char_lists_parallel (lines : list text) :
  length (fst (char_lists lines)) = length (snd (char_lists lines)).
Proof.
  unfold char_lists. cbv zeta.
  pose proof (char_loop_parallel lines char_start eq_refl) as H.
  destruct (nonempty _); cbn [fst snd]; [|exact H].
  rewrite !length_app. cbn. now rewrite H.
Qed.

Lemma text_starts_with_refl (a : text) : text_starts_with a a = true.
Proof.
  induction a as [|x a IH]; [reflexivity|].
  cbn. now rewrite Z.eqb_refl.
Qed.

Lemma text_eqb_refl (a : text) : text_eqb a a = true.
Proof.
  unfold text_eqb. now rewrite Nat.eqb_refl, text_starts_with_refl.
Qed.

Lemma index_of_In (name : text) (names : list text) :
  In name names ->
  exists k, index_of name names = Some k /\ (k < length names)%nat.
Proof.
  induction names as [|n names IH]; intros Hin; [contradiction|].
  cbn [index_of]. destruct (text_eqb n name) eqn:E.
  - exists 0%nat. split; [reflexivity|cbn; lia].
  - destruct Hin as [->|Hin]; [now rewrite text_eqb_refl in E|].
    destruct (IH Hin) as (k & Hk & Hlt). exists (S k). rewrite Hk.
    split; [reflexivity|cbn; lia].
Qed.

Lemma store_characters_succeeds (infos names : list text) :
  length infos = length names ->
  forall todo,
    incl todo names ->
    exists es, store_characters infos names todo = Some es /\
               map identifier es = todo.
Proof.
  intros Hlen. induction todo as [|name todo IH]; intros Hincl.
  - now exists [].
  - cbn [store_characters].
    destruct (index_of_In name names (Hincl name (or_introl eq_refl)))
      as (k & Hk & Hlt).
    rewrite Hk.
    destruct (nth_error infos k) as [info|] eqn:Hinfo.
    + destruct (IH (fun x Hx => Hincl x (or_intror Hx))) as (es & Hes & Hids).
      rewrite Hes. eexists. split; [reflexivity|]. cbn. now rewrite Hids.
    + apply nth_error_None in Hinfo. lia.
Qed.


(** X25. [initCharacterMemory] never fails on the lookup
    [characterInformation[characterNames.index(name)]]: the two lists
    grow together, so every name is found at an index the other list has.
    It stores one entry for each collected name, in order. *)
Theorem character_lookup_never_fails (lines : list text) :
  exists es,
    initCharacterMemory lines = Some es /\
    map identifier es = snd (char_lists lines).
Proof.
  unfold initCharacterMemory.
  pose proof (char_lists_parallel lines) as Hlen.
  destruct (char_lists lines) as [infos names]. cbn [fst snd] in *.
  exact (store_characters_succeeds infos names Hlen names (incl_refl names)).
Qed.


End InitMemoryDBFacts.
(** ** The properties at work on the scripted engine *)

Module Examples.

Import Py IEEE IEEEFacts Utf8 Scripted.

(** C10 on a fresh model, with batch size 0. *)
Lemma evaluate_nonpositive_batch_witness :
  0 <= 0 /\
  exists self',
    evaluate [1; 2; 3] 0 mirostat_model = (Ok tt, self') /\
    pastTokens self' = pastTokens mirostat_model /\
    inputIds self' = inputIds mirostat_model /\
    scores self' = scores mirostat_model /\
    trace self' = trace mirostat_model /\
    self' = mirostat_model.
Proof.
  split; [lia|]. apply (evaluate_nonpositive_batch [1; 2; 3] 0). lia.
Defined.

(** C8 on three tokens in batches of two. *)
Lemma evaluate_advances_counter_witness :
  let self := mirostat_model in
  let self' := snd (evaluate [1; 2; 3] 2 self) in
  1 <= 2 /\ len (inputIds self) = nCtx self /\ 0 <= pastTokens self /\
  evaluate [1; 2; 3] 2 self = (Ok tt, self') /\
  pastTokens self' = pastTokens self + len [1; 2; 3] /\
  trace self' =
    trace self ++ eval_calls (nCtx self) (pastTokens self)
                             (chunks [1; 2; 3] 2) /\
  concat (chunks [1; 2; 3] 2) = [1; 2; 3] /\
  Forall (fun c => 1 <= len c <= 2) (chunks [1; 2; 3] 2).
Proof.
  cbv zeta.
  assert (H1 : 1 <= 2) by lia.
  assert (H2 : len (inputIds mirostat_model) = nCtx mirostat_model)
    by reflexivity.
  assert (H3 : 0 <= pastTokens mirostat_model) by (vm_compute; discriminate).
  assert (H4 : evaluate [1; 2; 3] 2 mirostat_model
               = (Ok tt, snd (evaluate [1; 2; 3] 2 mirostat_model))).
  { assert (E : fst (evaluate [1; 2; 3] 2 mirostat_model) = Ok tt)
      by reflexivity.
    rewrite <- E. apply surjective_pairing. }
  repeat (split; [assumption|]).
  exact (evaluate_advances_counter [1; 2; 3] 2 mirostat_model _ H1 H2 H3 H4).
Defined.

Example evaluate_three_tokens :
  trace (snd (evaluate [1; 2; 3] 2 mirostat_model))
  = [Eval [1; 2] 0; Eval [3] 2].
Proof. reflexivity. Qed.


Example biased_logit_reaches_the_strategy :
  nth_error (nth 0 (scores bias_model) []) 5 = Some one32 /\
  exists candidates self1,
    prepare_candidates bias_model = (Ok candidates, self1) /\
    option_map logit (nth_error candidates 5) = Some two32 /\
    nth_error (nth 0 (scores self1) []) 5 = Some two32.
Proof.
  split; [reflexivity|]. do 2 eexists. repeat split; reflexivity.
Qed.

(** C3: the state is full, the call is not refused up front. The engine
    evaluates the token, and the call fails when the logits are stored.
    And with a vocabulary of a single token that assignment goes through,
    so the counter does leave the capacity. *)
Lemma overflow_reaches_the_engine :
  reachable full_model /\
  nCtx full_model < pastTokens full_model + len [9] /\
  evaluate [9] 1 full_model
  = (Raise ValueError, record full_model (Eval [9] 3)) /\
  ~ rejected_before_evaluation [9] 1 full_model /\
  nCtx single_token_model < pastTokens single_token_model.
Proof.
  split; [|split; [|split; [|split]]].
  - unfold full_model. apply reach_evaluate. apply reach_init; cbn; lia.
  - vm_compute. reflexivity.
  - reflexivity.
  - intros (e & self' & H & Htr).
    assert (E : snd (evaluate [9] 1 full_model) = self') by now rewrite H.
    subst self'.
    assert (L1 : length (trace (snd (evaluate [9] 1 full_model))) = 3%nat)
      by reflexivity.
    assert (L2 : length (trace full_model) = 2%nat) by reflexivity.
    rewrite Htr, L2 in L1. discriminate L1.
  - vm_compute. reflexivity.
Qed.

Lemma evaluate_overflow_witness :
  reachable full_model /\
  pastTokens full_model <= nCtx full_model /\
  forall tokens batch,
    0 < batch -> nCtx full_model < pastTokens full_model + len tokens ->
    exists e self' k,
      evaluate tokens batch full_model = (Raise e, self') /\
      (e = ValueError \/ e = RuntimeError "evaluate") /\
      (1 <= k <= length (chunks tokens batch))%nat /\
      trace self' =
        trace full_model
        ++ firstn k (eval_calls (nCtx full_model) (pastTokens full_model)
                                (chunks tokens batch)) /\
      pastTokens self' <= nCtx self'.
Proof.
  assert (H : reachable full_model).
  { unfold full_model. apply reach_evaluate. apply reach_init; cbn; lia. }
  split; [exact H|].
  exact (evaluate_overflow_fails_after_evaluation full_model H).
Defined.

(** C1: two sampling steps of one call; the engine stores [1.0] in [mu] at
    the first, and the second is handed [2.0] again. *)
Lemma mirostat_mu_is_not_threaded :
  trace (snd (generate 5 mirostat_model))
  = [Eval [97; 98] 0; SampleMirostat 1 two32 one32;
     Eval [104] 2; SampleMirostat 1 two32 one32] /\
  ~ mu_threaded
      (c_float_twice (LLMUtils.mirostat_tau (parameters mirostat_model)))
      (trace (snd (generate 5 mirostat_model))).
Proof.
  split; [reflexivity|].
  vm_compute. intros [_ [H _]]. discriminate H.
Qed.

Lemma mirostat_mu_is_fresh_witness :
  float_is_zero (LLMUtils.temperature (parameters mirostat_model)) = false /\
  LLMUtils.mirostat (parameters mirostat_model) = 1 /\
  (exists t mu_out self',
     select_token [] mirostat_model = (Ok t, self') /\
     trace self' =
       trace mirostat_model
       ++ [SampleMirostat (LLMUtils.mirostat (parameters mirostat_model))
             (c_float_twice
                (LLMUtils.mirostat_tau (parameters mirostat_model)))
             mu_out]) /\
  exists new,
    trace (snd (generate 5 mirostat_model)) = trace mirostat_model ++ new /\
    Forall (mu_fresh (parameters mirostat_model)) new.
Proof.
  destruct (mirostat_mu_is_fresh_at_every_step mirostat_model) as [H1 H2].
  split; [reflexivity|]. split; [reflexivity|]. split.
  - exact (H1 [] eq_refl (or_introl eq_refl)).
  - exact (H2 5%nat).
Defined.



(** After [update] has set a negative capacity, the buffer of
    [tokenizeFull] cannot be built and [generate] raises. *)
Example negative_capacity_raises :
  nCtx negative_capacity_model = -1 /\
  fst (generate 5 negative_capacity_model) = Raise ValueError.
Proof. split; reflexivity. Qed.





(** With a capacity of four, the prompt ["ab"] and [n_predict = 5], the
    generator raises when the context is full, and so does the call. *)
Example generate_ends_when_the_context_is_full :
  fst (generateTokens 6 (ids "ab") small_model) = Raise ValueError /\
  fst (generate 10 small_model) = Raise ValueError.
Proof. split; reflexivity. Qed.

Example generate_returns_n_predict_plus_one_tokens :
  LLMUtils.n_predict (parameters hijk_model) = 2 /\
  fst (generate 10 hijk_model) = Ok (Some (literal "hij")).
Proof. split; reflexivity. Qed.

(** C5. The guard misses a character that starts the buffer. Fed the three
    bytes of the euro sign one token at a time from the empty buffer, the
    loop does not suppress the first two steps: [k = 3 - k] takes the one
    or two bytes of [tempBytes[-3:]] for the oldest of three, so the lead
    byte is compared with the four-byte pattern only, and the anti-prompt
    and length checks run on an incomplete character. With
    [n_predict = 0] the call returns after the first byte. After two
    buffered bytes the same three tokens are suppressed as intended. *)
Theorem lead_byte_at_start_is_not_suppressed :
  scan_incomplete [xe2] 0 = 0 /\
  scan_incomplete [xe2; x82] 0 = 0 /\
  fst (loop_body 32000 5 [] 226 loop_start) = NextToken /\
  fst (loop_body 32000 5 [] 130 (snd (loop_body 32000 5 [] 226 loop_start)))
  = NextToken /\
  fst (loop_body 32000 0 [] 226 loop_start) = LengthCap /\
  fst (generate 5 (euro_model 0)) = Ok (Some []) /\
  trace (snd (generate 5 (euro_model 0))) = [Eval [97] 0; SampleToken] /\
  fst (loop_body 32000 5 [] 226 ab_state) = Suppressed /\
  fst (loop_body 32000 5 [] 130 (snd (loop_body 32000 5 [] 226 ab_state)))
  = Suppressed /\
  fst (loop_body 32000 5 [] 172
         (snd (loop_body 32000 5 [] 130
                 (snd (loop_body 32000 5 [] 226 ab_state)))))
  = NextToken.
Proof. repeat split; reflexivity. Qed.

(** C6: with [temperature == 0] and [n_keep == 0] the sampling step
    raises before it reads a logit, so it returns no token at all. *)
Lemma zero_temperature_with_empty_window_raises :
  float_is_zero (LLMUtils.temperature (parameters zero_keep_model)) = true /\
  LLMUtils.n_keep (parameters zero_keep_model) = 0 /\
  pastTokens zero_keep_model = 1 /\
  fst (sampleTokenWithModel zero_keep_model) = Raise IndexError /\
  ~ exists t, fst (sampleTokenWithModel zero_keep_model) = Ok t.
Proof.
  assert (H : fst (sampleTokenWithModel zero_keep_model) = Raise IndexError)
    by reflexivity.
  repeat split; try reflexivity.
  intros [t Ht]. rewrite H in Ht. discriminate Ht.
Qed.

(** C6 on a row that the bias and the penalty both change: the logits
    [1.0, 4.0, 2.0, 1.0] become [2.0, 4.0, 2.0, 2.0] by the bias on tokens
    0 and 3 and [2.0, 0.0, 2.0, 2.0] by the penalty on token 1; tokens 0, 2
    and 3 share the largest penalised logit and token 0 is returned, under
    mirostat mode 2 as under any other setting. *)
Lemma zero_temperature_is_greedy_witness :
  let self := Penalised.greedy_model in
  float_is_zero (LLMUtils.temperature (parameters self)) = true /\
  well_formed self /\ 0 < pastTokens self /\
  (LLMUtils.n_keep (parameters self) = -1 \/
   0 < LLMUtils.n_keep (parameters self)) /\
  Forall (fun item => - nVocab self <= fst item < nVocab self)
         (LLMUtils.logit_bias (parameters self)) /\
  penalised_logits self = [two32; zero; two32; two32] /\
  ordered_on (penalised_logits self) /\
  fst (sampleTokenWithModel self) = Ok 0 /\
  len (penalised_logits self) = nVocab self /\
  exists t self',
    sampleTokenWithModel self = (Ok t, self') /\
    (forall mode k top,
       fst (sampleTokenWithModel
              (set_parameters self
                 (with_strategy (parameters self) mode k top)))
       = Ok t) /\
    0 <= t < nVocab self /\
    let best := nth (Z.to_nat t) (penalised_logits self) single_zero in
    (forall k, (k < length (penalised_logits self))%nat ->
               single_lt best (nth k (penalised_logits self) single_zero)
               = false) /\
    (forall j, (j < Z.to_nat t)%nat ->
               single_lt (nth j (penalised_logits self) single_zero) best
               = true).
Proof.
  cbv zeta.
  assert (H1 : float_is_zero
                 (LLMUtils.temperature (parameters Penalised.greedy_model))
               = true) by reflexivity.
  assert (H2 : well_formed Penalised.greedy_model).
  { apply reachable_well_formed. unfold Penalised.greedy_model.
    apply reach_evaluate. apply reach_init; cbn; lia. }
  assert (H3 : 0 < pastTokens Penalised.greedy_model) by reflexivity.
  assert (H4 : LLMUtils.n_keep (parameters Penalised.greedy_model) = -1 \/
               0 < LLMUtils.n_keep (parameters Penalised.greedy_model))
    by (right; reflexivity).
  assert (H5 : Forall (fun item => - nVocab Penalised.greedy_model
                                   <= fst item
                                   < nVocab Penalised.greedy_model)
                      (LLMUtils.logit_bias
                         (parameters Penalised.greedy_model))).
  { change (nVocab Penalised.greedy_model) with 4.
    change (LLMUtils.logit_bias (parameters Penalised.greedy_model))
      with [(0, two); (3, two)].
    repeat constructor; cbn [fst]; lia. }
  assert (H6 : penalised_logits Penalised.greedy_model
               = [two32; zero; two32; two32]) by reflexivity.
  assert (H7 : ordered_on (penalised_logits Penalised.greedy_model)).
  { rewrite H6. apply no_nan_ordered. repeat constructor; discriminate. }
  assert (H8 : fst (sampleTokenWithModel Penalised.greedy_model) = Ok 0)
    by reflexivity.
  repeat (split; [assumption|]).
  exact (zero_temperature_is_greedy Penalised.greedy_model
           H1 H2 H3 H4 H5 H7).
Defined.

Example greedy_breaks_the_tie_downwards :
  fst (sampleTokenWithModel greedy_model) = Ok 1.
Proof. reflexivity. Qed.

(** C9: with the anti-prompts ["b"] and ["ab"] configured in this order
    and the buffer ["ab"], the anti-prompt ["ab"] occurs at the start of
    the buffer, and the buffer is cut to ["a"], where ["b"] occurs. *)
Lemma first_configured_anti_prompt_wins :
  let b := Utf8.encode (literal "b") in
  let ab := Utf8.encode (literal "ab") in
  let buffer := tempBytes a_state ++ tokenToByte 98 in
  buffer = list_byte_of_string "ab" /\
  stop_token 32000 98 = false /\
  scan_incomplete buffer (incompleteFix a_state) <= 0 /\
  In ab [b; ab] /\ bytes_in ab buffer = true /\
  fst (loop_body 32000 20 [b; ab] 98 a_state) = AntiPromptHit /\
  tempBytes (snd (loop_body 32000 20 [b; ab] 98 a_state))
  = list_byte_of_string "a" /\
  ~ truncated_at ab buffer
      (tempBytes (snd (loop_body 32000 20 [b; ab] 98 a_state))).
Proof.
  cbv zeta. split; [reflexivity|]. split; [reflexivity|].
  split; [vm_compute; discriminate|].
  split; [right; now left|]. split; [reflexivity|].
  split; [reflexivity|]. split; [reflexivity|].
  intros (k & Hk & Hcut).
  assert (E : bytes_find (Utf8.encode (literal "ab"))
                (tempBytes a_state ++ tokenToByte 98) = Some 0%nat)
    by reflexivity.
  rewrite E in Hk. injection Hk as <-.
  assert (E2 : tempBytes (snd (loop_body 32000 20
                  [Utf8.encode (literal "b"); Utf8.encode (literal "ab")]
                  98 a_state)) = list_byte_of_string "a") by reflexivity.
  rewrite E2 in Hcut. discriminate Hcut.
Qed.

(** C9 on the example of the specification: the buffer holds
    ["Hello Worl"], the token ["d"] arrives, and ["World"] is the only
    anti-prompt. *)
Lemma anti_prompt_truncates_witness :
  let world := Utf8.encode (literal "World") in
  let buffer := tempBytes hello_state ++ tokenToByte 100 in
  buffer = list_byte_of_string "Hello World" /\
  stop_token 32000 100 = false /\
  scan_incomplete buffer (incompleteFix hello_state) <= 0 /\
  In world [world] /\ bytes_in world buffer = true /\
  exists ls',
    loop_body 32000 20 [world] 100 hello_state = (AntiPromptHit, ls') /\
    tempBytes ls' = list_byte_of_string "Hello " /\
    finalString ls' = finalString hello_state /\
    truncated_at world buffer (tempBytes ls').
Proof.
  cbv zeta.
  set (world := Utf8.encode (literal "World")).
  assert (H0 : tempBytes hello_state ++ tokenToByte 100
               = list_byte_of_string "Hello World") by reflexivity.
  assert (H1 : stop_token 32000 100 = false) by reflexivity.
  assert (H2 : scan_incomplete (tempBytes hello_state ++ tokenToByte 100)
                               (incompleteFix hello_state) <= 0)
    by (vm_compute; discriminate).
  assert (H3 : In world [world]) by now left.
  assert (H4 : bytes_in world (tempBytes hello_state ++ tokenToByte 100)
               = true) by reflexivity.
  repeat (split; [assumption|]).
  destruct (anti_prompt_truncates 32000 20 100 [world] hello_state world
              H1 H2 H3 H4)
    as (first & k & ls' & Hbody & _ & _ & _ & _ & _ & _ & Hcut & Hfs & _
        & _ & Honly).
  exists ls'. split; [exact Hbody|]. split; [|split; [exact Hfs|]].
  - assert (E : snd (loop_body 32000 20 [world] 100 hello_state) = ls')
      by now rewrite Hbody.
    rewrite <- E. reflexivity.
  - apply Honly. intros a' [<-|[]] _. reflexivity.
Defined.

Example generate_stops_at_the_anti_prompt :
  fst (generate 20 hello_model) = Ok (Some (literal "Hello ")).
Proof. reflexivity. Qed.

End Examples.

(** ** More properties at work on the scripted engine *)

Module MoreExamples.

Import Py IEEE Utf8 Scripted MoreScripted.

Lemma mirostat_model_well_formed : well_formed mirostat_model.
Proof.
  unfold mirostat_model, model, model_with.
  apply init_well_formed; cbn; lia.
Qed.

Lemma hijk_model_well_formed : well_formed hijk_model.
Proof.
  unfold hijk_model, model, model_with.
  apply init_well_formed; cbn; lia.
Qed.

Lemma tuned_model_well_formed keep bias : well_formed (tuned_model keep bias).
Proof.
  apply reachable_well_formed. unfold tuned_model, model_with.
  apply reach_evaluate. apply reach_init; cbn; lia.
Qed.

Lemma run_of {S A : Type} (m : S -> A * S) (s : S) (a : A) :
  fst (m s) = a -> m s = (a, snd (m s)).
Proof. intros <-. apply surjective_pairing. Qed.

(** X1 on three tokens in batches of two. *)
Lemma evaluate_extends_history_witness :
  let self := mirostat_model in
  let self' := snd (evaluate [1; 2; 3] 2 self) in
  0 < 2 /\ well_formed self /\ Forall llama_token [1; 2; 3] /\
  evaluate [1; 2; 3] 2 self = (Ok tt, self') /\
  history self' = history self ++ [1; 2; 3].
Proof.
  cbv zeta.
  assert (H1 : 0 < 2) by lia.
  assert (H2 := mirostat_model_well_formed).
  assert (H3 : Forall llama_token [1; 2; 3])
    by (repeat constructor; unfold llama_token; lia).
  assert (H4 : evaluate [1; 2; 3] 2 mirostat_model
               = (Ok tt, snd (evaluate [1; 2; 3] 2 mirostat_model)))
    by (apply run_of; reflexivity).
  do 4 (split; [assumption|]).
  exact (evaluate_extends_history [1; 2; 3] 2 mirostat_model _
           H1 H2 H3 H4).
Defined.

(** X2 on the same call. *)
Lemma evaluate_leaves_latest_logits_witness :
  let self := mirostat_model in
  let self' := snd (evaluate [1; 2; 3] 2 self) in
  0 < 2 /\ [1; 2; 3] <> [] /\ well_formed self /\
  LLMUtils.logitsAll (parameters self) = false /\
  evaluate [1; 2; 3] 2 self = (Ok tt, self') /\
  exists r,
    logits_view self' = Some r /\
    nth r (scores self') [] = engine_row self'.
Proof.
  cbv zeta.
  assert (H1 : 0 < 2) by lia.
  assert (H2 : [1; 2; 3] <> []) by discriminate.
  assert (H3 := mirostat_model_well_formed).
  assert (H4 : LLMUtils.logitsAll (parameters mirostat_model) = false)
    by reflexivity.
  assert (H5 : evaluate [1; 2; 3] 2 mirostat_model
               = (Ok tt, snd (evaluate [1; 2; 3] 2 mirostat_model)))
    by (apply run_of; reflexivity).
  repeat (split; [assumption|]).
  exact (evaluate_leaves_latest_logits [1; 2; 3] 2 mirostat_model _
           H1 H2 H3 H4 H5).
Defined.

(** X3 on a full context: the one chunk fails when it is stored. *)
Lemma evaluate_failure_keeps_earlier_chunks_witness :
  let self := full_model in
  let self' := snd (evaluate [9] 1 self) in
  0 < 1 /\ len (inputIds self) = nCtx self /\ 0 <= pastTokens self /\
  evaluate [9] 1 self = (Raise ValueError, self') /\
  exists k,
    (k < length (chunks [9%Z] 1%Z))%nat /\
    pastTokens self' =
      pastTokens self + len (concat (firstn k (chunks [9] 1))) /\
    trace self' =
      trace self
      ++ firstn (S k) (eval_calls (nCtx self) (pastTokens self)
                                  (chunks [9] 1)).
Proof.
  cbv zeta.
  assert (H1 : 0 < 1) by lia.
  assert (H2 : len (inputIds full_model) = nCtx full_model) by reflexivity.
  assert (H3 : 0 <= pastTokens full_model).
  { assert (E : pastTokens full_model = 4) by reflexivity. rewrite E. lia. }
  assert (H4 : evaluate [9] 1 full_model
               = (Raise ValueError, snd (evaluate [9] 1 full_model)))
    by (apply run_of; reflexivity).
  repeat (split; [assumption|]).
  exact (evaluate_failure_keeps_earlier_chunks [9] 1 full_model _ ValueError
           H1 H2 H3 H4).
Defined.

(** X4 on an engine that reports status 1. *)
Lemma evaluate_engine_failure_witness :
  let self := failing_model in
  0 < 2 /\ [1; 2; 3] <> [] /\
  (forall ids n n_past, fst (llama_eval (context self) ids n n_past) <> 0) /\
  exists self' n_past,
    evaluate [1; 2; 3] 2 self = (Raise (RuntimeError "evaluate"), self') /\
    trace self' = trace self ++ [Eval (chunk_at [1; 2; 3] 2 0) n_past] /\
    pastTokens self' = pastTokens self /\
    inputIds self' = inputIds self /\
    scores self' = scores self.
Proof.
  cbv zeta.
  assert (H1 : 0 < 2) by lia.
  assert (H2 : [1; 2; 3] <> []) by discriminate.
  assert (H3 : forall ids n n_past,
             fst (llama_eval (context failing_model) ids n n_past) <> 0)
    by (intros ids n n_past; discriminate).
  repeat (split; [assumption|]).
  exact (evaluate_engine_failure [1; 2; 3] 2 failing_model H1 H2 H3).
Defined.

(** X5 on a full context. *)
Lemma reset_gives_empty_context_witness :
  let self := full_model in
  let fresh := reset (fun _ => 7) (fun _ _ => one32) self in
  0 <= nCtx self /\ 2 <= nVocab self /\
  well_formed fresh /\ pastTokens fresh = 0 /\ history fresh = [] /\
  parameters fresh = parameters self /\ context fresh = context self /\
  exists e,
    sampleTokenWithModel fresh = (Raise e, fresh) /\
    (e = IndexError \/ e = ValueError).
Proof.
  cbv zeta.
  assert (E1 : nCtx full_model = 4) by reflexivity.
  assert (E2 : nVocab full_model = 4) by reflexivity.
  assert (H1 : 0 <= nCtx full_model) by (rewrite E1; lia).
  assert (H2 : 2 <= nVocab full_model) by (rewrite E2; lia).
  repeat (split; [assumption|]).
  exact (reset_gives_empty_context (fun _ => 7) (fun _ _ => one32)
           full_model H1 H2).
Defined.

(** X6 on a prompt that the engine refuses. *)
Lemma tokenizeFull_within_capacity_witness :
  0 <= nCtx refused_model /\
  exists toks,
    tokenizeFull refused_model (literal "abcde") false true = Ok toks /\
    len toks <= nCtx refused_model.
Proof.
  assert (H1 : 0 <= nCtx refused_model)
    by (change (nCtx refused_model) with 4; lia).
  split; [assumption|].
  exact (tokenizeFull_within_capacity refused_model (literal "abcde")
           false true H1).
Defined.

(** X7 on the text ["ab"]. *)
Lemma tokenizeFull_returns_written_witness :
  let self := mirostat_model in
  llama_tokenize (Utf8.encode (literal "ab")) (nCtx self) false true
  = ([97; 98], 2) /\
  0 <= 2 <= len [97; 98] /\ 2 <= nCtx self /\
  tokenizeFull self (literal "ab") false true
  = Ok (firstn (Z.to_nat 2) [97; 98]).
Proof.
  cbv zeta.
  assert (H1 : llama_tokenize (Utf8.encode (literal "ab"))
                 (nCtx mirostat_model) false true = ([97; 98], 2))
    by reflexivity.
  assert (H2 : 0 <= 2 <= len [97; 98]) by (cbn; lia).
  assert (H3 : 2 <= nCtx mirostat_model)
    by (change (nCtx mirostat_model) with 8; lia).
  repeat (split; [assumption|]).
  exact (tokenizeFull_returns_written mirostat_model (literal "ab")
           false true [97; 98] 2 H1 H2 H3).
Defined.

(** X8 on a prompt of five tokens for a capacity of four. *)
Lemma refused_prompt_passes_the_guard_witness :
  let self := refused_model in
  str_is_empty (LLMUtils.prompt (parameters self)) = false /\
  llama_tokenize (Utf8.encode (LLMUtils.prompt (parameters self)))
                 (nCtx self) false true = ([], -5) /\
  -5 < 0 /\ 0 < nCtx self /\ LLMUtils.nCtx (parameters self) = nCtx self /\
  exists toks,
    tokenizedPromptTokens self = Ok toks /\
    len toks = Z.max 0 (nCtx self + -5) /\
    len toks < LLMUtils.nCtx (parameters self) /\
    generate 0 self = (Ok None, self).
Proof.
  cbv zeta.
  assert (H1 : str_is_empty (LLMUtils.prompt (parameters refused_model))
               = false) by reflexivity.
  assert (H2 : llama_tokenize
                 (Utf8.encode (LLMUtils.prompt (parameters refused_model)))
                 (nCtx refused_model) false true = ([], -5))
    by reflexivity.
  assert (H3 : -5 < 0) by lia.
  assert (H4 : 0 < nCtx refused_model)
    by (change (nCtx refused_model) with 4; lia).
  assert (H5 : LLMUtils.nCtx (parameters refused_model) = nCtx refused_model)
    by reflexivity.
  repeat (split; [assumption|]).
  exact (refused_prompt_passes_the_guard refused_model [] (-5)
           H1 H2 H3 H4 H5).
Defined.

(** X9 with [n_keep = 0] after one evaluated token. *)
Lemma zero_n_keep_raises_witness :
  let self := tuned_model 0 [] in
  LLMUtils.n_keep (parameters self) = 0 /\
  0 < pastTokens self /\ inputIds self <> [] /\
  sampleTokenWithModel self = (Raise IndexError, self).
Proof.
  cbv zeta.
  assert (H1 : LLMUtils.n_keep (parameters (tuned_model 0 [])) = 0)
    by reflexivity.
  assert (H2 : 0 < pastTokens (tuned_model 0 [])) by reflexivity.
  assert (H3 : inputIds (tuned_model 0 []) <> []).
  { intros H. apply (f_equal (@length Z)) in H. discriminate H. }
  do 3 (split; [assumption|]).
  exact (zero_n_keep_raises (tuned_model 0 []) H1 H2 H3).
Defined.

(** X10 with [n_keep = -2]. *)
Lemma negative_n_keep_raises_witness :
  let self := tuned_model (-2) [] in
  LLMUtils.n_keep (parameters self) < -1 /\
  sampleTokenWithModel self = (Raise ValueError, self).
Proof.
  cbv zeta.
  assert (H1 : LLMUtils.n_keep (parameters (tuned_model (-2) [])) < -1)
    by reflexivity.
  split; [assumption|].
  exact (negative_n_keep_raises (tuned_model (-2) []) H1).
Defined.

(** X11 with the bias [2.0] on token 5. *)
Lemma sampling_stores_biased_logits_witness :
  let self := bias_model in
  let self' := snd (sampleTokenWithModel self) in
  sampleTokenWithModel self = (Ok 0, self') /\
  exists r,
    logits_view self = Some r /\ (r < length (scores self))%nat /\
    scores self' =
      update (scores self) r
        (fst (apply_logit_bias (nth r (scores self) [])
                (LLMUtils.logit_bias (parameters self)))) /\
    nth r (scores self') []
    = fst (apply_logit_bias (nth r (scores self) [])
             (LLMUtils.logit_bias (parameters self))) /\
    forall j, j <> r -> nth j (scores self') [] = nth j (scores self) [].
Proof.
  cbv zeta.
  assert (H1 : sampleTokenWithModel bias_model
               = (Ok 0, snd (sampleTokenWithModel bias_model)))
    by (apply run_of; reflexivity).
  split; [assumption|].
  exact (sampling_stores_biased_logits bias_model _ 0 H1).
Defined.

(** X12: two steps in a row bias token 5 twice. *)
Lemma logit_bias_compounds_witness :
  let self := bias_model in
  let self1 := snd (sampleTokenWithModel self) in
  let self2 := snd (sampleTokenWithModel self1) in
  sampleTokenWithModel self = (Ok 0, self1) /\
  sampleTokenWithModel self1 = (Ok 0, self2) /\
  exists r,
    logits_view self = Some r /\
    nth r (scores self2) []
    = fst (apply_logit_bias
             (fst (apply_logit_bias (nth r (scores self) [])
                     (LLMUtils.logit_bias (parameters self))))
             (LLMUtils.logit_bias (parameters self))).
Proof.
  cbv zeta.
  assert (H1 : sampleTokenWithModel bias_model
               = (Ok 0, snd (sampleTokenWithModel bias_model)))
    by (apply run_of; reflexivity).
  assert (H2 : sampleTokenWithModel (snd (sampleTokenWithModel bias_model))
               = (Ok 0, snd (sampleTokenWithModel
                               (snd (sampleTokenWithModel bias_model)))))
    by (apply run_of; reflexivity).
  repeat (split; [assumption|]).
  exact (logit_bias_compounds bias_model _ _ 0 0 H1 H2).
Defined.

Example token_five_is_biased_twice :
  nth_error
    (nth 0 (scores (snd (sampleTokenWithModel
                           (snd (sampleTokenWithModel bias_model))))) [])
    5
  = Some (SFmul 24 128 two32 two32).
Proof. reflexivity. Qed.

(** X13 with a bias on token 9 of a vocabulary of eight. *)
Lemma bias_key_outside_vocabulary_raises_witness :
  let self := tuned_model (-1) [(9, two)] in
  well_formed self /\ 0 < pastTokens self /\
  (LLMUtils.n_keep (parameters self) = -1 \/
   0 < LLMUtils.n_keep (parameters self)) /\
  Exists (fun item => ~ (- nVocab self <= fst item < nVocab self))
         (LLMUtils.logit_bias (parameters self)) /\
  exists self',
    sampleTokenWithModel self = (Raise IndexError, self') /\
    trace self' = trace self /\ pastTokens self' = pastTokens self /\
    context self' = context self.
Proof.
  cbv zeta.
  assert (H1 := tuned_model_well_formed (-1) [(9, two)]).
  assert (H2 : 0 < pastTokens (tuned_model (-1) [(9, two)])) by reflexivity.
  assert (H3 : LLMUtils.n_keep (parameters (tuned_model (-1) [(9, two)])) = -1
               \/ 0 < LLMUtils.n_keep
                        (parameters (tuned_model (-1) [(9, two)])))
    by (left; reflexivity).
  assert (H4 : Exists (fun item =>
                         ~ (- nVocab (tuned_model (-1) [(9, two)])
                            <= fst item
                            < nVocab (tuned_model (-1) [(9, two)])))
                      (LLMUtils.logit_bias
                         (parameters (tuned_model (-1) [(9, two)])))).
  { change (LLMUtils.logit_bias (parameters (tuned_model (-1) [(9, two)])))
      with [(9, two)].
    change (nVocab (tuned_model (-1) [(9, two)])) with 8.
    constructor. cbn [fst]. lia. }
  repeat (split; [assumption|]).
  exact (bias_key_outside_vocabulary_raises (tuned_model (-1) [(9, two)])
           H1 H2 H3 H4).
Defined.

(** X14 on a step that returns a token. *)
Lemma sampling_step_frame_witness :
  let self := greedy_model in
  let r := fst (sampleTokenWithModel self) in
  let self' := snd (sampleTokenWithModel self) in
  sampleTokenWithModel self = (r, self') /\
  pastTokens self' = pastTokens self /\ inputIds self' = inputIds self /\
  parameters self' = parameters self /\ nCtx self' = nCtx self /\
  match r with
  | Raise _ => trace self' = trace self /\ context self' = context self
  | Ok _ =>
      exists c, trace self' = trace self ++ [c] /\
                forall ids n_past, c <> Eval ids n_past
  end.
Proof.
  cbv zeta.
  assert (H1 : sampleTokenWithModel greedy_model
               = (fst (sampleTokenWithModel greedy_model),
                  snd (sampleTokenWithModel greedy_model)))
    by apply surjective_pairing.
  split; [assumption|].
  exact (sampling_step_frame greedy_model _ _ H1).
Defined.


(** X16: the end-of-sequence token after ["hi"]. *)
Lemma stop_token_ends_the_loop_witness :
  let ls1 := snd (consume 32000 5 [] (ids "hi") loop_start) in
  in_step loop_start /\
  consume 32000 5 [] (ids "hi") loop_start = (None, ls1) /\
  stop_token 32000 32000 = true /\
  exists ls',
    consume 32000 5 [] (ids "hi" ++ 32000 :: ids "!") loop_start
    = (Some StopToken, ls') /\
    tokens ls' = tokens ls1 /\ tempBytes ls' = tempBytes ls1 /\
    returned_text ls' = decode_utf8_ignore (tempBytes ls1).
Proof.
  cbv zeta.
  assert (H1 : in_step loop_start) by (split; reflexivity).
  assert (H2 : consume 32000 5 [] (ids "hi") loop_start
               = (None, snd (consume 32000 5 [] (ids "hi") loop_start)))
    by (apply run_of; reflexivity).
  assert (H3 : stop_token 32000 32000 = true) by reflexivity.
  repeat (split; [assumption|]).
  exact (stop_token_ends_the_loop 32000 5 32000 [] (ids "hi") (ids "!")
           loop_start _ H1 H2 H3).
Defined.

(** X17 with the empty string as the only anti-prompt. *)
Lemma empty_anti_prompt_stops_at_once_witness :
  stop_token 32000 104 = false /\
  scan_incomplete (tempBytes loop_start ++ tokenToByte 104)
                  (incompleteFix loop_start) <= 0 /\
  In (@nil byte) [[]] /\
  fst (loop_body 32000 5 [[]] 104 loop_start) = AntiPromptHit /\
  (hd_error [[]] = Some (@nil byte) ->
   tempBytes (snd (loop_body 32000 5 [[]] 104 loop_start)) = []).
Proof.
  assert (H1 : stop_token 32000 104 = false) by reflexivity.
  assert (H2 : scan_incomplete (tempBytes loop_start ++ tokenToByte 104)
                               (incompleteFix loop_start) <= 0)
    by (vm_compute; discriminate).
  assert (H3 : In (@nil byte) [[]]) by now left.
  repeat (split; [assumption|]).
  exact (empty_anti_prompt_stops_at_once 32000 5 104 [[]] loop_start
           H1 H2 H3).
Defined.

(** X18 on the first iteration. *)
Lemma countdown_stays_small_witness :
  let b := fst (loop_body 32000 5 [] 226 ab_state) in
  let ls' := snd (loop_body 32000 5 [] 226 ab_state) in
  0 <= incompleteFix ab_state <= 2 /\
  0 <= incompleteFix ls' <= 2 /\
  (b = NextToken \/ b = LengthCap \/ b = AntiPromptHit ->
   incompleteFix ls' = 0).
Proof.
  cbv zeta.
  assert (H1 : 0 <= incompleteFix ab_state <= 2) by (cbn; lia).
  split; [assumption|].
  exact (countdown_stays_small 32000 5 226 [] ab_state H1).
Defined.

(** X19: after ["ab"] and the lead byte [0xC3], two tokens without a
    piece are accepted with [n_predict = 0]. *)
Lemma armed_countdown_skips_the_length_cap_witness :
  Z.land 192 (Z.of_N (Byte.to_N xc3)) = 192 /\
  Forall (fun t => stop_token 32000 t = false /\ tokenToByte t = [])
         [300; 301] /\
  tempBytes lead_state = [] ++ [x61; x62; xc3] /\
  exists ls',
    consume 32000 0 [] [300; 301] lead_state = (None, ls') /\
    tokens ls' = tokens lead_state ++ [300; 301] /\
    tempBytes ls' = tempBytes lead_state.
Proof.
  assert (H1 : Z.land 192 (Z.of_N (Byte.to_N xc3)) = 192) by reflexivity.
  assert (H2 : Forall (fun t => stop_token 32000 t = false
                                /\ tokenToByte t = [])
                      [300; 301])
    by (repeat constructor).
  assert (H3 : tempBytes lead_state = [] ++ [x61; x62; xc3]) by reflexivity.
  repeat (split; [assumption|]).
  exact (armed_countdown_skips_the_length_cap 32000 0 [] [] x61 x62 xc3
           [300; 301] H1 H2 lead_state H3).
Defined.

(** X20 with ten rounds for a capacity of eight. *)
Lemma generate_ends_within_capacity_witness :
  well_formed hijk_model /\
  nCtx hijk_model - pastTokens hijk_model + 1 < Z.of_nat 10 /\
  fst (generate 10 hijk_model) <> Ok None.
Proof.
  assert (H1 := hijk_model_well_formed).
  assert (H2 : nCtx hijk_model - pastTokens hijk_model + 1 < Z.of_nat 10)
    by reflexivity.
  repeat (split; [assumption|]).
  exact (generate_ends_within_capacity 10 hijk_model H1 H2).
Defined.


Example generate_leaves_the_last_token_out :
  history (snd (generate 10 hijk_model)) = ids "abhi" /\
  pastTokens (snd (generate 10 hijk_model)) = 4.
Proof. split; reflexivity. Qed.

(** X22 on the answer ["hi!"] with [n_predict = 1]. *)
Lemma llava_loop_is_the_generate_loop_witness :
  let run := consume 32000 1 [] (ids "hi!") loop_start in
  let run' := llava_consume 32000 1 (ids "hi!") llava_start in
  str_is_empty str_empty = true /\ ~ In 2 (ids "hi!") /\
  fst run = fst run' /\
  same_decoding (snd run) (snd run') /\
  (fst run <> None -> returned_text (snd run) = llava_returned_text (snd run')).
Proof.
  cbv zeta.
  assert (H1 : str_is_empty str_empty = true) by reflexivity.
  assert (H2 : ~ In 2 (ids "hi!")).
  { intros H. cbn in H. intuition discriminate. }
  repeat (split; [assumption|]).
  exact (llava_loop_is_the_generate_loop 32000 1 (ids "hi!") H1 H2).
Defined.

Example token_two_stops_the_image_model_only :
  fst (loop_body 32000 5 [] 2 loop_start) = NextToken /\
  fst (llava_loop_body 32000 5 2 llava_start) = StopToken.
Proof. split; reflexivity. Qed.

(** X24 on a file of two prompts. *)
Lemma system_prompts_by_block_witness :
  Forall InitMemoryDB.no_splitter prompt_block /\
  InitMemoryDB.systemPrompts_of prompt_block
  = [InitMemoryDB.code_points "You are Melba.You like toast."] /\
  InitMemoryDB.systemPrompts_of prompt_file
  = [InitMemoryDB.code_points "You are Melba.You like toast.";
     InitMemoryDB.code_points "Be brief."].
Proof.
  assert (H1 : Forall InitMemoryDB.no_splitter prompt_block)
    by (repeat constructor).
  split; [assumption|].
  destruct (InitMemoryDBFacts.system_prompts_by_block prompt_block H1)
    as [Hlast Hcut].
  split.
  - rewrite Hlast. reflexivity.
  - unfold prompt_file.
    rewrite (Hcut (line "-=sysPromptSplitter=-") [line "Be brief."] eq_refl).
    reflexivity.
Defined.


End MoreExamples.
